(** * ELD Library API (scripts/server.py): a shallow embedding

    The storage and authorisation layer of the ELD asset library: project
    login against a per-project [.passwd] record, the process-wide [TOKENS]
    dictionary, the manifest scan, and path-checked download and upload.

    Conventions of the embedding.
    - A Python [str] is a [string] holding the UTF-8 bytes of the text; every
      delimiter the server looks for is ASCII, so searching, splitting and
      prefix tests on the bytes agree with the same operations on code
      points, and [encode("utf-8")] is the passage to [list byte].
    - [bytes] is [list byte].
    - [pathlib.Path] is the POSIX flavour: the only separator is [/], a
      backslash is an ordinary character of a name.
    - The file store is a tree of directories and regular files, without
      symbolic links; [resolve()] is therefore the lexical normalisation
      that [os.path.realpath] performs when no component is a link.
    - An exception escaping a handler is kept as [Raise]; the framework
      answers it with status 500. *)

From Stdlib Require Import Strings.String Strings.Ascii Strings.Byte.
From Stdlib Require Import List Bool Arith Lia Permutation.
From Stdlib Require Import DecimalString DecimalNat.
Import ListNotations.
Open Scope string_scope.
Open Scope list_scope.

Set Warnings "-register-all".

(** ** Python values *)

Definition str := string.
Definition bytes := list byte.

Module Py.

(** [s.encode("utf-8")] *)
Definition encode (s : str) : bytes := list_byte_of_string s.

(** [s.startswith(p)] *)
Definition startswith (s p : str) : bool := String.prefix p s.

(** [needle in s] *)
Fixpoint contains (needle s : str) : bool :=
  String.prefix needle s ||
  match s with
  | EmptyString => false
  | String _ s' => contains needle s'
  end.

(** [s.lstrip(c)] for a one-character argument *)
Fixpoint lstrip (c : ascii) (s : str) : str :=
  match s with
  | String a s' => if Ascii.eqb a c then lstrip c s' else s
  | EmptyString => EmptyString
  end.

(** [s.replace(a, b)] for one-character arguments *)
Fixpoint replace (a b : ascii) (s : str) : str :=
  match s with
  | EmptyString => EmptyString
  | String c s' => String (if Ascii.eqb c a then b else c) (replace a b s')
  end.

(** [s.split(sep)] for a one-character separator *)
Fixpoint split (sep : ascii) (s : str) : list str :=
  match s with
  | EmptyString => [EmptyString]
  | String c s' =>
      if Ascii.eqb c sep then EmptyString :: split sep s'
      else match split sep s' with
           | x :: xs => String c x :: xs
           | [] => [String c EmptyString]
           end
  end.

(** [s.split(sep, 1)[1]]: what follows the first separator; an
    [IndexError] when there is none *)
Fixpoint after_first (sep : ascii) (s : str) : option str :=
  match s with
  | EmptyString => None
  | String c s' => if Ascii.eqb c sep then Some s' else after_first sep s'
  end.

(** [s.isascii()] *)
Fixpoint is_ascii (s : str) : bool :=
  match s with
  | EmptyString => true
  | String c s' => Nat.ltb (nat_of_ascii c) 128 && is_ascii s'
  end.

(** [s.lower()] as far as the letters A to Z go: the bytes of every
    other character are left as they are.  On ASCII text this is
    [str.lower].  On other text [str.lower] also lowers the cased
    letters outside ASCII, which this function does not; the server
    only asks whether the result is one of six ASCII words, and there
    the two agree: the lower-case form of a character outside ASCII
    holds a character outside ASCII, except for U+212A, which gives k,
    a letter of none of the six.  Where the text lowered is returned
    to the caller (the browser's [infer_context_from_path]) the
    lowering is a parameter instead, see [Client]. *)
Definition lower_ascii (c : ascii) : ascii :=
  let n := nat_of_ascii c in
  if Nat.leb 65 n && Nat.leb n 90 then ascii_of_nat (n + 32) else c.

Fixpoint lower (s : str) : str :=
  match s with
  | EmptyString => EmptyString
  | String c s' => String (lower_ascii c) (lower s')
  end.

(** ASCII whitespace, as [bytes.strip()] understands it *)
Definition is_space (b : byte) : bool :=
  match b with
  | x20 | x09 | x0a | x0b | x0c | x0d => true
  | _ => false
  end.

Fixpoint lstrip_bytes (l : bytes) : bytes :=
  match l with
  | b :: l' => if is_space b then lstrip_bytes l' else l
  | [] => []
  end.

(** [raw.strip()] *)
Definition strip (l : bytes) : bytes :=
  rev (lstrip_bytes (rev (lstrip_bytes l))).

Fixpoint bytes_startswith (l p : bytes) : bool :=
  match p, l with
  | [], _ => true
  | _ :: _, [] => false
  | x :: p', y :: l' => Byte.eqb x y && bytes_startswith l' p'
  end.

Fixpoint bytes_eqb (a b : bytes) : bool :=
  match a, b with
  | [], [] => true
  | x :: a', y :: b' => Byte.eqb x y && bytes_eqb a' b'
  | _, _ => false
  end.

(** [TOKENS[k] = v] on an insertion-ordered dictionary: an existing key
    keeps its place *)
Fixpoint dict_set (d : list (str * str)) (k v : str) : list (str * str) :=
  match d with
  | [] => [(k, v)]
  | (k', v') :: d' =>
      if String.eqb k' k then (k, v) :: d' else (k', v') :: dict_set d' k v
  end.

End Py.

(** ** pathlib, POSIX flavour *)

Module Pathlib.

(** The root of a path: none, [/], or the two-slash root POSIX keeps
    apart. *)
Inductive anchor := Relative | Root | DoubleRoot.

Record Path := mkPath { root : anchor; tail : list str }.

Definition anchor_str (a : anchor) : str :=
  match a with Relative => "" | Root => "/" | DoubleRoot => "//" end.

(** [posixpath.splitroot]: exactly two leading slashes give [//] *)
Definition splitroot (s : str) : anchor :=
  match s with
  | String "/" (String "/" (String "/" _)) => Root
  | String "/" (String "/" _) => DoubleRoot
  | String "/" _ => Root
  | _ => Relative
  end.

Definition kept (x : str) : bool :=
  negb (String.eqb x "") && negb (String.eqb x ".").

(** [Path(s)]: empty and [.] components are dropped, [..] is kept *)
Definition parse (s : str) : Path :=
  {| root := splitroot s; tail := filter kept (Py.split "/" s) |}.

(** [str(p)] and [p.as_posix()] *)
Definition to_str (p : Path) : str :=
  match root p, tail p with
  | Relative, [] => "."
  | r, t => (anchor_str r ++ String.concat "/" t)%string
  end.

(** [p / s] *)
Definition joinpath (p : Path) (s : str) : Path :=
  let q := parse s in
  match root q with
  | Relative => {| root := root p; tail := tail p ++ tail q |}
  | _ => q
  end.

(** [p.parent] *)
Definition parent (p : Path) : Path :=
  {| root := root p; tail := removelast (tail p) |}.

Fixpoint strip_prefix (pre l : list str) : option (list str) :=
  match pre, l with
  | [], _ => Some l
  | x :: pre', y :: l' => if String.eqb x y then strip_prefix pre' l' else None
  | _ :: _, [] => None
  end.

Definition anchor_eqb (a b : anchor) : bool :=
  match a, b with
  | Relative, Relative | Root, Root | DoubleRoot, DoubleRoot => true
  | _, _ => false
  end.

(** [p.relative_to(q)]: component-wise; [None] is the [ValueError] *)
Definition relative_to (p q : Path) : option Path :=
  if anchor_eqb (root p) (root q) then
    match strip_prefix (tail q) (tail p) with
    | Some t => Some {| root := Relative; tail := t |}
    | None => None
    end
  else None.

(** Lexical normalisation of the components below [acc]: [..] removes
    the last component reached so far, and stays at the root there. *)
Fixpoint normalize (acc ps : list str) : list str :=
  match ps with
  | [] => acc
  | p :: ps' =>
      if String.eqb p ".." then normalize (removelast acc) ps'
      else normalize (acc ++ [p]) ps'
  end.



(** [p.resolve()], when it returns, in a store without symbolic links;
    a relative path is taken from the working directory [cwd].
    [os.path.realpath] builds its result from the single root, so that
    the two-slash root of a path is not kept. *)
Definition resolve (cwd : list str) (p : Path) : Path :=
  match root p with
  | Relative => {| root := Root; tail := normalize cwd (tail p) |}
  | _ => {| root := Root; tail := normalize [] (tail p) |}
  end.

(** [os.path.splitext]-like pieces of a final component:
    [PurePath.suffix] and [PurePath.stem] *)
Fixpoint rsplit_dot (s : str) : option (str * str) :=
  match s with
  | EmptyString => None
  | String c s' =>
      match rsplit_dot s' with
      | Some (a, b) => Some (String c a, b)
      | None => if Ascii.eqb c "." then Some (EmptyString, s') else None
      end
  end.

Definition name (s : str) : str := last (tail (parse s)) "".

(** The last dot splits the name, unless it is the first or the last
    character of the name. *)
Definition suffix (s : str) : str :=
  let n := name s in
  match rsplit_dot n with
  | Some (a, b) =>
      if String.eqb a "" || String.eqb b "" then "" else String "." b
  | None => ""
  end.

Definition stem (s : str) : str :=
  let n := name s in
  match rsplit_dot n with
  | Some (a, b) =>
      if String.eqb a "" || String.eqb b "" then n else a
  | None => n
  end.

End Pathlib.

(** ** Exceptions and handler results *)

Inductive exn :=
| FileNotFoundError
| IsADirectoryError
| NotADirectoryError
| FileExistsError
| ValueError
| IndexError
| OSError
| RuntimeError.

(** What a handler produces: a value, an [HTTPException] it raised itself,
    or another exception, which leaves the handler. *)
Inductive result (A : Type) :=
| Ok (a : A)
| HTTPException (status_code : nat) (detail : str)
| Raise (e : exn).

Arguments Ok {A} a.
Arguments HTTPException {A} status_code detail.
Arguments Raise {A} e.

Definition bind {A B : Type} (r : result A) (k : A -> result B) : result B :=
  match r with
  | Ok a => k a
  | HTTPException c d => HTTPException c d
  | Raise e => Raise e
  end.

Notation "x <- c ;; k" := (bind c (fun x => k))
  (at level 61, c at next level, right associativity).

(** The status line the framework sends for a handler result. *)
Definition status {A : Type} (r : result A) : nat :=
  match r with
  | Ok _ => 200
  | HTTPException c _ => c
  | Raise _ => 500
  end.

(** ** The file store

    The store is a tree whose names the file system can hold: they are
    within its limits of length and have no NUL in them, and every
    directory may be searched.  A path then fails to lead somewhere for
    one of two reasons only, that nothing is there ([ENOENT]) or that
    the way passes through a regular file ([ENOTDIR]); these are the
    failures that [Path.exists] answers with [False].  The other
    failures of [os.stat] ([ENAMETOOLONG] for a name of more than 255
    bytes, [EACCES]), which [Path.exists] lets through as [OSError],
    are outside the embedding. *)

Module Store.
Import Pathlib.

Inductive node :=
| File (data : bytes)
| Dir (entries : list (str * node)).

Fixpoint assoc (k : str) (es : list (str * node)) : option node :=
  match es with
  | [] => None
  | (k', n) :: es' => if String.eqb k' k then Some n else assoc k es'
  end.

(** Replace the entry named [k], or add it after the others. *)
Fixpoint put (k : str) (n : node) (es : list (str * node)) : list (str * node) :=
  match es with
  | [] => [(k, n)]
  | (k', n') :: es' =>
      if String.eqb k' k then (k, n) :: es' else (k', n') :: put k n es'
  end.

(** The node at a list of plain names below [n]. *)
Fixpoint lookup (n : node) (p : list str) : option node :=
  match p with
  | [] => Some n
  | c :: p' =>
      match n with
      | Dir es =>
          match assoc c es with
          | Some m => lookup m p'
          | None => None
          end
      | File _ => None
      end
  end.

(** Path resolution by the operating system: every component is looked
    up in a directory that exists, and [..] leads to the parent of the
    directory reached (the root is its own parent). *)
Fixpoint namei (fs : node) (cur ps : list str) : option (list str) :=
  match ps with
  | [] => Some cur
  | c :: ps' =>
      match lookup fs cur with
      | Some (Dir _) =>
          if String.eqb c ".." then namei fs (removelast cur) ps'
          else namei fs (cur ++ [c]) ps'
      | _ => None
      end
  end.

Definition start (cwd : list str) (p : Path) : list str :=
  match root p with Relative => cwd | _ => [] end.

(** [os.stat(p)] *)
Definition stat (cwd : list str) (fs : node) (p : Path) : option node :=
  match namei fs (start cwd p) (tail p) with
  | Some q => lookup fs q
  | None => None
  end.

(** [p.exists()] *)
Definition exists_ (cwd : list str) (fs : node) (p : Path) : bool :=
  match stat cwd fs p with Some _ => true | None => false end.

(** [p.read_bytes()] *)
Definition read_bytes (cwd : list str) (fs : node) (p : Path) : result bytes :=
  match stat cwd fs p with
  | Some (File d) => Ok d
  | Some (Dir _) => Raise IsADirectoryError
  | None => Raise FileNotFoundError
  end.

(** [p.stat().st_size] of a regular file *)
Definition st_size (n : node) : nat :=
  match n with File d => length d | Dir _ => 0 end.

(** Rewrite the node at [p]: [f] sees what is there, if anything, and
    gives what to leave there.  The directories above [p] must exist. *)
Fixpoint update (n : node) (p : list str)
    (f : option node -> result node) : result node :=
  match p with
  | [] => f (Some n)
  | c :: p' =>
      match n with
      | File _ => Raise NotADirectoryError
      | Dir es =>
          match assoc c es, p' with
          | None, [] => m <- f None ;; Ok (Dir (put c m es))
          | None, _ :: _ => Raise FileNotFoundError
          | Some m, _ => m' <- update m p' f ;; Ok (Dir (put c m' es))
          end
      end
  end.

(** [open(p, "wb")]: the file is created, or truncated, at once *)
Definition open_wb (fs : node) (p : list str) : result node :=
  update fs p (fun o =>
    match o with
    | Some (Dir _) => Raise IsADirectoryError
    | _ => Ok (File [])
    end).

(** [f.write(buf)] on the file opened at [p] *)
Definition write (fs : node) (p : list str) (buf : bytes) : result node :=
  update fs p (fun o =>
    match o with
    | Some (File d) => Ok (File (d ++ buf))
    | _ => Raise OSError
    end).

(** [p.mkdir(parents=True, exist_ok=True)] *)
Fixpoint mkdir_p (n : node) (p : list str) : result node :=
  match p with
  | [] =>
      match n with
      | Dir _ => Ok n
      | File _ => Raise FileExistsError
      end
  | c :: p' =>
      match n with
      | File _ => Raise NotADirectoryError
      | Dir es =>
          m' <- mkdir_p (match assoc c es with Some m => m | None => Dir [] end) p' ;;
          Ok (Dir (put c m' es))
      end
  end.

(** What an uploaded file yields when read: chunks, then the end of the
    data or a failure of the read. *)
Inductive stream :=
| EOF
| Broken
| Chunk (buf : bytes) (rest : stream).

(** [shutil.copyfileobj(src, f)]: read a chunk, write it, until a read
    gives nothing; the store is returned as the copy left it. *)
Fixpoint copyfileobj (src : stream) (fs : node) (p : list str)
    : result unit * node :=
  match src with
  | EOF => (Ok tt, fs)
  | Broken => (Raise OSError, fs)
  | Chunk [] _ => (Ok tt, fs)
  | Chunk buf rest =>
      match write fs p buf with
      | Ok fs' => copyfileobj rest fs' p
      | HTTPException c d => (HTTPException c d, fs)
      | Raise e => (Raise e, fs)
      end
  end.

Definition is_dir (n : node) : bool :=
  match n with Dir _ => true | File _ => false end.

Definition dirnames (es : list (str * node)) : list str :=
  map fst (filter (fun e => is_dir (snd e)) es).

Definition filenames (es : list (str * node)) : list str :=
  map fst (filter (fun e => negb (is_dir (snd e))) es).

(** [os.walk(top)], top-down, in the order the directory lists its
    entries; the directory of each triple is kept as a path, since the
    caller turns it into one at once. *)
Fixpoint walk_node (top : Path) (n : node) : list (Path * list str * list str) :=
  match n with
  | File _ => []
  | Dir es =>
      (top, dirnames es, filenames es) ::
      (fix below (l : list (str * node)) :=
         match l with
         | [] => []
         | (name, child) :: l' => walk_node (joinpath top name) child ++ below l'
         end) es
  end.

Definition walk (cwd : list str) (fs : node) (top : Path)
    : list (Path * list str * list str) :=
  match stat cwd fs top with
  | Some n => walk_node top n
  | None => []
  end.

End Store.

(** ** The server *)

Import Pathlib Store.

Record LoginRequest := { project : str; password : str }.

Record LoginResponse := { token : str }.

(** One entry of the manifest. *)
Record Asset := {
  id : str;
  type : str;
  version : nat;
  path : str;
  thumb : option str;
  bytes_total : nat
}.

(** [FileResponse(fpath)]: the answer names the file to send. *)
Inductive FileResponse := FileResponse_ (fpath : Path).

Record UploadAck := { ok : bool; saved : str }.

(** [TOKENS]: project to token, in insertion order. *)
Definition Tokens := list (str * str).

(** What the process is started with. *)
Record Env := {
  (** [bcrypt.checkpw(password, hashed)]; [None] when it raises (a
      malformed hash) *)
  checkpw : bytes -> bytes -> option bool;
  (** the working directory of the process *)
  cwd : list str;
  (** the components of the resolved directory that holds [server.py] *)
  base_dir : list str
}.

Section Server.

Variable env : Env.

Definition BASE_DIR : Path := {| root := Root; tail := base_dir env |}.
Definition PROJECTS_DIR : Path := joinpath BASE_DIR "projects".

Definition _passwd_path (project : str) : Path :=
  joinpath (joinpath PROJECTS_DIR project) ".passwd".

Definition _has_passwd (fs : node) (project : str) : bool :=
  exists_ (cwd env) fs (_passwd_path project).

Definition _verify_password (fs : node) (project plain_password : str)
    : result bool :=
  let p := _passwd_path project in
  if negb (exists_ (cwd env) fs p) then Ok false
  else
    content <- read_bytes (cwd env) fs p ;;
    let raw := Py.strip content in
    if Py.bytes_startswith raw (Py.encode "$2") then
      match checkpw env (Py.encode plain_password) raw with
      | Some b => Ok b
      | None => Ok false
      end
    else Ok (Py.bytes_eqb (Py.encode plain_password) raw).

Definition _require_bearer (authorization : option str) : result str :=
  match authorization with
  | None => HTTPException 401 "Missing token"
  | Some a =>
      if String.eqb a "" || negb (Py.startswith a "Bearer ") then
        HTTPException 401 "Missing token"
      else
        match Py.after_first " " a with
        | Some t => Ok t
        | None => Raise IndexError
        end
  end.

Fixpoint _project_from_token (TOKENS : Tokens) (tok : str) : result str :=
  match TOKENS with
  | [] => HTTPException 401 "Invalid token"
  | (k, v) :: rest =>
      if String.eqb v tok then Ok k else _project_from_token rest tok
  end.

(** [POST /auth/login]: the answer and [TOKENS] afterwards *)
Definition login (fs : node) (TOKENS : Tokens) (req : LoginRequest)
    : result LoginResponse * Tokens :=
  let proj_dir := joinpath PROJECTS_DIR (project req) in
  if negb (exists_ (cwd env) fs proj_dir) then
    (HTTPException 404 "Project not found", TOKENS)
  else if negb (_has_passwd fs (project req)) then
    (HTTPException 401 "Password not set for project", TOKENS)
  else
    match _verify_password fs (project req) (password req) with
    | Ok true =>
        let token := ("token-" ++ project req)%string in
        (Ok {| token := token |}, Py.dict_set TOKENS (project req) token)
    | Ok false => (HTTPException 401 "Invalid password", TOKENS)
    | HTTPException c d => (HTTPException c d, TOKENS)
    | Raise e => (Raise e, TOKENS)
    end.

Definition exts : list str := ["bgeo"; "abc"; "vdb"; "cpio"; "jpg"; "png"].

Definition mem (x : str) (l : list str) : bool := existsb (String.eqb x) l.

(** The body of the inner loop of the manifest scan, for one file name
    of the directory [root]: nothing for an extension that is not
    recognised, one record otherwise. *)
Definition scan_file (fs : node) (proj_dir root : Path) (fname : str)
    : result (list Asset) :=
  let ext := Py.lstrip "." (Py.lower (suffix fname)) in
  if negb (mem ext exts) then Ok []
  else
    let abspath := joinpath root fname in
    match relative_to abspath proj_dir with
    | None => Raise ValueError
    | Some rel =>
        let relpath := to_str rel in
        match stat (cwd env) fs abspath with
        | None => Raise FileNotFoundError
        | Some n =>
            Ok [ {| id := stem fname;
                    type := ext;
                    version := 1;
                    path := relpath;
                    thumb := if mem ext ["jpg"; "png"] then Some relpath else None;
                    bytes_total := st_size n |} ]
        end
    end.

Fixpoint scan_files (fs : node) (proj_dir root : Path) (files : list str)
    : result (list Asset) :=
  match files with
  | [] => Ok []
  | fname :: files' =>
      a <- scan_file fs proj_dir root fname ;;
      rest <- scan_files fs proj_dir root files' ;;
      Ok (a ++ rest)
  end.

Fixpoint scan (fs : node) (proj_dir : Path)
    (triples : list (Path * list str * list str)) : result (list Asset) :=
  match triples with
  | [] => Ok []
  | (root, _dirs, files) :: triples' =>
      a <- scan_files fs proj_dir root files ;;
      rest <- scan fs proj_dir triples' ;;
      Ok (a ++ rest)
  end.

(** [GET /manifest] *)
Definition manifest (fs : node) (TOKENS : Tokens) (authorization : option str)
    : result (list Asset) :=
  tok <- _require_bearer authorization ;;
  proj <- _project_from_token TOKENS tok ;;
  let proj_dir := joinpath PROJECTS_DIR proj in
  if negb (exists_ (cwd env) fs proj_dir) then
    HTTPException 404 "Project not found"
  else scan fs proj_dir (walk (cwd env) fs proj_dir).

(** [GET /download] *)
Definition download (fs : node) (TOKENS : Tokens) (path : str)
    (authorization : option str) : result FileResponse :=
  tok <- _require_bearer authorization ;;
  proj <- _project_from_token TOKENS tok ;;
  let fpath := resolve (cwd env) (joinpath (joinpath PROJECTS_DIR proj) path) in
  if negb (Py.startswith (to_str fpath)
             (to_str (resolve (cwd env) (joinpath PROJECTS_DIR proj)))) then
    HTTPException 400 "Invalid path"
  else if negb (exists_ (cwd env) fs fpath) then
    HTTPException 404 "File not found"
  else Ok (FileResponse_ fpath).

(** The relative path that [upload] derives from its [path] field. *)
Definition upload_rel (path : str) : str :=
  Py.lstrip "/" (to_str (parse (Py.replace "\" "/" path))).

(** The part of [upload] that writes: directories, open, copy, answer. *)
Definition store_file (fs : node) (dest root : Path) (file : stream)
    : result UploadAck * node :=
  match mkdir_p fs (tail (parent dest)) with
  | HTTPException c d => (HTTPException c d, fs)
  | Raise e => (Raise e, fs)
  | Ok fs1 =>
      match open_wb fs1 (tail dest) with
      | HTTPException c d => (HTTPException c d, fs1)
      | Raise e => (Raise e, fs1)
      | Ok fs2 =>
          match copyfileobj file fs2 (tail dest) with
          | (HTTPException c d, fs3) => (HTTPException c d, fs3)
          | (Raise e, fs3) => (Raise e, fs3)
          | (Ok _, fs3) =>
              match relative_to dest root with
              | None => (Raise ValueError, fs3)
              | Some r =>
                  (Ok {| ok := true;
                         saved := Py.replace "\" "/" (to_str r) |}, fs3)
              end
          end
      end
  end.

(** [POST /upload]: the answer and the store afterwards *)
Definition upload (fs : node) (TOKENS : Tokens) (path : str) (file : stream)
    (authorization : option str) : result UploadAck * node :=
  match _require_bearer authorization with
  | HTTPException c d => (HTTPException c d, fs)
  | Raise e => (Raise e, fs)
  | Ok tok =>
      match _project_from_token TOKENS tok with
      | HTTPException c d => (HTTPException c d, fs)
      | Raise e => (Raise e, fs)
      | Ok proj =>
          let rel := upload_rel path in
          if Py.contains ".." rel || Py.startswith rel "/" then
            (HTTPException 400 "Invalid path", fs)
          else
            let dest := resolve (cwd env) (joinpath (joinpath PROJECTS_DIR proj) rel) in
            let root := resolve (cwd env) (joinpath PROJECTS_DIR proj) in
            if negb (Py.startswith (to_str dest) (to_str root)) then
              (HTTPException 400 "Invalid path", fs)
            else store_file fs dest root file
      end
  end.

(** What the framework sends for a [FileResponse]: the bytes of a
    regular file; it refuses anything else with an error of its own. *)
Definition send_file (fs : node) (r : FileResponse) : result bytes :=
  match r with
  | FileResponse_ fpath =>
      match stat (cwd env) fs fpath with
      | Some (File d) => Ok d
      | _ => Raise RuntimeError
      end
  end.

End Server.

(** ** Notions used by the statements *)

Section Notions.

Variable env : Env.

(** The states of [TOKENS] that the server can be in: it starts empty
    and only [login] writes to it, whatever the store holds then. *)
Inductive reachable : Tokens -> Prop :=
| reachable_start : reachable []
| reachable_login (fs : node) (T : Tokens) (req : LoginRequest) :
    reachable T ->
    reachable (snd (login env fs T req)).

(** A run of further logins, each against the store of its moment. *)
Fixpoint logins (later : list (node * LoginRequest)) (T : Tokens) : Tokens :=
  match later with
  | [] => T
  | (fs, req) :: later' =>
      logins later' (snd (login env fs T req))
  end.

(** The password is the right one for the project: the project has a
    credential record, and the record, stripped, either is a hash that
    the password checks against or is the password itself. *)
Definition correct_password (fs : node) (project plain : str) : Prop :=
  exists content,
    stat (cwd env) fs (_passwd_path env project) = Some (File content) /\
    let raw := Py.strip content in
    if Py.bytes_startswith raw (Py.encode "$2")
    then checkpw env (Py.encode plain) raw = Some true
    else Py.encode plain = raw.

(** The resolved root of a project, the destination [upload] derives
    from its [path] field with the two tests it applies, and the file
    [download] derives from its [path] parameter with its one test. *)
Definition project_root (proj : str) : Path :=
  resolve (cwd env) (joinpath (PROJECTS_DIR env) proj).

Definition upload_dest (proj path : str) : Path :=
  resolve (cwd env) (joinpath (joinpath (PROJECTS_DIR env) proj) (upload_rel path)).

Definition upload_accepts (proj path : str) : bool :=
  negb (Py.contains ".." (upload_rel path) || Py.startswith (upload_rel path) "/")
  && Py.startswith (to_str (upload_dest proj path)) (to_str (project_root proj)).

Definition download_target (proj path : str) : Path :=
  resolve (cwd env) (joinpath (joinpath (PROJECTS_DIR env) proj) path).

Definition download_accepts (proj path : str) : bool :=
  Py.startswith (to_str (download_target proj path)) (to_str (project_root proj)).

End Notions.

(** Every token recorded is the one [login] derives for its project. *)
Definition well_formed (T : Tokens) : Prop :=
  forall k v, In (k, v) T -> v = ("token-" ++ k)%string.

(** The bytes that reading a stream to its end delivers. *)
Fixpoint received (src : stream) : bytes :=
  match src with
  | EOF | Broken => []
  | Chunk [] _ => []
  | Chunk buf rest => buf ++ received rest
  end.

(** Whether reading the stream to its end succeeds. *)
Fixpoint complete (src : stream) : bool :=
  match src with
  | EOF => true
  | Broken => false
  | Chunk [] _ => true
  | Chunk _ rest => complete rest
  end.

(** Two lists of names part: they differ at a name that both have. *)
Fixpoint apart (q p : list str) : bool :=
  match q, p with
  | a :: q', c :: p' => if String.eqb a c then apart q' p' else true
  | _, _ => false
  end.

(** The names [q] lead to [p]: they are [p] or begin it. *)
Fixpoint leads_to (q p : list str) : bool :=
  match q, p with
  | [], _ => true
  | a :: q', c :: p' => String.eqb a c && leads_to q' p'
  | _ :: _, [] => false
  end.

(** The line feed, as a string. *)
Definition newline : str := String (ascii_of_nat 10) EmptyString.


(** A small store for the examples: the server lives in [/srv], and the
    projects are [DEMO] (plaintext record with a trailing newline),
    [DEMO2] and [NOPW] (no record). *)
Module Demo.

Definition b (s : str) : bytes := list_byte_of_string s.

Definition env : Env :=
  {| checkpw := fun _ _ => None; cwd := []; base_dir := ["srv"] |}.

Definition demo_dir : node :=
  Dir [ (".passwd", File (b "secret123" ++ [x0a]));
        ("a.bgeo", File (b "AAAA"));
        ("b.vdb", File (b "BB"));
        ("readme.txt", File (b "r"));
        ("thumbs", Dir [("shot.jpg", File (b "jpeg"))]) ].

Definition fs : node :=
  Dir [ ("srv", Dir [ ("projects", Dir [
          ("DEMO", demo_dir);
          ("DEMO2", Dir [ (".passwd", File (b "pw2"));
                          ("secret.bgeo", File (b "S")) ]);
          ("NOPW", Dir []) ]) ]);
        ("etc", Dir [ ("passwd", File (b "root")) ]) ].

(** A project that holds exactly the three files of the manifest
    example. *)
Definition three : node :=
  Dir [ ("srv", Dir [ ("projects", Dir [
          ("P", Dir [ ("readme.txt", File (b "r"));
                      ("b.vdb", File (b "BB"));
                      ("a.bgeo", File (b "AAAA")) ]) ]) ]) ].

Definition T : Tokens := [("DEMO", "token-DEMO")].
Definition auth : option str := Some "Bearer token-DEMO".

End Demo.

(** ** The project catalogue *)

(** [p.name] of a path object *)
Definition path_name (p : Path) : str := last (tail p) "".

(** The path that [iterdir] makes of a directory and the name of one of
    its entries. *)
Definition child (p : Path) (entry : str) : Path :=
  {| root := root p; tail := tail p ++ [entry] |}.

(** [p.iterdir()], in the order the directory lists its entries *)
Definition iterdir (cwd : list str) (fs : node) (p : Path) : result (list Path) :=
  match stat cwd fs p with
  | Some (Dir es) => Ok (map (fun e => child p (fst e)) es)
  | Some (File _) => Raise NotADirectoryError
  | None => Raise FileNotFoundError
  end.

(** [p.is_dir()] *)
Definition path_is_dir (cwd : list str) (fs : node) (p : Path) : bool :=
  match stat cwd fs p with
  | Some (Dir _) => true
  | _ => false
  end.

Section Catalogue.

Variable env : Env.

(** The test of the comprehension in [list_projects]. *)
Definition listed (fs : node) (p : Path) : bool :=
  path_is_dir (cwd env) fs p
  && negb (Py.startswith (path_name p) ".")
  && negb (mem (path_name p) ["Script"; "Scripts"]).

(** [GET /projects] *)
Definition list_projects (fs : node) : result (list str) :=
  if negb (exists_ (cwd env) fs (PROJECTS_DIR env)) then Ok []
  else
    children <- iterdir (cwd env) fs (PROJECTS_DIR env) ;;
    Ok (map path_name (filter (listed fs) children)).

End Catalogue.

(** ** The clients of the server (Houdini shelf tools) *)

Module Client.

(** The filter both clients apply to the answer of [GET /projects]. *)
Definition list_projects (raw : list str) : list str :=
  filter (fun p => negb (String.eqb p "")
                   && negb (Py.startswith p ".")
                   && negb (mem p ["Script"; "Scripts"])) raw.

(** The [Authorization] header the clients send with a token. *)
Definition authorization (tok : str) : str := ("Bearer " ++ tok)%string.

(** [_paths_for(ctx, base_name)] of the exporter *)
Definition _paths_for (ctx base_name : str) : str * str :=
  (("cpio/" ++ ctx ++ "/" ++ base_name ++ ".cpio")%string,
   ("thumbs/" ++ base_name ++ ".jpg")%string).

Fixpoint zeros (n : nat) : str :=
  match n with
  | 0 => EmptyString
  | S n' => String "0" (zeros n')
  end.

(** [f"{i:03d}"]: the decimal digits of [i], with zeros before them up
    to three characters *)
Definition fmt03 (i : nat) : str :=
  let digits := NilEmpty.string_of_uint (Nat.to_uint i) in
  (zeros (3 - String.length digits) ++ digits)%string.

(** The candidate that [_uniquify_base] tries at the counter [i]. *)
Definition candidate (base_name : str) (i : nat) : str :=
  (base_name ++ "_" ++ fmt03 i)%string.

(** Neither path of the candidate is among the existing ones. *)
Definition free (ctx base_name : str) (existing_paths : list str) (i : nat) : bool :=
  let (rel1, rel2) := _paths_for ctx (candidate base_name i) in
  negb (mem rel1 existing_paths) && negb (mem rel2 existing_paths).

(** The loop of [_uniquify_base], from the counter [i], for at most
    [fuel] rounds; the set of existing paths is a list here, of which
    only membership is used. *)
Fixpoint uniquify_from (fuel : nat) (ctx base_name : str)
    (existing_paths : list str) (i : nat) : option str :=
  match fuel with
  | 0 => None
  | S fuel' =>
      if free ctx base_name existing_paths i then Some (candidate base_name i)
      else uniquify_from fuel' ctx base_name existing_paths (S i)
  end.

(** [_uniquify_base(ctx, base_name, existing_paths)] of the exporter *)
Definition _uniquify_base (fuel : nat) (ctx base_name : str)
    (existing_paths : list str) : option str :=
  uniquify_from fuel ctx base_name existing_paths 1.

(** The characters of [s] before its first slash, and what follows
    them. *)
Fixpoint span_segment (s : str) : str * str :=
  match s with
  | EmptyString => (EmptyString, EmptyString)
  | String c s' =>
      if Ascii.eqb c "/" then (EmptyString, s)
      else let (g, r) := span_segment s' in (String c g, r)
  end.

(** What follows the literal [lit] at the head of [s]. *)
Fixpoint after_literal (lit s : str) : option str :=
  match lit, s with
  | EmptyString, _ => Some s
  | String a lit', String c s' =>
      if Ascii.eqb a c then after_literal lit' s' else None
  | String _ _, EmptyString => None
  end.

(** A match of [cpio/([^/]+)/] at the head of [s]: the group.  The
    group is the longest run without a slash, it must not be empty and
    a slash must follow it. *)
Definition match_cpio (s : str) : option str :=
  match after_literal "cpio/" s with
  | Some rest =>
      match span_segment rest with
      | (String c g, String _ _) => Some (String c g)
      | _ => None
      end
  | None => None
  end.

(** The matches that begin with a slash, leftmost first. *)
Fixpoint search_cpio_after_slash (s : str) : option str :=
  match s with
  | EmptyString => None
  | String c s' =>
      if Ascii.eqb c "/" then
        match match_cpio s' with
        | Some g => Some g
        | None => search_cpio_after_slash s'
        end
      else search_cpio_after_slash s'
  end.

(** [re.search(r"(?:^|/)cpio/([^/]+)/", s)]: the group of the leftmost
    match; at the first position the start of the string is tried
    before the slash. *)
Definition search_cpio (s : str) : option str :=
  match match_cpio s with
  | Some g => Some g
  | None => search_cpio_after_slash s
  end.

Section Lowering.

(** [str.lower] follows the Unicode case tables, which are not part of
    this development: the function is a variable of the browser's
    model, and the statements say what they assume of it. *)
Variable str_lower : str -> str.

(** [infer_context_from_path(path)] of the browser *)
Definition infer_context_from_path (path : str) : str :=
  match search_cpio (Py.replace "\" "/" path) with
  | Some g => str_lower g
  | None => ""
  end.

End Lowering.

End Client.

(** ** Well-formed stores *)

(** A name that a directory can hold. *)
Definition valid_name (x : str) : bool :=
  negb (String.eqb x "") && negb (String.eqb x ".") && negb (String.eqb x "..")
  && negb (Py.contains "/" x).

Fixpoint distinct (l : list str) : bool :=
  match l with
  | [] => true
  | x :: l' => negb (mem x l') && distinct l'
  end.

(** Every directory of the tree holds valid names, each once. *)
Fixpoint wf (n : node) : bool :=
  match n with
  | File _ => true
  | Dir es =>
      distinct (map fst es) &&
      (fix all (l : list (str * node)) : bool :=
         match l with
         | [] => true
         | (k, m) :: l' => valid_name k && wf m && all l'
         end) es
  end.

(** The walk of the entries [l] of the directory [top], one after the
    other: what [os.walk] yields after the triple of [top] itself. *)
Definition walk_below (top : Path) (l : list (str * node))
    : list (Path * list str * list str) :=
  flat_map (fun e => walk_node (joinpath top (fst e)) (snd e)) l.

(** The path [p] continued by the names [sub]. *)
Definition extend (p : Path) (sub : list str) : Path :=
  {| root := root p; tail := tail p ++ sub |}.

(** What every record of a manifest satisfies: a recognised type, the
    version 1, and a thumbnail that is the record's own path for the
    two image types and absent for the others. *)
Definition record_ok (a : Asset) : Prop :=
  mem (type a) exts = true /\
  version a = 1 /\
  thumb a = if mem (type a) ["jpg"; "png"] then Some (path a) else None.

(** The record [a] is that of a regular file below the node [n]: its
    path is made of the names [sub], which lead to [n] from the project
    directory, and of the names that lead from [n] to the file; its size
    is that of the file, and its identifier and its type are the stem
    and the extension, in lower case, of the last of these names. *)
Definition describes (sub : list str) (n : node) (a : Asset) : Prop :=
  exists rest d,
    rest <> [] /\
    Forall (fun k => valid_name k = true) rest /\
    path a = String.concat "/" (sub ++ rest) /\
    lookup n rest = Some (File d) /\
    bytes_total a = length d /\
    id a = stem (last rest "") /\
    type a = Py.lstrip "." (Py.lower (suffix (last rest ""))).

(** A name without a slash that is not empty. *)
Definition plain (x : str) : Prop :=
  x <> "" /\ Py.contains "/" x = false.

(** ** [setup_dirs.py] *)

Module Setup.

Section Main.

Variable env : Env.

(** The script lies beside the server: its [BASE_DIR] and its
    [PROJECTS_DIR] are those of the server. *)
Definition THUMB_DIR : Path := joinpath (BASE_DIR env) "thumbs".

(** A step that fails leaves the store as it was. *)
Definition lift (fs : node) (r : result node) : result unit * node :=
  match r with
  | Ok fs' => (Ok tt, fs')
  | HTTPException c d => (HTTPException c d, fs)
  | Raise e => (Raise e, fs)
  end.

(** The next statement runs in the store the last one left, if that one
    did not raise. *)
Definition seq (r : result unit * node) (k : node -> result unit * node)
    : result unit * node :=
  match r with
  | (Ok _, fs) => k fs
  | other => other
  end.

(** [p.mkdir(parents=True, exist_ok=True)] *)
Definition mkdir (fs : node) (p : Path) : result unit * node :=
  lift fs (mkdir_p fs (tail p)).

(** [p.write_text(data)]: the file is opened for writing, which creates
    or empties it, and the encoded text is written. *)
Definition write_text (fs : node) (p : Path) (data : str) : result unit * node :=
  seq (lift fs (open_wb fs (tail p)))
      (fun fs1 => lift fs1 (write fs1 (tail p) (Py.encode data))).

(** The directory [demo_proj] of [main]. *)
Definition demo_proj : Path := joinpath (PROJECTS_DIR env) "DemoProject".

(** [main()]; what it prints is left out. *)
Definition main (fs : node) : result unit * node :=
  seq (mkdir fs (PROJECTS_DIR env)) (fun fs1 =>
  seq (mkdir fs1 THUMB_DIR) (fun fs2 =>
  seq (mkdir fs2 demo_proj) (fun fs3 =>
  seq (write_text fs3 (joinpath demo_proj "cache.abc") "dummy alembic file") (fun fs4 =>
  seq (write_text fs4 (joinpath demo_proj "smoke.vdb") "dummy vdb file") (fun fs5 =>
  write_text fs5 (joinpath demo_proj "geo.bgeo") "dummy bgeo file"))))).

End Main.

End Setup.

(** ** Facts about the Python values *)

Lemma bytes_eqb_eq (a b : bytes) : Py.bytes_eqb a b = true <-> a = b.
Proof.
  revert b; induction a as [|x a IH]; intros [|y b]; simpl; split;
    try congruence; try reflexivity.
  - intros H. apply andb_true_iff in H as [Hx Hab].
    apply Byte.byte_dec_bl in Hx. apply IH in Hab. congruence.
  - intros H. injection H as -> ->.
    apply andb_true_iff; split; [apply Byte.byte_dec_lb; reflexivity | now apply IH].
Qed.

Lemma append_inj_l (p a b : str) : (p ++ a = p ++ b)%string -> a = b.
Proof.
  induction p as [|c p IH]; simpl; intros H; [assumption|].
  injection H as H. auto.
Qed.

(** ** The token dictionary *)

Lemma dict_set_in (T : Tokens) (k v : str) : In (k, v) (Py.dict_set T k v).
Proof.
  induction T as [|[k' v'] T IH]; simpl; [now left|].
  destruct (String.eqb k' k); simpl; auto.
Qed.

Lemma dict_set_keeps_key (T : Tokens) (k v k0 : str) :
  In k0 (map fst T) -> In k0 (map fst (Py.dict_set T k v)).
Proof.
  induction T as [|[k' v'] T IH]; simpl; [tauto|].
  destruct (String.eqb_spec k' k) as [->|Hne]; simpl; tauto.
Qed.

Lemma dict_set_well_formed (T : Tokens) (k : str) :
  well_formed T -> well_formed (Py.dict_set T k ("token-" ++ k)%string).
Proof.
  unfold well_formed. induction T as [|[k' v'] T IH]; simpl; intros HT k0 v0 Hin.
  - destruct Hin as [H|[]]. injection H as <- <-. reflexivity.
  - destruct (String.eqb k' k); simpl in Hin.
    + destruct Hin as [H|H]; [injection H as <- <-; reflexivity | apply HT; now right].
    + destruct Hin as [H|H]; [apply HT; now left|].
      apply IH; [intros; apply HT; now right | assumption].
Qed.

Lemma project_from_token_well_formed (T : Tokens) (k : str) :
  well_formed T -> In k (map fst T) ->
  _project_from_token T ("token-" ++ k)%string = Ok k.
Proof.
  induction T as [|[k' v'] T IH]; intros HT Hin; [contradiction|].
  cbn [_project_from_token].
  assert (Hv : v' = ("token-" ++ k')%string) by (apply HT; now left).
  destruct (String.eqb_spec v' ("token-" ++ k)%string) as [E|NE].
  - rewrite Hv in E. apply (append_inj_l "token-") in E. now subst.
  - destruct Hin as [E|Hin]; [subst; contradiction|].
    apply IH; [intros ? ? ?; apply HT; now right | assumption].
Qed.

Section LoginFacts.

Variable env : Env.

(** The shape of every answer of [login]. *)
Lemma login_cases (fs : node) (T : Tokens) (req : LoginRequest) :
  login env fs T req =
    (Ok {| token := ("token-" ++ project req)%string |},
     Py.dict_set T (project req) ("token-" ++ project req)%string)
  \/ (exists r, login env fs T req = (r, T) /\ forall t, r <> Ok t).
Proof.
  unfold login.
  destruct (negb (exists_ _ _ _)); [right; eexists; split; [reflexivity|discriminate]|].
  destruct (negb (_has_passwd _ _ _)); [right; eexists; split; [reflexivity|discriminate]|].
  destruct (_verify_password _ _ _ _) as [[|]| |];
    [left; reflexivity | right; eexists; split; [reflexivity|discriminate] ..].
Qed.

Lemma login_well_formed (fs : node) (T : Tokens) (req : LoginRequest) :
  well_formed T -> well_formed (snd (login env fs T req)).
Proof.
  intros HT. destruct (login_cases fs T req) as [E|[r [E _]]]; rewrite E; simpl.
  - now apply dict_set_well_formed.
  - assumption.
Qed.

Lemma login_keeps_key (fs : node) (T : Tokens) (req : LoginRequest) (k : str) :
  In k (map fst T) -> In k (map fst (snd (login env fs T req))).
Proof.
  intros HT. destruct (login_cases fs T req) as [E|[r [E _]]]; rewrite E; simpl.
  - now apply dict_set_keeps_key.
  - assumption.
Qed.

Lemma reachable_well_formed (T : Tokens) :
  reachable env T -> well_formed T.
Proof.
  induction 1 as [|fs T req _ IH].
  - intros k v [].
  - now apply login_well_formed.
Qed.

Lemma logins_well_formed later : forall T,
  well_formed T -> well_formed (logins env later T).
Proof.
  induction later as [|[fs req] later IH]; simpl; intros T HT; [assumption|].
  apply IH. now apply login_well_formed.
Qed.

Lemma logins_keep_key later (k : str) : forall T,
  In k (map fst T) -> In k (map fst (logins env later T)).
Proof.
  induction later as [|[fs req] later IH]; simpl; intros T HT; [assumption|].
  apply IH. now apply login_keeps_key.
Qed.

End LoginFacts.

(** ** Facts about the file store *)

Lemma lookup_app (n : node) (a b : list str) :
  lookup n (a ++ b) =
  match lookup n a with Some m => lookup m b | None => None end.
Proof.
  revert n; induction a as [|c a IH]; intros n; simpl; [reflexivity|].
  destruct n as [d|es]; [reflexivity|].
  destruct (assoc c es); [apply IH | reflexivity].
Qed.

Lemma namei_app (fs : node) (a b cur : list str) :
  namei fs cur (a ++ b) =
  match namei fs cur a with Some q => namei fs q b | None => None end.
Proof.
  revert cur; induction a as [|c a IH]; intros cur; simpl; [reflexivity|].
  destruct (lookup fs cur) as [[d|es]|]; try reflexivity.
  destruct (String.eqb c ".."); apply IH.
Qed.

(** A path and the same path with one more name: the longer one can be
    reached only through a directory at the shorter one. *)
Lemma stat_child_dir (cwd : list str) (fs : node) (p : Path) (c : str) (n : node) :
  stat cwd fs {| root := root p; tail := tail p ++ [c] |} = Some n ->
  exists es, stat cwd fs p = Some (Dir es).
Proof.
  unfold stat, start; simpl. rewrite namei_app.
  destruct (namei fs _ (tail p)) as [q|]; [|discriminate].
  simpl. destruct (lookup fs q) as [[d|es]|]; try discriminate.
  intros _. now exists es.
Qed.

Lemma stat_child (cwd : list str) (fs : node) (p : Path) (c : str) es :
  stat cwd fs p = Some (Dir es) -> c <> ".." ->
  stat cwd fs {| root := root p; tail := tail p ++ [c] |} = assoc c es.
Proof.
  unfold stat, start; simpl. rewrite namei_app.
  destruct (namei fs _ (tail p)) as [q|]; [|discriminate].
  simpl. intros Hq Hc. rewrite Hq.
  apply String.eqb_neq in Hc. rewrite Hc.
  rewrite lookup_app, Hq. simpl.
  destruct (assoc c es); reflexivity.
Qed.

Section Credentials.

Variable env : Env.

Lemma passwd_path_eq (proj : str) :
  _passwd_path env proj =
  {| root := root (joinpath (PROJECTS_DIR env) proj);
     tail := tail (joinpath (PROJECTS_DIR env) proj) ++ [".passwd"] |}.
Proof. reflexivity. Qed.

(** A project with a credential record exists. *)
Lemma has_passwd_project_exists (fs : node) (proj : str) :
  _has_passwd env fs proj = true ->
  exists_ (cwd env) fs (joinpath (PROJECTS_DIR env) proj) = true.
Proof.
  unfold _has_passwd, exists_. rewrite passwd_path_eq.
  destruct (stat _ fs {| root := _; tail := _ ++ _ |}) as [n|] eqn:E; [|discriminate].
  apply stat_child_dir in E as [es ->]. reflexivity.
Qed.

(** What [_verify_password] computes on a record that is a regular
    file. *)
Lemma verify_password_record (fs : node) (proj plain : str) (content : bytes) :
  stat (cwd env) fs (_passwd_path env proj) = Some (File content) ->
  _verify_password env fs proj plain =
    Ok (let raw := Py.strip content in
        if Py.bytes_startswith raw (Py.encode "$2")
        then match checkpw env (Py.encode plain) raw with
             | Some b => b
             | None => false
             end
        else Py.bytes_eqb (Py.encode plain) raw).
Proof.
  intros H. unfold _verify_password, exists_, read_bytes. rewrite H. simpl.
  destruct (Py.bytes_startswith _ _); [|reflexivity].
  destruct (checkpw env _ _); reflexivity.
Qed.

Lemma correct_password_verifies (fs : node) (proj plain : str) :
  correct_password env fs proj plain ->
  _has_passwd env fs proj = true /\
  _verify_password env fs proj plain = Ok true.
Proof.
  intros [content [Hst Hraw]]. split.
  - unfold _has_passwd, exists_. now rewrite Hst.
  - rewrite (verify_password_record _ _ _ _ Hst). cbv zeta in *.
    destruct (Py.bytes_startswith _ _).
    + now rewrite Hraw.
    + f_equal. now apply bytes_eqb_eq.
Qed.

End Credentials.

(** ** Login *)

(** C9. Every successful login returns the token ["token-"] followed by
    the project name, whatever the store, the state of [TOKENS] and the
    password: two successful logins to one project return the same
    token, which is computable from the project name alone. *)
Theorem login_token_deterministic (env : Env)
    (fs1 fs2 : node) (T1 T2 : Tokens) (proj pw1 pw2 : str) (r1 r2 : LoginResponse) :
  fst (login env fs1 T1 {| project := proj; password := pw1 |}) = Ok r1 ->
  fst (login env fs2 T2 {| project := proj; password := pw2 |}) = Ok r2 ->
  token r1 = ("token-" ++ proj)%string /\ token r2 = token r1.
Proof.
  intros H1 H2.
  destruct (login_cases env fs1 T1 {| project := proj; password := pw1 |})
    as [E1|[x [E1 N1]]]; rewrite E1 in H1; simpl in H1;
    [|exfalso; exact (N1 _ H1)].
  destruct (login_cases env fs2 T2 {| project := proj; password := pw2 |})
    as [E2|[x [E2 N2]]]; rewrite E2 in H2; simpl in H2;
    [|exfalso; exact (N2 _ H2)].
  injection H1 as <-. injection H2 as <-. split; reflexivity.
Qed.

Lemma login_token_deterministic_witness :
  token {| token := "token-DEMO" |} = "token-DEMO" /\
  token {| token := "token-DEMO" |} = token {| token := "token-DEMO" |}.
Proof.
  apply (login_token_deterministic Demo.env Demo.fs Demo.fs [] Demo.T
           "DEMO" "secret123" "secret123"); reflexivity.
Defined.

(** C6. When the credential record of a project is absent, verification
    answers false for every secret presented, and every login to the
    project is refused with status 401. *)
Theorem absent_record_fails_closed (env : Env)
    (fs : node) (T : Tokens) (proj pw : str) :
  exists_ (cwd env) fs (joinpath (PROJECTS_DIR env) proj) = true ->
  _has_passwd env fs proj = false ->
  _verify_password env fs proj pw = Ok false /\
  login env fs T {| project := proj; password := pw |} =
    (HTTPException 401 "Password not set for project", T) /\
  status (fst (login env fs T {| project := proj; password := pw |})) = 401.
Proof.
  intros Hdir Hno. unfold _has_passwd in Hno.
  assert (Hv : _verify_password env fs proj pw = Ok false).
  { unfold _verify_password. now rewrite Hno. }
  assert (Hl : login env fs T {| project := proj; password := pw |} =
               (HTTPException 401 "Password not set for project", T)).
  { unfold login, _has_passwd; simpl. now rewrite Hdir, Hno. }
  rewrite Hl. repeat split; assumption.
Qed.

Lemma absent_record_fails_closed_witness :
  _verify_password Demo.env Demo.fs "NOPW" "secret123" = Ok false /\
  login Demo.env Demo.fs [] {| project := "NOPW"; password := "secret123" |} =
    (HTTPException 401 "Password not set for project", []) /\
  status (fst (login Demo.env Demo.fs []
                 {| project := "NOPW"; password := "secret123" |})) = 401.
Proof.
  apply (absent_record_fails_closed Demo.env Demo.fs [] "NOPW" "secret123");
    reflexivity.
Defined.

(** C3, as the code has it. A wrong password for a project with a
    credential record and any password for a project without one are
    both refused with status 401, but with different bodies: "Invalid
    password" for the first, "Password not set for project" for the
    second. *)
Theorem login_failures_differ_in_body (env : Env)
    (fs : node) (T : Tokens) (p1 pw1 p2 pw2 : str) :
  _has_passwd env fs p1 = true ->
  _verify_password env fs p1 pw1 = Ok false ->
  exists_ (cwd env) fs (joinpath (PROJECTS_DIR env) p2) = true ->
  _has_passwd env fs p2 = false ->
  let r1 := fst (login env fs T {| project := p1; password := pw1 |}) in
  let r2 := fst (login env fs T {| project := p2; password := pw2 |}) in
  r1 = HTTPException 401 "Invalid password" /\
  r2 = HTTPException 401 "Password not set for project" /\
  status r1 = status r2 /\ r1 <> r2.
Proof.
  intros H1 V1 D2 H2.
  pose proof (has_passwd_project_exists _ _ _ H1) as D1.
  cbv zeta. unfold login; simpl. rewrite D1, H1, V1, D2, H2. simpl.
  repeat split. discriminate.
Qed.

Lemma login_failures_differ_in_body_witness :
  let r1 := fst (login Demo.env Demo.fs [] {| project := "DEMO"; password := "wrong" |}) in
  let r2 := fst (login Demo.env Demo.fs [] {| project := "NOPW"; password := "wrong" |}) in
  r1 = HTTPException 401 "Invalid password" /\
  r2 = HTTPException 401 "Password not set for project" /\
  status r1 = status r2 /\ r1 <> r2.
Proof.
  apply (login_failures_differ_in_body Demo.env Demo.fs [] "DEMO" "wrong" "NOPW" "wrong");
    reflexivity.
Defined.

(** C3, as stated, fails: in the demo store, a wrong password for [DEMO]
    (which has a record) and a password for [NOPW] (which has none) get
    different answers. *)
Lemma login_failures_not_identical :
  _has_passwd Demo.env Demo.fs "DEMO" = true /\
  _verify_password Demo.env Demo.fs "DEMO" "wrong" = Ok false /\
  _has_passwd Demo.env Demo.fs "NOPW" = false /\
  fst (login Demo.env Demo.fs [] {| project := "DEMO"; password := "wrong" |}) <>
  fst (login Demo.env Demo.fs [] {| project := "NOPW"; password := "wrong" |}).
Proof.
  repeat split; try reflexivity. vm_compute. discriminate.
Qed.

(** C5. For a project with a credential record, a login with the right
    password returns a token and records it; resolving that token gives
    exactly that project, then and after any further logins. *)
Theorem login_token_resolves (env : Env)
    (fs : node) (T : Tokens) (req : LoginRequest)
    (later : list (node * LoginRequest)) :
  reachable env T ->
  correct_password env fs (project req) (password req) ->
  exists tok T',
    login env fs T req = (Ok {| token := tok |}, T') /\
    _project_from_token T' tok = Ok (project req) /\
    _project_from_token (logins env later T') tok = Ok (project req).
Proof.
  intros HT Hpw.
  apply reachable_well_formed in HT.
  destruct (correct_password_verifies _ _ _ _ Hpw) as [Hhas Hver].
  pose proof (has_passwd_project_exists _ _ _ Hhas) as Hdir.
  exists ("token-" ++ project req)%string,
         (Py.dict_set T (project req) ("token-" ++ project req)%string).
  assert (Hwf : well_formed (Py.dict_set T (project req) ("token-" ++ project req)%string))
    by now apply dict_set_well_formed.
  assert (Hin : In (project req)
                  (map fst (Py.dict_set T (project req) ("token-" ++ project req)%string))).
  { apply (in_map fst _ (project req, ("token-" ++ project req)%string)), dict_set_in. }
  repeat split.
  - unfold login. now rewrite Hdir, Hhas, Hver.
  - now apply project_from_token_well_formed.
  - apply project_from_token_well_formed;
      [now apply logins_well_formed | now apply logins_keep_key].
Qed.

Lemma login_token_resolves_witness :
  exists tok T',
    login Demo.env Demo.fs [] {| project := "DEMO"; password := "secret123" |}
      = (Ok {| token := tok |}, T') /\
    _project_from_token T' tok = Ok "DEMO" /\
    _project_from_token
      (logins Demo.env [(Demo.fs, {| project := "DEMO2"; password := "pw2" |})] T') tok
      = Ok "DEMO".
Proof.
  apply (login_token_resolves Demo.env Demo.fs []
           {| project := "DEMO"; password := "secret123" |}
           [(Demo.fs, {| project := "DEMO2"; password := "pw2" |})]).
  - constructor.
  - exists (Demo.b "secret123" ++ [x0a]). split; reflexivity.
Defined.

Lemma is_space_iff (b : byte) :
  Py.is_space b = true <-> In b [x20; x09; x0a; x0b; x0c; x0d].
Proof.
  split.
  - destruct b; intros H; try discriminate H; cbn; tauto.
  - intros [<-|[<-|[<-|[<-|[<-|[<-|[]]]]]]]; reflexivity.
Qed.

Lemma lstrip_bytes_lead (lead rest : bytes) :
  Forall (fun b => In b [x20; x09; x0a; x0b; x0c; x0d]) lead ->
  Py.lstrip_bytes (lead ++ rest) = Py.lstrip_bytes rest.
Proof.
  induction 1 as [|b l Hb _ IH]; [reflexivity|].
  cbn [app Py.lstrip_bytes]. apply is_space_iff in Hb. now rewrite Hb.
Qed.

Lemma lstrip_bytes_stop (b : byte) (rest : bytes) :
  ~ In b [x20; x09; x0a; x0b; x0c; x0d] -> Py.lstrip_bytes (b :: rest) = b :: rest.
Proof.
  intros H. cbn [Py.lstrip_bytes].
  destruct (Py.is_space b) eqn:E; [|reflexivity].
  apply is_space_iff in E. contradiction.
Qed.

(** What [strip] leaves of whitespace, a core that neither begins nor
    ends with whitespace, and whitespace again, is the core. *)
Lemma strip_core (lead core trail : bytes) :
  Forall (fun b => In b [x20; x09; x0a; x0b; x0c; x0d]) lead ->
  Forall (fun b => In b [x20; x09; x0a; x0b; x0c; x0d]) trail ->
  (forall b rest, core = b :: rest -> ~ In b [x20; x09; x0a; x0b; x0c; x0d]) ->
  (forall front b, core = front ++ [b] -> ~ In b [x20; x09; x0a; x0b; x0c; x0d]) ->
  Py.strip (lead ++ core ++ trail) = core.
Proof.
  intros Hl Ht Hfirst Hlast. unfold Py.strip. rewrite (lstrip_bytes_lead lead _ Hl).
  destruct core as [|b core].
  - cbn [app]. rewrite <- (app_nil_r trail), (lstrip_bytes_lead trail [] Ht). reflexivity.
  - cbn [app]. rewrite (lstrip_bytes_stop b _ (Hfirst b core eq_refl)).
    change (b :: core ++ trail) with ((b :: core) ++ trail).
    rewrite rev_app_distr.
    rewrite (lstrip_bytes_lead (rev trail) _) by (apply Forall_rev; exact Ht).
    destruct (exists_last (l := b :: core) ltac:(discriminate)) as [front [z E]].
    rewrite E, rev_app_distr. cbn [rev app].
    rewrite (lstrip_bytes_stop z _ (Hlast front z E)).
    change (z :: rev front) with (rev [z] ++ rev front).
    now rewrite <- rev_app_distr, rev_involutive.
Qed.

(** C10. The stored record is stripped of leading and trailing
    whitespace before it is looked at.  For a record made of any run of
    the six ASCII whitespace bytes, a core that neither begins nor ends
    with one of them, and any run of them again, what is stripped is
    the core, and the core decides between the hash check and the byte
    comparison and is what either compares against.  A plaintext record
    whose core is ["secret123"], such as ["secret123\n"], therefore
    accepts the password ["secret123"] and refuses the password that
    carries the newline itself. *)
Theorem verify_password_strips_record (env : Env)
    (fs : node) (proj plain : str) (lead core trail : bytes) :
  stat (cwd env) fs (_passwd_path env proj) = Some (File (lead ++ core ++ trail)) ->
  Forall (fun b => In b [x20; x09; x0a; x0b; x0c; x0d]) lead ->
  Forall (fun b => In b [x20; x09; x0a; x0b; x0c; x0d]) trail ->
  (forall b rest, core = b :: rest -> ~ In b [x20; x09; x0a; x0b; x0c; x0d]) ->
  (forall front b, core = front ++ [b] -> ~ In b [x20; x09; x0a; x0b; x0c; x0d]) ->
  _verify_password env fs proj plain =
    Ok (if Py.bytes_startswith core (Py.encode "$2")
        then match checkpw env (Py.encode plain) core with
             | Some b => b
             | None => false
             end
        else Py.bytes_eqb (Py.encode plain) core) /\
  (core = Py.encode "secret123" ->
   _verify_password env fs proj "secret123" = Ok true /\
   _verify_password env fs proj ("secret123" ++ newline)%string = Ok false).
Proof.
  intros H Hl Ht Hfirst Hlast.
  pose proof (strip_core lead core trail Hl Ht Hfirst Hlast) as Hs.
  assert (Hv : forall pw,
            _verify_password env fs proj pw =
              Ok (if Py.bytes_startswith core (Py.encode "$2")
                  then match checkpw env (Py.encode pw) core with
                       | Some b => b
                       | None => false
                       end
                  else Py.bytes_eqb (Py.encode pw) core)).
  { intros pw. rewrite (verify_password_record _ _ _ _ _ H). cbv zeta. now rewrite Hs. }
  split; [apply Hv|].
  intros ->. rewrite !Hv. split; reflexivity.
Qed.

Lemma verify_password_strips_record_witness :
  _verify_password Demo.env
    (Dir [("srv", Dir [("projects", Dir [("P", Dir [
       (".passwd", File ([x20; x09; x0a] ++ Demo.b "secret123" ++ [x0b; x0c; x0d; x0a]))])])])])
    "P" "secret123" = Ok true /\
  _verify_password Demo.env
    (Dir [("srv", Dir [("projects", Dir [("P", Dir [
       (".passwd", File ([x20; x09; x0a] ++ Demo.b "secret123" ++ [x0b; x0c; x0d; x0a]))])])])])
    "P" ("secret123" ++ newline)%string = Ok false.
Proof.
  apply (verify_password_strips_record Demo.env
           (Dir [("srv", Dir [("projects", Dir [("P", Dir [
              (".passwd",
               File ([x20; x09; x0a] ++ Demo.b "secret123" ++ [x0b; x0c; x0d; x0a]))])])])])
           "P" "secret123" [x20; x09; x0a] (Demo.b "secret123") [x0b; x0c; x0d; x0a]).
  - reflexivity.
  - repeat constructor; cbn; tauto.
  - repeat constructor; cbn; tauto.
  - intros b rest E. injection E as <- _. cbn. intuition discriminate.
  - intros front b E.
    assert (Hb : last (front ++ [b]) x00 = b) by apply last_last.
    rewrite <- E in Hb. cbn in Hb. subst b. cbn. intuition discriminate.
  - reflexivity.
Defined.

(** ** The manifest *)

Lemma strip_prefix_app (t l : list str) : strip_prefix t (t ++ l) = Some l.
Proof.
  induction t as [|x t IH]; simpl; [reflexivity|].
  now rewrite String.eqb_refl.
Qed.

Lemma anchor_eqb_refl (a : anchor) : anchor_eqb a a = true.
Proof. now destruct a. Qed.

Lemma relative_to_child (p : Path) (l : list str) :
  relative_to {| root := root p; tail := tail p ++ l |} p =
  Some {| root := Relative; tail := l |}.
Proof.
  unfold relative_to; simpl. now rewrite anchor_eqb_refl, strip_prefix_app.
Qed.

(** The lists that hold the same three entries. *)
Lemma Permutation_three {A : Type} (a b c : A) (l : list A) :
  Permutation l [a; b; c] ->
  l = [a; b; c] \/ l = [a; c; b] \/ l = [b; a; c] \/
  l = [b; c; a] \/ l = [c; a; b] \/ l = [c; b; a].
Proof.
  intros H.
  destruct (Permutation_vs_cons_inv H) as [l1 [l2 ->]].
  apply Permutation_sym, Permutation_cons_app_inv, Permutation_length_2_inv in H.
  destruct l1 as [|x [|y [|z l1]]]; simpl in *;
    destruct H as [H|H]; try discriminate;
    inversion H; subst; tauto.
Qed.

(** One file of the directory that is being scanned, when that
    directory is the project directory itself. *)
Lemma scan_file_top (env : Env) (fs : node) (top : Path) (fname : str) es :
  stat (cwd env) fs top = Some (Dir es) ->
  parse fname = {| root := Relative; tail := [fname] |} ->
  fname <> ".." ->
  scan_file env fs top top fname =
    let ext := Py.lstrip "." (Py.lower (suffix fname)) in
    if negb (mem ext exts) then Ok []
    else match assoc fname es with
         | None => Raise FileNotFoundError
         | Some n =>
             Ok [ {| id := stem fname; type := ext; version := 1;
                     path := fname;
                     thumb := if mem ext ["jpg"; "png"] then Some fname else None;
                     bytes_total := st_size n |} ]
         end.
Proof.
  intros Hst Hp Hne. unfold scan_file. cbv zeta.
  destruct (negb (mem _ exts)); [reflexivity|].
  unfold joinpath. rewrite Hp. cbn [root tail].
  rewrite relative_to_child, (stat_child _ _ _ _ _ Hst Hne).
  reflexivity.
Qed.

(** C7. A project directory that holds exactly the regular files
    [a.bgeo], [b.vdb] and [readme.txt], listed in whatever order, gives a
    manifest of exactly two records, one for [a.bgeo] and one for
    [b.vdb]; [readme.txt] is left out. *)
Theorem manifest_three_files (env : Env) (fs : node) (T : Tokens)
    (authorization : option str) (tok proj : str)
    (es : list (str * node)) (da db dr : bytes) :
  _require_bearer authorization = Ok tok ->
  _project_from_token T tok = Ok proj ->
  stat (cwd env) fs (joinpath (PROJECTS_DIR env) proj) = Some (Dir es) ->
  Permutation es [("a.bgeo", File da); ("b.vdb", File db); ("readme.txt", File dr)] ->
  exists assets,
    manifest env fs T authorization = Ok assets /\
    Permutation assets
      [ {| id := "a"; type := "bgeo"; version := 1; path := "a.bgeo";
           thumb := None; bytes_total := length da |};
        {| id := "b"; type := "vdb"; version := 1; path := "b.vdb";
           thumb := None; bytes_total := length db |} ].
Proof.
  intros Hb Ht Hst Hperm.
  assert (Ha : scan_file env fs (joinpath (PROJECTS_DIR env) proj)
                 (joinpath (PROJECTS_DIR env) proj) "a.bgeo" = _)
    by (apply (scan_file_top _ _ _ _ _ Hst); [reflexivity | discriminate]).
  assert (Hv : scan_file env fs (joinpath (PROJECTS_DIR env) proj)
                 (joinpath (PROJECTS_DIR env) proj) "b.vdb" = _)
    by (apply (scan_file_top _ _ _ _ _ Hst); [reflexivity | discriminate]).
  assert (Hr : scan_file env fs (joinpath (PROJECTS_DIR env) proj)
                 (joinpath (PROJECTS_DIR env) proj) "readme.txt" = _)
    by (apply (scan_file_top _ _ _ _ _ Hst); [reflexivity | discriminate]).
  unfold manifest, exists_, walk. rewrite Hb. cbn [bind]. rewrite Ht. cbn [bind]. rewrite Hst.
  cbn [negb].
  apply Permutation_three in Hperm.
  destruct Hperm as [E|[E|[E|[E|[E|E]]]]]; subst es;
    cbn [walk_node filenames dirnames filter map fst snd is_dir negb app scan scan_files];
    rewrite Ha, Hv, Hr; cbv; eexists; (split; [reflexivity|]);
    first [apply Permutation_refl | apply perm_swap].
Qed.

Lemma manifest_three_files_witness :
  exists assets,
    manifest Demo.env Demo.three [("P", "token-P")] (Some "Bearer token-P") = Ok assets /\
    Permutation assets
      [ {| id := "a"; type := "bgeo"; version := 1; path := "a.bgeo";
           thumb := None; bytes_total := 4 |};
        {| id := "b"; type := "vdb"; version := 1; path := "b.vdb";
           thumb := None; bytes_total := 2 |} ].
Proof.
  apply (manifest_three_files Demo.env Demo.three [("P", "token-P")]
           (Some "Bearer token-P") "token-P" "P"
           [("readme.txt", File (Demo.b "r")); ("b.vdb", File (Demo.b "BB"));
            ("a.bgeo", File (Demo.b "AAAA"))]
           (Demo.b "AAAA") (Demo.b "BB") (Demo.b "r")).
  - reflexivity.
  - reflexivity.
  - reflexivity.
  - exact (Permutation_rev
             [("readme.txt", File (Demo.b "r")); ("b.vdb", File (Demo.b "BB"));
              ("a.bgeo", File (Demo.b "AAAA"))]).
Defined.

(** ** Facts about splitting and joining *)

Lemma prefix_nil (s : str) : String.prefix "" s = true.
Proof. now destruct s. Qed.

Lemma prefix_cons (c : ascii) (a s : str) :
  String.prefix (String c a) (String c s) = String.prefix a s.
Proof. simpl. destruct (ascii_dec c c); [reflexivity | contradiction]. Qed.

Lemma prefix_cons_inv (c d : ascii) (a s : str) :
  String.prefix (String c a) (String d s) = true -> c = d /\ String.prefix a s = true.
Proof. simpl. destruct (ascii_dec c d); [auto | discriminate]. Qed.

Lemma prefix_append (x r : str) : String.prefix x (x ++ r)%string = true.
Proof.
  induction x as [|c x IH]; simpl; [apply prefix_nil|].
  destruct (ascii_dec c c); [assumption | contradiction].
Qed.

Lemma prefix_app_same (a s1 s2 : str) :
  String.prefix (a ++ s1)%string (a ++ s2)%string = String.prefix s1 s2.
Proof.
  induction a as [|c a IH]; [reflexivity|].
  cbn [String.append]. now rewrite prefix_cons.
Qed.

Lemma prefix_refl (x : str) : String.prefix x x = true.
Proof. induction x as [|c x IH]; [reflexivity | now rewrite prefix_cons]. Qed.

Lemma contains_prefix (x s : str) : String.prefix x s = true -> Py.contains x s = true.
Proof. intros H. destruct s; simpl in *; rewrite H; reflexivity. Qed.

Lemma contains_cons (x : str) (c : ascii) (s : str) :
  Py.contains x s = true -> Py.contains x (String c s) = true.
Proof. intros H. cbn [Py.contains]. rewrite H. apply orb_true_r. Qed.


Lemma split_not_nil (sep : ascii) (s : str) : Py.split sep s <> [].
Proof.
  destruct s as [|c s]; simpl; [discriminate|].
  destruct (Ascii.eqb c sep); [discriminate|].
  destruct (Py.split sep s); discriminate.
Qed.

(** The first piece of a split begins the string. *)
Lemma split_head_prefix (sep : ascii) (s y : str) ys :
  Py.split sep s = y :: ys -> String.prefix y s = true.
Proof.
  revert y ys; induction s as [|c s IH]; cbn [Py.split]; intros y ys H.
  - injection H as <- <-. reflexivity.
  - destruct (Ascii.eqb c sep).
    + injection H as <- _. reflexivity.
    + destruct (Py.split sep s) as [|x xs] eqn:E.
      * now apply split_not_nil in E.
      * injection H as <- _. rewrite prefix_cons. exact (IH _ _ eq_refl).
Qed.

(** A piece of a split occurs in the string. *)
Lemma split_in_contains (sep : ascii) (s x : str) :
  In x (Py.split sep s) -> Py.contains x s = true.
Proof.
  induction s as [|c s IH]; cbn [Py.split]; intros H.
  - destruct H as [<-|[]]. reflexivity.
  - destruct (Ascii.eqb c sep).
    + destruct H as [<-|H]; [reflexivity|].
      apply contains_cons, IH, H.
    + destruct (Py.split sep s) as [|y ys] eqn:E; [now apply split_not_nil in E|].
      destruct H as [<-|H].
      * apply split_head_prefix in E.
        apply contains_prefix. now rewrite prefix_cons.
      * apply contains_cons, IH. now right.
Qed.

(** No piece of a split holds the separator. *)
Lemma split_no_sep (sep : ascii) (s x : str) :
  In x (Py.split sep s) -> Py.contains (String sep "") x = false.
Proof.
  revert x; induction s as [|c s IH]; simpl; intros x H.
  - destruct H as [<-|[]]. reflexivity.
  - destruct (Ascii.eqb_spec c sep) as [->|Hne].
    + destruct H as [<-|H]; [reflexivity | now apply IH].
    + destruct (Py.split sep s) as [|y ys] eqn:E; [now apply split_not_nil in E|].
      destruct H as [<-|H]; [|apply IH; now right].
      cbn [Py.contains]. rewrite (IH y (or_introl eq_refl)).
      simpl. destruct (ascii_dec sep c); [congruence | reflexivity].
Qed.

Lemma split_plain_piece (sep : ascii) (x : str) :
  Py.contains (String sep "") x = false -> Py.split sep x = [x].
Proof.
  induction x as [|c x IH]; [reflexivity|].
  cbn [Py.contains Py.split]. intros H. apply orb_false_iff in H as [H1 H2].
  simpl in H1. destruct (ascii_dec sep c) as [->|Hne].
  - now rewrite prefix_nil in H1.
  - destruct (Ascii.eqb_spec c sep); [congruence|]. now rewrite (IH H2).
Qed.

Lemma split_append (sep : ascii) (x r : str) :
  Py.contains (String sep "") x = false ->
  Py.split sep (x ++ String sep r)%string = x :: Py.split sep r.
Proof.
  induction x as [|c x IH]; intros H.
  - simpl. now rewrite Ascii.eqb_refl.
  - cbn [Py.contains] in H. apply orb_false_iff in H as [H1 H2].
    simpl in H1. cbn [String.append Py.split].
    destruct (ascii_dec sep c) as [->|Hne]; [now rewrite prefix_nil in H1|].
    destruct (Ascii.eqb_spec c sep); [congruence|]. now rewrite (IH H2).
Qed.

(** Joining plain names and splitting again gives the names back. *)
Lemma split_concat (sep : ascii) (t : list str) :
  t <> [] ->
  Forall (fun x => Py.contains (String sep "") x = false) t ->
  Py.split sep (String.concat (String sep "") t) = t.
Proof.
  induction t as [|x t IH]; [congruence|]. intros _ H.
  inversion H as [|? ? Hx Ht]; subst.
  destruct t as [|y t].
  - simpl. now apply split_plain_piece.
  - cbn [String.concat]. simpl String.append.
    rewrite split_append by assumption.
    f_equal. apply IH; [discriminate | assumption].
Qed.

Lemma filter_all {A : Type} (f : A -> bool) (l : list A) :
  Forall (fun x => f x = true) l -> filter f l = l.
Proof.
  induction 1 as [|x l Hx _ IH]; simpl; [reflexivity|]. now rewrite Hx, IH.
Qed.


(** Joined names begin the same names joined with more. *)
Lemma concat_app_prefix (sep : str) (t l : list str) :
  String.prefix (String.concat sep t) (String.concat sep (t ++ l)) = true.
Proof.
  induction t as [|x t IH]; [apply prefix_nil|].
  destruct t as [|y t].
  - destruct l as [|z l]; cbn [String.concat app];
      [apply prefix_refl | apply prefix_append].
  - change (String.concat sep ((x :: y :: t) ++ l))
      with (x ++ sep ++ String.concat sep ((y :: t) ++ l))%string.
    change (String.concat sep (x :: y :: t))
      with (x ++ sep ++ String.concat sep (y :: t))%string.
    now rewrite !prefix_app_same.
Qed.


Lemma lstrip_startswith (c : ascii) (s : str) :
  Py.startswith (Py.lstrip c s) (String c "") = false.
Proof.
  unfold Py.startswith. induction s as [|d s IH]; [reflexivity|].
  cbn [Py.lstrip]. destruct (Ascii.eqb_spec d c) as [->|Hne]; [assumption|].
  simpl. destruct (ascii_dec c d); [congruence | reflexivity].
Qed.

Lemma lstrip_id (c : ascii) (s : str) :
  Py.startswith s (String c "") = false -> Py.lstrip c s = s.
Proof.
  unfold Py.startswith. destruct s as [|d s]; [reflexivity|].
  simpl. destruct (ascii_dec c d) as [->|Hne].
  - now rewrite prefix_nil.
  - destruct (Ascii.eqb_spec d c); [congruence | reflexivity].
Qed.

Lemma replace_id (a b : ascii) (s : str) :
  Py.contains (String a "") s = false -> Py.replace a b s = s.
Proof.
  induction s as [|c s IH]; [reflexivity|].
  cbn [Py.contains Py.replace]. intros H. apply orb_false_iff in H as [H1 H2].
  simpl in H1. destruct (ascii_dec a c) as [->|Hne]; [now rewrite prefix_nil in H1|].
  destruct (Ascii.eqb_spec c a); [congruence|]. now rewrite (IH H2).
Qed.

(** ** Facts about paths *)

Lemma prefix_cons_ne (c d : ascii) (a s : str) :
  c <> d -> String.prefix (String c a) (String d s) = false.
Proof.
  intros H.
  change (String.prefix (String c a) (String d s))
    with (if ascii_dec c d then String.prefix a s else false).
  destruct (ascii_dec c d); congruence.
Qed.

Lemma normalize_app (acc a b : list str) :
  normalize acc (a ++ b) = normalize (normalize acc a) b.
Proof.
  revert acc; induction a as [|x a IH]; intros acc; simpl; [reflexivity|].
  destruct (String.eqb x ".."); apply IH.
Qed.

Lemma normalize_plain (acc t : list str) :
  ~ In ".." t -> normalize acc t = acc ++ t.
Proof.
  revert acc; induction t as [|x t IH]; intros acc H; simpl.
  - now rewrite app_nil_r.
  - destruct (String.eqb_spec x "..") as [->|_]; [exfalso; apply H; now left|].
    rewrite IH by (intros H'; apply H; now right).
    now rewrite <- app_assoc.
Qed.

Lemma in_removelast {A : Type} (x : A) (l : list A) : In x (removelast l) -> In x l.
Proof.
  induction l as [|y [|z l] IH]; simpl; intros H; [assumption | contradiction|].
  destruct H as [H|H]; [now left | right; now apply IH].
Qed.

Lemma normalize_no_dotdot (acc t : list str) :
  ~ In ".." acc -> ~ In ".." (normalize acc t).
Proof.
  revert acc; induction t as [|x t IH]; intros acc H; simpl; [assumption|].
  destruct (String.eqb_spec x "..") as [->|Hne]; apply IH.
  - intros H'. now apply H, in_removelast.
  - intros H'. apply in_app_or in H' as [H'|[H'|[]]]; [now apply H | congruence].
Qed.

Lemma splitroot_relative (s : str) :
  Py.startswith s "/" = false -> splitroot s = Relative.
Proof.
  unfold Py.startswith. destruct s as [|c s]; [reflexivity|].
  destruct (ascii_dec "/" c) as [<-|Hne].
  - now rewrite prefix_cons, prefix_nil.
  - intros _. destruct c as [[] [] [] [] [] [] [] []]; try reflexivity.
    now contradiction Hne.
Qed.

Lemma joinpath_relative (p : Path) (s : str) :
  Py.startswith s "/" = false ->
  joinpath p s = {| root := root p; tail := tail p ++ tail (parse s) |}.
Proof.
  intros H. unfold joinpath. cbn [parse root].
  now rewrite (splitroot_relative _ H).
Qed.

Lemma joinpath_root (p : Path) (s : str) :
  root p <> Relative -> root (joinpath p s) <> Relative.
Proof.
  intros H. unfold joinpath.
  destruct (root (parse s)) eqn:E; cbn [root]; [assumption | rewrite E; discriminate ..].
Qed.

Lemma resolve_absolute (cwd : list str) (p : Path) :
  root p <> Relative ->
  resolve cwd p = {| root := Root; tail := normalize [] (tail p) |}.
Proof. unfold resolve. destruct (root p); [congruence | reflexivity ..]. Qed.

Lemma resolve_root (cwd : list str) (p : Path) : root (resolve cwd p) <> Relative.
Proof. unfold resolve. destruct (root p); discriminate. Qed.

(** The names of a parsed path are kept ones, without a slash. *)
Lemma parse_tail_kept (s : str) : Forall (fun x => kept x = true) (tail (parse s)).
Proof.
  apply Forall_forall. intros x H. cbn [parse tail] in H.
  now apply filter_In in H.
Qed.

Lemma parse_tail_no_sep (s : str) :
  Forall (fun x => Py.contains "/" x = false) (tail (parse s)).
Proof.
  apply Forall_forall. intros x H. cbn [parse tail] in H.
  apply filter_In in H as [H _]. now apply split_no_sep in H.
Qed.

(** What [str] gives for a relative path does not begin with a slash. *)
Lemma to_str_relative_no_slash (t : list str) :
  Forall (fun x => kept x = true) t ->
  Forall (fun x => Py.contains "/" x = false) t ->
  Py.startswith (to_str {| root := Relative; tail := t |}) "/" = false.
Proof.
  intros Hk Hs. destruct t as [|x t]; [reflexivity|].
  inversion Hk as [|? ? Hx _]; inversion Hs as [|? ? Hx' _]; subst.
  unfold to_str, Py.startswith. cbn [root tail anchor_str].
  destruct x as [|c x]; [discriminate|].
  assert (Hc : c <> "/"%char).
  { intros ->. cbn [Py.contains] in Hx'. rewrite prefix_cons, prefix_nil in Hx'.
    discriminate. }
  destruct t; cbn [String.concat String.append];
    apply prefix_cons_ne; congruence.
Qed.

(** Writing a relative path and reading it again gives the same
    names. *)
Lemma parse_to_str_relative (t : list str) :
  Forall (fun x => kept x = true) t ->
  Forall (fun x => Py.contains "/" x = false) t ->
  parse (to_str {| root := Relative; tail := t |}) = {| root := Relative; tail := t |}.
Proof.
  intros Hk Hs. unfold parse. f_equal.
  - apply splitroot_relative. now apply to_str_relative_no_slash.
  - destruct t as [|x t]; [reflexivity|].
    unfold to_str. cbn [root tail anchor_str].
    change ("" ++ String.concat "/" (x :: t))%string with (String.concat "/" (x :: t)).
    rewrite (split_concat "/") by (discriminate || assumption).
    now apply filter_all.
Qed.

(** An absolute path begins, as a string, with every absolute path of
    which it continues the names. *)
Lemma to_str_below (p : Path) (names : list str) :
  root p <> Relative ->
  Py.startswith (to_str {| root := root p; tail := tail p ++ names |}) (to_str p) = true.
Proof.
  destruct p as [r t]. cbn [root tail]. intros Hr. unfold Py.startswith, to_str.
  destruct r; [congruence | ..]; cbn [root tail anchor_str];
    rewrite prefix_app_same; apply concat_app_prefix.
Qed.

(** The relative path of [upload], read as a path, for a [path] field
    without a backslash that does not begin with a slash: the field
    itself, read as a path. *)
Lemma parse_upload_rel (path : str) :
  Py.contains "\" path = false ->
  Py.startswith path "/" = false ->
  parse (upload_rel path) = parse path.
Proof.
  intros Hb Hs. unfold upload_rel. rewrite (replace_id _ _ _ Hb).
  assert (E : parse path = {| root := Relative; tail := tail (parse path) |}).
  { unfold parse at 1. now rewrite (splitroot_relative _ Hs). }
  rewrite E at 1.
  rewrite lstrip_id
    by (apply to_str_relative_no_slash; [apply parse_tail_kept | apply parse_tail_no_sep]).
  rewrite parse_to_str_relative by (apply parse_tail_kept || apply parse_tail_no_sep).
  now rewrite <- E.
Qed.


(** A relative path in which [..] does not occur has no [..] name. *)
Lemma no_dotdot_names (rel : str) :
  Py.contains ".." rel = false -> ~ In ".." (tail (parse rel)).
Proof.
  intros H Hin. cbn [parse tail] in Hin. apply filter_In in Hin as [Hin _].
  apply split_in_contains in Hin. congruence.
Qed.

(** ** Facts about writing to the store *)

Lemma assoc_put_same (c : str) (m : node) es : assoc c (put c m es) = Some m.
Proof.
  induction es as [|[k n] es IH]; simpl.
  - now rewrite String.eqb_refl.
  - destruct (String.eqb_spec k c) as [->|Hne]; simpl.
    + now rewrite String.eqb_refl.
    + destruct (String.eqb_spec k c); [contradiction | assumption].
Qed.

(** After a rewrite at [p] that went well, [p] holds what [f] gave for
    what was there. *)
Lemma update_ok_lookup (f : option node -> result node) (p : list str) :
  forall n n', update n p f = Ok n' ->
  exists m, f (lookup n p) = Ok m /\ lookup n' p = Some m.
Proof.
  induction p as [|c p IH]; intros n n' H.
  - exists n'. split; [exact H | reflexivity].
  - cbn [update] in H. destruct n as [d|es]; [discriminate|].
    cbn [lookup]. destruct (assoc c es) as [m0|] eqn:E.
    + destruct (update m0 p f) as [m1| |] eqn:U; cbn [bind] in H; try discriminate.
      injection H as <-. rewrite assoc_put_same. now apply IH.
    + destruct p as [|c' p]; [|discriminate].
      destruct (f None) as [m1| |] eqn:F; cbn [bind] in H; try discriminate.
      injection H as <-. rewrite assoc_put_same. now exists m1.
Qed.

(** A rewrite of something that is there goes well when [f] does. *)
Lemma update_present (f : option node -> result node) (p : list str) :
  forall n m m', lookup n p = Some m -> f (Some m) = Ok m' ->
  exists n', update n p f = Ok n' /\ lookup n' p = Some m'.
Proof.
  induction p as [|c p IH]; intros n m m' L F.
  - injection L as <-. exists m'. split; [exact F | reflexivity].
  - cbn [lookup] in L. destruct n as [d|es]; [discriminate|].
    destruct (assoc c es) as [m0|] eqn:E; [|discriminate].
    destruct (IH _ _ _ L F) as [m1 [U L1]].
    exists (Dir (put c m1 es)). cbn [update lookup].
    rewrite E, U, assoc_put_same. split; [reflexivity | assumption].
Qed.

Lemma open_wb_lookup (fs fs' : node) (p : list str) :
  open_wb fs p = Ok fs' -> lookup fs' p = Some (File []).
Proof.
  unfold open_wb. intros H.
  apply update_ok_lookup in H as [m [F L]].
  destruct (lookup fs p) as [[d|es]|]; try discriminate; now injection F as <-.
Qed.

Lemma write_lookup (fs : node) (p : list str) (d buf : bytes) :
  lookup fs p = Some (File d) ->
  exists fs', write fs p buf = Ok fs' /\ lookup fs' p = Some (File (d ++ buf)).
Proof. intros L. unfold write. now apply (update_present _ p fs (File d)). Qed.

(** The copy leaves at [p] what was there followed by what was
    received, whether or not the stream was read to its end; it fails
    exactly when the stream breaks. *)
Lemma copyfileobj_lookup (src : stream) (p : list str) :
  forall fs d, lookup fs p = Some (File d) ->
  exists fs',
    copyfileobj src fs p = (if complete src then Ok tt else Raise OSError, fs') /\
    lookup fs' p = Some (File (d ++ received src)).
Proof.
  induction src as [| |buf rest IH]; intros fs d L; cbn [copyfileobj complete received].
  - exists fs. now rewrite app_nil_r.
  - exists fs. now rewrite app_nil_r.
  - destruct buf as [|b buf]; [exists fs; now rewrite app_nil_r|].
    destruct (write_lookup fs p d (b :: buf) L) as [fs1 [W L1]].
    rewrite W. destruct (IH _ _ L1) as [fs' [C L']].
    exists fs'. split; [assumption|]. now rewrite L', <- app_assoc.
Qed.

(** Path resolution along names without [..] is the plain lookup. *)
Lemma namei_plain (fs : node) (ps : list str) :
  forall cur n, ~ In ".." ps -> lookup fs (cur ++ ps) = Some n ->
  namei fs cur ps = Some (cur ++ ps).
Proof.
  induction ps as [|c ps IH]; intros cur n H L; cbn [namei].
  - now rewrite app_nil_r.
  - assert (Hd : exists es, lookup fs cur = Some (Dir es)).
    { rewrite lookup_app in L. destruct (lookup fs cur) as [[d|es]|]; try discriminate.
      now exists es. }
    destruct Hd as [es ->].
    destruct (String.eqb_spec c "..") as [->|_]; [exfalso; apply H; now left|].
    replace (cur ++ c :: ps) with ((cur ++ [c]) ++ ps) in * by now rewrite <- app_assoc.
    apply (IH _ n); [intros H'; apply H; now right | assumption].
Qed.

Lemma stat_resolved (cwd : list str) (fs : node) (p : Path) (n : node) :
  root p <> Relative -> ~ In ".." (tail p) ->
  lookup fs (tail p) = Some n -> stat cwd fs p = Some n.
Proof.
  intros Hr Hd L. unfold stat, start.
  destruct (root p); [congruence | ..];
    now rewrite (namei_plain fs (tail p) [] n Hd L).
Qed.

(** ** What a write leaves alone *)

Lemma assoc_put_other (a c : str) (m : node) es :
  String.eqb c a = false -> assoc a (put c m es) = assoc a es.
Proof.
  intros H. induction es as [|[k n] es IH]; cbn [put assoc].
  - now rewrite H.
  - destruct (String.eqb_spec k c) as [->|Hne]; cbn [assoc].
    + now rewrite H.
    + now rewrite IH.
Qed.

Lemma update_frame (f : option node -> result node) (p : list str) :
  forall n n' q, update n p f = Ok n' -> apart q p = true ->
  lookup n' q = lookup n q.
Proof.
  induction p as [|c p IH]; intros n n' q U A.
  - destruct q; discriminate.
  - destruct q as [|a q]; [discriminate|].
    cbn [update] in U. destruct n as [d|es]; [discriminate|].
    cbn [apart] in A. cbn [lookup].
    destruct (assoc c es) as [m0|] eqn:E.
    + destruct (update m0 p f) as [m1| |] eqn:U1; cbn [bind] in U; try discriminate.
      injection U as <-. cbn [lookup].
      destruct (String.eqb_spec a c) as [->|Hne].
      * rewrite assoc_put_same, E. now apply (IH m0).
      * rewrite assoc_put_other; [reflexivity | now apply String.eqb_neq; congruence].
    + destruct p as [|c' p]; [|discriminate].
      destruct (f None) as [m1| |]; cbn [bind] in U; try discriminate.
      injection U as <-. cbn [lookup].
      destruct (String.eqb_spec a c) as [->|Hne].
      * destruct q; discriminate.
      * rewrite assoc_put_other; [reflexivity | now apply String.eqb_neq; congruence].
Qed.

Lemma lookup_empty_dir (q : list str) : q <> [] -> lookup (Dir []) q = None.
Proof. destruct q; [congruence | reflexivity]. Qed.

(** Creating the directories of [p] changes nothing at a path that does
    not lead to [p]. *)
Lemma mkdir_p_frame (p : list str) :
  forall n n' q, mkdir_p n p = Ok n' -> leads_to q p = false ->
  lookup n' q = lookup n q.
Proof.
  induction p as [|c p IH]; intros n n' q M A.
  - cbn [mkdir_p] in M. destruct n; [discriminate|]. now injection M as <-.
  - destruct q as [|a q]; [discriminate|].
    cbn [mkdir_p] in M. destruct n as [d|es]; [discriminate|].
    destruct (mkdir_p _ p) as [m1| |] eqn:M1; cbn [bind] in M; try discriminate.
    injection M as <-. cbn [leads_to] in A. cbn [lookup].
    destruct (String.eqb_spec a c) as [->|Hne].
    + rewrite assoc_put_same. rewrite (IH _ _ q M1 A).
      destruct (assoc c es); [reflexivity|].
      apply lookup_empty_dir. intros ->. discriminate.
    + rewrite assoc_put_other; [reflexivity | now apply String.eqb_neq; congruence].
Qed.

Lemma apart_not_leads_to (q p : list str) :
  apart q p = true -> leads_to q (removelast p) = false.
Proof.
  revert p; induction q as [|a q IH]; intros p A; [discriminate|].
  destruct p as [|c p]; [discriminate|].
  cbn [apart] in A. destruct p as [|c' p]; [reflexivity|].
  change (removelast (c :: c' :: p)) with (c :: removelast (c' :: p)).
  cbn [leads_to]. destruct (String.eqb a c); [now apply IH | reflexivity].
Qed.

Lemma copyfileobj_frame (src : stream) (p : list str) :
  forall fs q, apart q p = true ->
  lookup (snd (copyfileobj src fs p)) q = lookup fs q.
Proof.
  induction src as [| |buf rest IH]; intros fs q A; cbn [copyfileobj]; try reflexivity.
  destruct buf as [|b buf]; [reflexivity|].
  destruct (write fs p (b :: buf)) as [fs1| |] eqn:W; try reflexivity.
  rewrite (IH fs1 q A). exact (update_frame _ p fs fs1 q W A).
Qed.

(** The writing part of [upload] changes nothing at a path that parts
    from the destination. *)
Lemma store_file_frame (fs : node) (dest root : Path) (file : stream) (q : list str) :
  apart q (tail dest) = true ->
  lookup (snd (store_file fs dest root file)) q = lookup fs q.
Proof.
  intros A. unfold store_file.
  destruct (mkdir_p fs (tail (parent dest))) as [fs1| |] eqn:M; try reflexivity.
  assert (F1 : lookup fs1 q = lookup fs q)
    by (apply (mkdir_p_frame _ _ _ _ M); now apply apart_not_leads_to).
  destruct (open_wb fs1 (tail dest)) as [fs2| |] eqn:O; try exact F1.
  assert (F2 : lookup fs2 q = lookup fs q)
    by (rewrite <- F1; exact (update_frame _ _ fs1 fs2 q O A)).
  pose proof (copyfileobj_frame file (tail dest) fs2 q A) as F3.
  destruct (copyfileobj file fs2 (tail dest)) as [[u| |] fs3]; cbn [snd] in *;
    try (now rewrite F3).
  destruct (relative_to dest root); cbn [snd]; now rewrite F3.
Qed.

(** ** Upload and download *)

Section Transfer.

Variable env : Env.

Lemma projects_dir_eq :
  PROJECTS_DIR env = {| root := Root; tail := base_dir env ++ ["projects"] |}.
Proof. reflexivity. Qed.

Lemma project_dir_root (proj : str) :
  root (joinpath (PROJECTS_DIR env) proj) <> Relative.
Proof. apply joinpath_root. rewrite projects_dir_eq. discriminate. Qed.

Lemma upload_unfold (fs : node) (T : Tokens) (path : str) (file : stream)
    (authorization : option str) (tok proj : str) :
  _require_bearer authorization = Ok tok ->
  _project_from_token T tok = Ok proj ->
  upload env fs T path file authorization =
    if upload_accepts env proj path
    then store_file fs (upload_dest env proj path) (project_root env proj) file
    else (HTTPException 400 "Invalid path", fs).
Proof.
  intros Hb Ht. unfold upload, upload_accepts. rewrite Hb, Ht.
  fold (upload_dest env proj path). fold (project_root env proj).
  destruct (Py.contains ".." _ || Py.startswith _ "/"); [reflexivity|].
  cbn [negb andb].
  destruct (Py.startswith (to_str (upload_dest _ _ _)) _); reflexivity.
Qed.

Lemma download_unfold (fs : node) (T : Tokens) (path : str)
    (authorization : option str) (tok proj : str) :
  _require_bearer authorization = Ok tok ->
  _project_from_token T tok = Ok proj ->
  download env fs T path authorization =
    if download_accepts env proj path
    then if exists_ (cwd env) fs (download_target env proj path)
         then Ok (FileResponse_ (download_target env proj path))
         else HTTPException 404 "File not found"
    else HTTPException 400 "Invalid path".
Proof.
  intros Hb Ht. unfold download, download_accepts. rewrite Hb. cbn [bind].
  rewrite Ht. cbn [bind].
  fold (download_target env proj path). fold (project_root env proj).
  destruct (Py.startswith _ _); [|reflexivity].
  cbn [negb]. destruct (exists_ _ _ _); reflexivity.
Qed.

(** The destination of an upload whose relative path is free of [..]:
    the names of that path, below the resolved root of the project. *)
Lemma upload_dest_below (proj path : str) :
  Py.contains ".." (upload_rel path) = false ->
  upload_dest env proj path =
    {| root := root (project_root env proj);
       tail := tail (project_root env proj) ++ tail (parse (upload_rel path)) |}.
Proof.
  intros H. unfold upload_dest, project_root.
  rewrite (joinpath_relative _ (upload_rel path)) by apply lstrip_startswith.
  rewrite !resolve_absolute by apply project_dir_root.
  cbn [root tail]. rewrite normalize_app.
  now rewrite (normalize_plain _ _ (no_dotdot_names _ H)).
Qed.

Lemma upload_accepts_no_dotdot (proj path : str) :
  upload_accepts env proj path = true ->
  Py.contains ".." (upload_rel path) = false.
Proof.
  unfold upload_accepts. intros H. apply andb_true_iff in H as [H _].
  apply negb_true_iff, orb_false_iff in H. tauto.
Qed.

Lemma download_target_resolved (proj path : str) :
  root (download_target env proj path) <> Relative /\
  ~ In ".." (tail (download_target env proj path)).
Proof.
  unfold download_target. split; [apply resolve_root|].
  rewrite resolve_absolute by apply joinpath_root, project_dir_root.
  cbn [tail]. apply normalize_no_dotdot. intros [].
Qed.

(** For a [path] field without a backslash that does not begin with a
    slash, [upload] writes where [download] reads. *)
Lemma upload_dest_download_target (proj path : str) :
  Py.contains "\" path = false ->
  Py.startswith path "/" = false ->
  upload_dest env proj path = download_target env proj path.
Proof.
  intros Hb Hs. unfold upload_dest, download_target. f_equal.
  unfold joinpath at 1 3. now rewrite (parse_upload_rel _ Hb Hs).
Qed.

(** The writing part of [upload], once the directories are there and
    the destination is open. *)
Lemma store_file_opened (fs fs1 fs2 : node) (dest root : Path) (file : stream) :
  mkdir_p fs (tail (parent dest)) = Ok fs1 ->
  open_wb fs1 (tail dest) = Ok fs2 ->
  exists fs3,
    lookup fs3 (tail dest) = Some (File (received file)) /\
    store_file fs dest root file =
      (if complete file
       then match relative_to dest root with
            | Some r => Ok {| ok := true; saved := Py.replace "\" "/" (to_str r) |}
            | None => Raise ValueError
            end
       else Raise OSError, fs3).
Proof.
  intros Hm Ho. unfold store_file. rewrite Hm, Ho.
  destruct (copyfileobj_lookup file (tail dest) fs2 [] (open_wb_lookup _ _ _ Ho))
    as [fs3 [C L]].
  exists fs3. split; [exact L|]. rewrite C.
  destruct (complete file); [|reflexivity].
  destruct (relative_to dest root); reflexivity.
Qed.

Lemma store_file_ok (fs fs' : node) (dest root : Path) (file : stream) (ack : UploadAck) :
  store_file fs dest root file = (Ok ack, fs') ->
  complete file = true /\ lookup fs' (tail dest) = Some (File (received file)).
Proof.
  intros H.
  destruct (mkdir_p fs (tail (parent dest))) as [fs1| |] eqn:Hm;
    [|unfold store_file in H; rewrite Hm in H; discriminate ..].
  destruct (open_wb fs1 (tail dest)) as [fs2| |] eqn:Ho;
    [|unfold store_file in H; rewrite Hm, Ho in H; discriminate ..].
  destruct (store_file_opened fs fs1 fs2 dest root file Hm Ho) as [fs3 [L E]].
  rewrite E in H. destruct (complete file); [|discriminate].
  injection H as _ <-. split; [reflexivity | exact L].
Qed.

End Transfer.




(** C4, as the code has it. For a path without a backslash that does
    not begin with a slash, an upload that succeeds is followed by a
    download of the same path, with the same token, that yields exactly
    the bytes uploaded. *)
Theorem upload_download_roundtrip (env : Env) (fs fs' : node) (T : Tokens)
    (path : str) (file : stream) (authorization : option str) (ack : UploadAck) :
  Py.contains "\" path = false ->
  Py.startswith path "/" = false ->
  upload env fs T path file authorization = (Ok ack, fs') ->
  exists resp,
    download env fs' T path authorization = Ok resp /\
    send_file env fs' resp = Ok (received file) /\
    complete file = true.
Proof.
  intros Hbs Hsl H.
  destruct (_require_bearer authorization) as [tok| |] eqn:Hb;
    [|unfold upload in H; rewrite Hb in H; discriminate ..].
  destruct (_project_from_token T tok) as [proj| |] eqn:Ht;
    [|unfold upload in H; rewrite Hb, Ht in H; discriminate ..].
  rewrite (upload_unfold env fs T path file authorization tok proj Hb Ht) in H.
  destruct (upload_accepts env proj path) eqn:Ha; [|discriminate].
  apply store_file_ok in H as [Hc L].
  rewrite (upload_dest_download_target env proj path Hbs Hsl) in L.
  destruct (download_target_resolved env proj path) as [Hr Hd].
  pose proof (stat_resolved (cwd env) fs' _ _ Hr Hd L) as Hst.
  exists (FileResponse_ (download_target env proj path)).
  rewrite (download_unfold env fs' T path authorization tok proj Hb Ht).
  unfold upload_accepts in Ha. apply andb_true_iff in Ha as [_ Ha].
  rewrite (upload_dest_download_target env proj path Hbs Hsl) in Ha.
  unfold download_accepts. rewrite Ha. unfold exists_, send_file. rewrite Hst.
  repeat split. exact Hc.
Qed.

Lemma upload_download_roundtrip_witness :
  exists resp,
    download Demo.env
      (snd (upload Demo.env Demo.fs Demo.T "cpio/sop/box.cpio"
              (Chunk (Demo.b "he") (Chunk (Demo.b "llo") EOF)) Demo.auth))
      Demo.T "cpio/sop/box.cpio" Demo.auth = Ok resp /\
    send_file Demo.env
      (snd (upload Demo.env Demo.fs Demo.T "cpio/sop/box.cpio"
              (Chunk (Demo.b "he") (Chunk (Demo.b "llo") EOF)) Demo.auth)) resp
      = Ok (received (Chunk (Demo.b "he") (Chunk (Demo.b "llo") EOF))) /\
    complete (Chunk (Demo.b "he") (Chunk (Demo.b "llo") EOF)) = true.
Proof.
  refine (upload_download_roundtrip Demo.env Demo.fs _ Demo.T "cpio/sop/box.cpio"
            (Chunk (Demo.b "he") (Chunk (Demo.b "llo") EOF)) Demo.auth
            {| ok := true; saved := "cpio/sop/box.cpio" |} eq_refl eq_refl _).
  vm_compute. reflexivity.
Defined.

(** C4, as stated, fails: the path [sub\x.bgeo] is relative and its
    upload succeeds, stored as [sub/x.bgeo]; the download of the same
    path then answers 404, since only [upload] reads a backslash as a
    separator. *)
Lemma upload_download_backslash :
  fst (upload Demo.env Demo.fs Demo.T "sub\x.bgeo" (Chunk (Demo.b "hi") EOF) Demo.auth)
    = Ok {| ok := true; saved := "sub/x.bgeo" |} /\
  download Demo.env
    (snd (upload Demo.env Demo.fs Demo.T "sub\x.bgeo" (Chunk (Demo.b "hi") EOF) Demo.auth))
    Demo.T "sub\x.bgeo" Demo.auth = HTTPException 404 "File not found".
Proof. vm_compute. split; reflexivity. Qed.




(** The string comparison of [download] lets through a path that leaves
    the project for a neighbour whose name begins with the project's:
    with the token of [DEMO], a file of [DEMO2] is served. *)
Lemma download_reaches_neighbour_project :
  download Demo.env Demo.fs Demo.T "../DEMO2/secret.bgeo" Demo.auth
    = Ok (FileResponse_ {| root := Root; tail := ["srv"; "projects"; "DEMO2"; "secret.bgeo"] |}) /\
  send_file Demo.env Demo.fs
    (FileResponse_ {| root := Root; tail := ["srv"; "projects"; "DEMO2"; "secret.bgeo"] |})
    = Ok (Demo.b "S").
Proof. vm_compute. split; reflexivity. Qed.

(** An accepted path is answered according to existence alone: anything
    that exists at the resolved path, directory or file, is handed to
    the file response. *)
Lemma download_existing (env : Env) (fs : node) (T : Tokens) (path : str)
    (authorization : option str) (tok proj : str) (n : node) :
  _require_bearer authorization = Ok tok ->
  _project_from_token T tok = Ok proj ->
  download_accepts env proj path = true ->
  stat (cwd env) fs (download_target env proj path) = Some n ->
  download env fs T path authorization = Ok (FileResponse_ (download_target env proj path)).
Proof.
  intros Hb Ht Ha Hst.
  rewrite (download_unfold env fs T path authorization tok proj Hb Ht), Ha.
  unfold exists_. now rewrite Hst.
Qed.

(** C8 fails on the code: the path [thumbs] passes the path check and
    names a directory of the demo project; [download] does not answer
    404 but returns a file response for the directory, which cannot be
    sent. *)
Lemma download_directory_not_404 :
  stat (cwd Demo.env) Demo.fs (download_target Demo.env "DEMO" "thumbs")
    = Some (Dir [("shot.jpg", File (Demo.b "jpeg"))]) /\
  download Demo.env Demo.fs Demo.T "thumbs" Demo.auth
    = Ok (FileResponse_ {| root := Root; tail := ["srv"; "projects"; "DEMO"; "thumbs"] |}) /\
  send_file Demo.env Demo.fs
    (FileResponse_ {| root := Root; tail := ["srv"; "projects"; "DEMO"; "thumbs"] |})
    = Raise RuntimeError.
Proof. vm_compute. repeat split. Qed.

(** ** The bearer header and the token dictionary *)

Lemma prefix_split (p s : str) :
  String.prefix p s = true -> exists r, s = (p ++ r)%string.
Proof.
  revert s; induction p as [|c p IH]; intros s H.
  - now exists s.
  - destruct s as [|d s]; [discriminate|].
    apply prefix_cons_inv in H as [-> H].
    destruct (IH _ H) as [r ->]. now exists r.
Qed.

(** What [_require_bearer] makes of a header: the token, exactly when
    the header is ["Bearer "] followed by the token; the 401 "Missing
    token" in every other case.  It never fails in another way. *)
Lemma require_bearer_cases (authorization : option str) :
  (exists t, authorization = Some ("Bearer " ++ t)%string /\
             _require_bearer authorization = Ok t) \/
  ((forall t, authorization <> Some ("Bearer " ++ t)%string) /\
   _require_bearer authorization = HTTPException 401 "Missing token").
Proof.
  destruct authorization as [a|]; [|right; split; [discriminate | reflexivity]].
  unfold _require_bearer.
  destruct (Py.startswith a "Bearer ") eqn:E.
  - left. apply prefix_split in E as [t ->]. exists t. split; reflexivity.
  - right. rewrite orb_true_r. split; [|reflexivity].
    intros t H.
    assert (Ha : a = ("Bearer " ++ t)%string) by congruence.
    unfold Py.startswith in E. rewrite Ha, prefix_append in E. discriminate.
Qed.

(** X1. The server takes from the [Authorization] header exactly the
    token that a client put after ["Bearer "]: the header is accepted,
    with token [t], if and only if it is ["Bearer "] followed by [t]; a
    missing header and every other header get the 401 "Missing
    token". *)
Theorem require_bearer_roundtrip (authorization : option str) (t : str) :
  _require_bearer (Some (Client.authorization t)) = Ok t /\
  (_require_bearer authorization = Ok t <->
   authorization = Some (Client.authorization t)) /\
  ((forall t', authorization <> Some (Client.authorization t')) ->
   _require_bearer authorization = HTTPException 401 "Missing token").
Proof.
  unfold Client.authorization.
  assert (Hok : _require_bearer (Some ("Bearer " ++ t)%string) = Ok t).
  { unfold _require_bearer, Py.startswith. now rewrite prefix_append. }
  assert (Hiff : _require_bearer authorization = Ok t <->
                 authorization = Some ("Bearer " ++ t)%string).
  { split.
    - intros H. destruct (require_bearer_cases authorization) as [[t' [E R]]|[_ R]];
        rewrite R in H; [|discriminate]. injection H as <-. exact E.
    - intros ->. exact Hok. }
  split; [exact Hok|]. split; [exact Hiff|]. intros N.
  destruct (require_bearer_cases authorization) as [[t' [E _]]|[_ R]];
    [exfalso; exact (N t' E) | exact R].
Qed.

Lemma project_from_token_cases (T : Tokens) (tok : str) :
  (exists p, In (p, tok) T /\ _project_from_token T tok = Ok p) \/
  ((forall p, ~ In (p, tok) T) /\
   _project_from_token T tok = HTTPException 401 "Invalid token").
Proof.
  induction T as [|[k v] T IH]; cbn [_project_from_token].
  - right. split; [intros p [] | reflexivity].
  - destruct (String.eqb_spec v tok) as [->|Hne].
    + left. exists k. split; [now left | reflexivity].
    + destruct IH as [[p [Hin R]]|[N R]].
      * left. exists p. split; [now right | exact R].
      * right. split; [|exact R].
        intros p [E|Hin]; [congruence | exact (N p Hin)].
Qed.

Lemma well_formed_key_in (T : Tokens) (p : str) :
  well_formed T -> In p (map fst T) -> In (p, ("token-" ++ p)%string) T.
Proof.
  intros W H. apply in_map_iff in H as [[k v] [<- Hin]].
  cbn [fst]. now rewrite <- (W _ _ Hin).
Qed.

(** X2. In every state of [TOKENS] that logins can produce, a token
    resolves to a project if and only if it is ["token-"] followed by
    the name of that project and the project has logged in; every other
    token gets the 401 "Invalid token". *)
Theorem token_resolution (env : Env) (T : Tokens) (tok p : str) :
  reachable env T ->
  (_project_from_token T tok = Ok p <->
   tok = ("token-" ++ p)%string /\ In p (map fst T)) /\
  ((forall q, tok = ("token-" ++ q)%string -> ~ In q (map fst T)) ->
   _project_from_token T tok = HTTPException 401 "Invalid token").
Proof.
  intros R. apply reachable_well_formed in R. split; [split|].
  - intros H. destruct (project_from_token_cases T tok) as [[q [Hin E]]|[_ E]];
      rewrite E in H; [|discriminate]. injection H as ->.
    split; [exact (R _ _ Hin) | exact (in_map fst _ _ Hin)].
  - intros [-> Hin]. now apply project_from_token_well_formed.
  - intros N. destruct (project_from_token_cases T tok) as [[q [Hin E]]|[_ E]];
      [|exact E].
    exfalso. apply (N q (R _ _ Hin)). exact (in_map fst _ _ Hin).
Qed.

Lemma token_resolution_witness :
  (_project_from_token [("DEMO", "token-DEMO")] "token-DEMO" = Ok "DEMO" <->
   "token-DEMO" = "token-DEMO" /\ In "DEMO" (map fst [("DEMO", "token-DEMO")])) /\
  ((forall q, "token-DEMO" = ("token-" ++ q)%string ->
              ~ In q (map fst [("DEMO", "token-DEMO")])) ->
   _project_from_token [("DEMO", "token-DEMO")] "token-DEMO"
     = HTTPException 401 "Invalid token").
Proof.
  apply (token_resolution Demo.env [("DEMO", "token-DEMO")] "token-DEMO" "DEMO").
  exact (reachable_login Demo.env Demo.fs []
           {| project := "DEMO"; password := "secret123" |} (reachable_start Demo.env)).
Defined.

(** X3. A login, whether it succeeds or fails, ends no session: a token
    that resolves to a project before the login resolves to the same
    project after it; and a login that fails leaves [TOKENS] as it
    was. *)
Theorem login_keeps_sessions (env : Env) (fs : node) (T : Tokens)
    (req : LoginRequest) (tok p : str) :
  reachable env T ->
  (_project_from_token T tok = Ok p ->
   _project_from_token (snd (login env fs T req)) tok = Ok p) /\
  ((forall r, fst (login env fs T req) <> Ok r) ->
   snd (login env fs T req) = T).
Proof.
  intros R. split.
  - intros H. apply reachable_well_formed in R.
    destruct (project_from_token_cases T tok) as [[q [Hin E]]|[_ E]];
      rewrite E in H; [|discriminate]. injection H as ->.
    rewrite (R _ _ Hin). apply project_from_token_well_formed.
    + now apply login_well_formed.
    + apply login_keeps_key. exact (in_map fst _ _ Hin).
  - intros N. destruct (login_cases env fs T req) as [E|[r [E _]]];
      rewrite E in *; [|reflexivity].
    exfalso. exact (N _ eq_refl).
Qed.

Lemma login_keeps_sessions_witness :
  (_project_from_token Demo.T "token-DEMO" = Ok "DEMO" ->
   _project_from_token
     (snd (login Demo.env Demo.fs Demo.T {| project := "DEMO2"; password := "pw2" |}))
     "token-DEMO" = Ok "DEMO") /\
  ((forall r, fst (login Demo.env Demo.fs Demo.T
                     {| project := "DEMO2"; password := "pw2" |}) <> Ok r) ->
   snd (login Demo.env Demo.fs Demo.T {| project := "DEMO2"; password := "pw2" |})
     = Demo.T).
Proof.
  apply (login_keeps_sessions Demo.env Demo.fs Demo.T
           {| project := "DEMO2"; password := "pw2" |} "token-DEMO" "DEMO").
  exact (reachable_login Demo.env Demo.fs []
           {| project := "DEMO"; password := "secret123" |} (reachable_start Demo.env)).
Defined.

(** X4. A request without a header that names a live session is
    answered 401 by the three protected operations, and [upload] leaves
    the store as it was. *)
Theorem unauthenticated_is_401 (env : Env) (fs : node) (T : Tokens)
    (path : str) (file : stream) (authorization : option str) :
  (forall tok proj, _require_bearer authorization = Ok tok ->
                    _project_from_token T tok <> Ok proj) ->
  status (manifest env fs T authorization) = 401 /\
  status (download env fs T path authorization) = 401 /\
  status (fst (upload env fs T path file authorization)) = 401 /\
  snd (upload env fs T path file authorization) = fs.
Proof.
  intros N. unfold manifest, download, upload.
  destruct (require_bearer_cases authorization) as [[t [_ E]]|[_ E]]; rewrite E;
    cbn [bind status fst snd]; [|repeat split].
  destruct (project_from_token_cases T t) as [[p [_ E']]|[_ E']].
  - exfalso. exact (N t p E E').
  - rewrite E'. repeat split.
Qed.

Lemma unauthenticated_is_401_witness :
  status (manifest Demo.env Demo.fs Demo.T (Some "Bearer token-NOPW")) = 401 /\
  status (download Demo.env Demo.fs Demo.T "a.bgeo" (Some "Bearer token-NOPW")) = 401 /\
  status (fst (upload Demo.env Demo.fs Demo.T "a.bgeo" EOF (Some "Bearer token-NOPW"))) = 401 /\
  snd (upload Demo.env Demo.fs Demo.T "a.bgeo" EOF (Some "Bearer token-NOPW")) = Demo.fs.
Proof.
  apply (unauthenticated_is_401 Demo.env Demo.fs Demo.T "a.bgeo" EOF
           (Some "Bearer token-NOPW")).
  intros tok proj E. injection E as <-. vm_compute. discriminate.
Defined.

(** ** More on credentials *)

Lemma verify_password_no_http (env : Env) (fs : node) (proj pw : str) c d :
  _verify_password env fs proj pw <> HTTPException c d.
Proof.
  unfold _verify_password, exists_, read_bytes.
  destruct (stat _ fs _) as [[d'|es]|]; cbn [negb bind]; try discriminate.
  destruct (Py.bytes_startswith _ _); [destruct (checkpw env _ _)|]; discriminate.
Qed.

(** X5. A credential record that is a directory makes the
    verification fail with an exception, not with an answer: when
    [.passwd] is a directory, [_verify_password] raises
    [IsADirectoryError] for every password, and [login] lets the
    exception through, as a failure of the server, with [TOKENS]
    unchanged. *)
Theorem verify_password_raises_on_directory (env : Env) (fs : node)
    (T : Tokens) (proj pw : str) es :
  stat (cwd env) fs (_passwd_path env proj) = Some (Dir es) ->
  _verify_password env fs proj pw = Raise IsADirectoryError /\
  login env fs T {| project := proj; password := pw |} = (Raise IsADirectoryError, T) /\
  status (fst (login env fs T {| project := proj; password := pw |})) = 500.
Proof.
  intros H.
  assert (Hv : _verify_password env fs proj pw = Raise IsADirectoryError).
  { unfold _verify_password, exists_, read_bytes. now rewrite H. }
  assert (Hhas : _has_passwd env fs proj = true)
    by (unfold _has_passwd, exists_; now rewrite H).
  assert (Hl : login env fs T {| project := proj; password := pw |}
               = (Raise IsADirectoryError, T)).
  { unfold login; cbn [project password].
    now rewrite (has_passwd_project_exists env fs proj Hhas), Hhas, Hv. }
  split; [exact Hv|]. split; [exact Hl|]. now rewrite Hl.
Qed.

Lemma verify_password_raises_on_directory_witness :
  _verify_password Demo.env
    (Dir [("srv", Dir [("projects", Dir [("P", Dir [(".passwd", Dir [])])])])])
    "P" "x" = Raise IsADirectoryError /\
  login Demo.env
    (Dir [("srv", Dir [("projects", Dir [("P", Dir [(".passwd", Dir [])])])])])
    [] {| project := "P"; password := "x" |} = (Raise IsADirectoryError, []) /\
  status (fst (login Demo.env
    (Dir [("srv", Dir [("projects", Dir [("P", Dir [(".passwd", Dir [])])])])])
    [] {| project := "P"; password := "x" |})) = 500.
Proof.
  apply (verify_password_raises_on_directory Demo.env
           (Dir [("srv", Dir [("projects", Dir [("P", Dir [(".passwd", Dir [])])])])])
           [] "P" "x" []).
  reflexivity.
Defined.

Lemma lstrip_bytes_spaces (l : bytes) :
  Forall (fun b => Py.is_space b = true) l -> Py.lstrip_bytes l = [].
Proof. induction 1 as [|b l Hb _ IH]; cbn [Py.lstrip_bytes]; [reflexivity | now rewrite Hb]. Qed.

Lemma encode_nil (s : str) : Py.encode s = [] <-> s = "".
Proof.
  unfold Py.encode. split; [|now intros ->].
  intros H. rewrite <- (string_of_list_byte_of_string s), H. reflexivity.
Qed.

(** X6. A credential record that is empty, or holds nothing but
    whitespace, accepts the empty password and no other. *)
Theorem blank_record_accepts_empty_password (env : Env) (fs : node)
    (proj pw : str) (content : bytes) :
  stat (cwd env) fs (_passwd_path env proj) = Some (File content) ->
  Forall (fun b => Py.is_space b = true) content ->
  (_verify_password env fs proj pw = Ok true <-> pw = "").
Proof.
  intros Hst Hsp. rewrite (verify_password_record env fs proj pw content Hst).
  assert (E : Py.strip content = []).
  { unfold Py.strip. now rewrite (lstrip_bytes_spaces _ Hsp). }
  rewrite E. cbn [Py.bytes_startswith Py.encode]. cbv zeta.
  change (Py.bytes_startswith [] (list_byte_of_string "$2")) with false. cbv iota.
  split.
  - intros [= H]. apply bytes_eqb_eq in H. now apply encode_nil.
  - intros ->. reflexivity.
Qed.

Lemma blank_record_accepts_empty_password_witness :
  _verify_password Demo.env
    (Dir [("srv", Dir [("projects", Dir [("B", Dir [(".passwd", File [x0a; x20])])])])])
    "B" "" = Ok true <-> "" = "".
Proof.
  apply (blank_record_accepts_empty_password Demo.env
           (Dir [("srv", Dir [("projects", Dir [("B", Dir [(".passwd", File [x0a; x20])])])])])
           "B" "" [x0a; x20]).
  - reflexivity.
  - repeat constructor.
Defined.

(** ** The project catalogue *)

Lemma assoc_in (k : str) (n : node) es : assoc k es = Some n -> In k (map fst es).
Proof.
  induction es as [|[k' n'] es IH]; cbn [assoc map fst]; [discriminate|].
  destruct (String.eqb_spec k' k) as [->|_]; [now left | right; now apply IH].
Qed.

Lemma path_name_child (p : Path) (k : str) : path_name (child p k) = k.
Proof. unfold path_name, child. cbn [tail]. apply last_last. Qed.

Lemma startswith_dot_not_dotdot (k : str) : Py.startswith k "." = false -> k <> "..".
Proof. intros H ->. discriminate. Qed.

Section CatalogueFacts.

Variable env : Env.

Lemma stat_child_path (fs : node) (p : Path) (k : str) es :
  stat (cwd env) fs p = Some (Dir es) -> k <> ".." ->
  stat (cwd env) fs (child p k) = assoc k es.
Proof. intros H Hk. exact (stat_child (cwd env) fs p k es H Hk). Qed.

(** What [list_projects] answers when the projects directory is a
    directory: the names, in the order of the directory, of the entries
    that pass the test. *)
Lemma list_projects_dir (fs : node) es :
  stat (cwd env) fs (PROJECTS_DIR env) = Some (Dir es) ->
  list_projects env fs =
    Ok (map path_name
          (filter (listed env fs) (map (fun e => child (PROJECTS_DIR env) (fst e)) es))).
Proof.
  intros H. unfold list_projects, exists_, iterdir. now rewrite H.
Qed.

Lemma listed_child (fs : node) (k : str) es :
  stat (cwd env) fs (PROJECTS_DIR env) = Some (Dir es) ->
  listed env fs (child (PROJECTS_DIR env) k) = true <->
  (exists sub, assoc k es = Some (Dir sub)) /\
  Py.startswith k "." = false /\ mem k ["Script"; "Scripts"] = false.
Proof.
  intros H. unfold listed, path_is_dir. rewrite path_name_child.
  destruct (Py.startswith k ".") eqn:Hd.
  - rewrite andb_false_r. cbn [andb]. split; [discriminate | intros [_ [? _]]; discriminate].
  - rewrite (stat_child_path fs _ k es H (startswith_dot_not_dotdot _ Hd)).
    destruct (mem k ["Script"; "Scripts"]).
    + rewrite andb_false_r. split; [discriminate | intros [_ [_ ?]]; discriminate].
    + cbn [negb]. rewrite !andb_true_r.
      destruct (assoc k es) as [[d|sub]|]; split; try discriminate;
        try (intros [[? ?] _]; discriminate).
      * intros _. split; [now exists sub | split; reflexivity].
      * reflexivity.
Qed.

End CatalogueFacts.

(** X7. [GET /projects] answers the empty list when the projects
    directory does not exist and fails with [NotADirectoryError] when it
    is a regular file.  When it is a directory, a name is listed if and
    only if it names a sub-directory there, does not begin with a dot
    and is neither [Script] nor [Scripts]. *)
Theorem list_projects_lists (env : Env) (fs : node) :
  (stat (cwd env) fs (PROJECTS_DIR env) = None -> list_projects env fs = Ok []) /\
  (forall d, stat (cwd env) fs (PROJECTS_DIR env) = Some (File d) ->
             list_projects env fs = Raise NotADirectoryError) /\
  (forall es, stat (cwd env) fs (PROJECTS_DIR env) = Some (Dir es) ->
     exists names,
       list_projects env fs = Ok names /\
       forall k, In k names <->
         (exists sub, assoc k es = Some (Dir sub)) /\
         Py.startswith k "." = false /\ k <> "Script" /\ k <> "Scripts").
Proof.
  split; [|split].
  - intros H. unfold list_projects, exists_. now rewrite H.
  - intros d H. unfold list_projects, exists_, iterdir. now rewrite H.
  - intros es H. eexists. split; [exact (list_projects_dir env fs es H)|].
    intros k. rewrite in_map_iff.
    assert (Hmem : mem k ["Script"; "Scripts"] = false <-> k <> "Script" /\ k <> "Scripts").
    { unfold mem. cbn [existsb]. rewrite orb_false_r, orb_false_iff, !String.eqb_neq. tauto. }
    split.
    + intros [p [Hn Hp]]. apply filter_In in Hp as [Hp Hl].
      apply in_map_iff in Hp as [[k' n'] [<- _]]. cbn [fst] in *.
      rewrite path_name_child in Hn. subst k'.
      apply (listed_child env fs k es H) in Hl. tauto.
    + intros [[sub Ha] [Hd Hr]].
      exists (child (PROJECTS_DIR env) k). split; [apply path_name_child|].
      apply filter_In. split.
      * apply in_map_iff. apply assoc_in in Ha. apply in_map_iff in Ha as [e [<- He]].
        now exists e.
      * apply (listed_child env fs k es H). split; [now exists sub | tauto].
Qed.

Lemma login_404 (env : Env) (fs : node) (T : Tokens) (req : LoginRequest) :
  status (fst (login env fs T req)) = 404 <->
  exists_ (cwd env) fs (joinpath (PROJECTS_DIR env) (project req)) = false.
Proof.
  unfold login. destruct (exists_ _ fs (joinpath _ _)); cbn [negb].
  - destruct (negb (_has_passwd _ _ _)); cbn [fst status]; [split; discriminate|].
    destruct (_verify_password _ _ _ _) as [[|]|c d|] eqn:V; cbn [fst status]; split;
      try discriminate; intros _;
      exact (False_ind _ (verify_password_no_http env fs _ _ c d V)).
  - cbn [fst status]. split; reflexivity.
Qed.

Lemma contains_sep_head (c : ascii) (s : str) :
  Py.contains (String c "") (String c s) = true.
Proof. apply contains_prefix. now rewrite prefix_cons, prefix_nil. Qed.

(** A name without a slash, read as a path, is that one name, or
    nothing when it is empty or a single dot. *)
Lemma parse_plain (k : str) :
  Py.contains "/" k = false ->
  parse k = {| root := Relative; tail := if kept k then [k] else [] |}.
Proof.
  intros H. unfold parse. rewrite (split_plain_piece "/" k H). cbn [filter].
  f_equal.
  apply splitroot_relative. unfold Py.startswith.
  destruct k as [|c k]; [reflexivity|].
  destruct (ascii_dec "/" c) as [<-|Hne]; [|now apply prefix_cons_ne].
  now rewrite contains_sep_head in H.
Qed.

(** X8. A name that [GET /projects] lists can be logged into without
    the 404 "Project not found": for a listed name without a slash, the
    login is answered with another status, whatever the password. *)
Theorem listed_project_is_found (env : Env) (fs : node) (T : Tokens)
    (names : list str) (k pw : str) :
  list_projects env fs = Ok names ->
  In k names ->
  Py.contains "/" k = false ->
  status (fst (login env fs T {| project := k; password := pw |})) <> 404.
Proof.
  intros HL Hin Hk N. apply login_404 in N. cbn [project] in N.
  destruct (stat (cwd env) fs (PROJECTS_DIR env)) as [[d|es]|] eqn:Hst.
  - unfold list_projects, exists_, iterdir in HL. rewrite Hst in HL. discriminate.
  - rewrite (list_projects_dir env fs es Hst) in HL. injection HL as <-.
    apply in_map_iff in Hin as [p [Hn Hp]]. apply filter_In in Hp as [Hp Hl].
    apply in_map_iff in Hp as [[k' n'] [<- _]]. cbn [fst] in *.
    rewrite path_name_child in Hn. subst k'.
    apply (listed_child env fs k es Hst) in Hl as [[sub Ha] [Hd _]].
    unfold joinpath in N. rewrite (parse_plain k Hk) in N. cbn [root tail] in N.
    unfold exists_ in N. destruct (kept k).
    + change {| root := root (PROJECTS_DIR env); tail := tail (PROJECTS_DIR env) ++ [k] |}
        with (child (PROJECTS_DIR env) k) in N.
      rewrite (stat_child_path env fs _ k es Hst (startswith_dot_not_dotdot _ Hd)), Ha in N.
      discriminate.
    + rewrite app_nil_r in N. rewrite projects_dir_eq in Hst, N. cbn [root tail] in N.
      rewrite Hst in N. discriminate.
  - unfold list_projects, exists_ in HL. rewrite Hst in HL. injection HL as <-.
    contradiction.
Qed.

Lemma listed_project_is_found_witness :
  status (fst (login Demo.env Demo.fs [] {| project := "NOPW"; password := "x" |})) <> 404.
Proof.
  apply (listed_project_is_found Demo.env Demo.fs [] ["DEMO"; "DEMO2"; "NOPW"] "NOPW" "x").
  - reflexivity.
  - right; right; left; reflexivity.
  - reflexivity.
Defined.

(** X9. The filter that the clients apply to the list of projects
    removes nothing from what the server lists, as long as no entry of
    the projects directory has the empty name: the server has applied
    the same tests. *)
Theorem client_filter_keeps_server_list (env : Env) (fs : node) (names : list str) :
  list_projects env fs = Ok names ->
  ~ In "" names ->
  Client.list_projects names = names.
Proof.
  intros HL Hne. unfold Client.list_projects. apply filter_all.
  apply Forall_forall. intros k Hin.
  assert (Hk : String.eqb k "" = false)
    by (apply String.eqb_neq; intros ->; contradiction).
  rewrite Hk. cbn [negb andb].
  destruct (stat (cwd env) fs (PROJECTS_DIR env)) as [[d|es]|] eqn:Hst.
  - unfold list_projects, exists_, iterdir in HL. rewrite Hst in HL. discriminate.
  - rewrite (list_projects_dir env fs es Hst) in HL. injection HL as <-.
    apply in_map_iff in Hin as [p [Hn Hp]]. apply filter_In in Hp as [Hp Hl].
    apply in_map_iff in Hp as [[k' n'] [<- _]]. cbn [fst] in *.
    rewrite path_name_child in Hn. subst k'.
    apply (listed_child env fs k es Hst) in Hl as [_ [-> ->]]. reflexivity.
  - unfold list_projects, exists_ in HL. rewrite Hst in HL. injection HL as <-.
    contradiction.
Qed.

Lemma client_filter_keeps_server_list_witness :
  Client.list_projects ["DEMO"; "DEMO2"; "NOPW"] = ["DEMO"; "DEMO2"; "NOPW"].
Proof.
  apply (client_filter_keeps_server_list Demo.env Demo.fs ["DEMO"; "DEMO2"; "NOPW"]).
  - reflexivity.
  - intros [H|[H|[H|[]]]]; discriminate.
Defined.

(** ** More on the manifest *)

Section ManifestFacts.

Variable env : Env.

Lemma scan_file_record_ok (fs : node) (pd root : Path) (fname : str) (l : list Asset) :
  scan_file env fs pd root fname = Ok l -> Forall record_ok l.
Proof.
  unfold scan_file. cbv zeta.
  destruct (mem (Py.lstrip "." (Py.lower (suffix fname))) exts) eqn:E; cbn [negb].
  - destruct (relative_to _ _); [|discriminate].
    destruct (stat _ fs _); [|discriminate].
    intros [= <-]. constructor; [|constructor].
    unfold record_ok. cbn [type version thumb path]. now rewrite E.
  - intros [= <-]. constructor.
Qed.

Lemma scan_files_record_ok (fs : node) (pd root : Path) (files : list str) :
  forall l, scan_files env fs pd root files = Ok l -> Forall record_ok l.
Proof.
  induction files as [|f files IH]; cbn [scan_files]; intros l H.
  - injection H as <-. constructor.
  - destruct (scan_file env fs pd root f) as [a| |] eqn:A; cbn [bind] in H; try discriminate.
    destruct (scan_files env fs pd root files) as [r| |]; cbn [bind] in H; try discriminate.
    injection H as <-. apply Forall_app. split;
      [exact (scan_file_record_ok _ _ _ _ _ A) | now apply IH].
Qed.

Lemma scan_record_ok (fs : node) (pd : Path) triples :
  forall l, scan env fs pd triples = Ok l -> Forall record_ok l.
Proof.
  induction triples as [|[[r ds] fl] triples IH]; cbn [scan]; intros l H.
  - injection H as <-. constructor.
  - destruct (scan_files env fs pd r fl) as [a| |] eqn:A; cbn [bind] in H; try discriminate.
    destruct (scan env fs pd triples) as [x| |]; cbn [bind] in H; try discriminate.
    injection H as <-. apply Forall_app. split;
      [exact (scan_files_record_ok _ _ _ _ _ A) | now apply IH].
Qed.

Lemma scan_app (fs : node) (pd : Path) (t1 t2 : list (Path * list str * list str)) :
  scan env fs pd (t1 ++ t2) =
    a <- scan env fs pd t1 ;; b <- scan env fs pd t2 ;; Ok (a ++ b).
Proof.
  induction t1 as [|[[r ds] fl] t1 IH]; cbn [scan app bind].
  - destruct (scan env fs pd t2); reflexivity.
  - destruct (scan_files env fs pd r fl) as [a| |]; cbn [bind]; try reflexivity.
    rewrite IH. destruct (scan env fs pd t1) as [x| |]; cbn [bind]; try reflexivity.
    destruct (scan env fs pd t2) as [y| |]; cbn [bind]; try reflexivity.
    now rewrite app_assoc.
Qed.

End ManifestFacts.

(** X10. Every record of every manifest has one of the six recognised
    types, the version 1, and a thumbnail field that is the record's
    own path when the type is [jpg] or [png] and is absent otherwise. *)
Theorem manifest_records_ok (env : Env) (fs : node) (T : Tokens)
    (authorization : option str) (assets : list Asset) (a : Asset) :
  manifest env fs T authorization = Ok assets ->
  In a assets ->
  In (type a) ["bgeo"; "abc"; "vdb"; "cpio"; "jpg"; "png"] /\
  version a = 1 /\
  (type a = "jpg" \/ type a = "png" -> thumb a = Some (path a)) /\
  (type a <> "jpg" -> type a <> "png" -> thumb a = None).
Proof.
  intros H Hin. unfold manifest in H.
  destruct (_require_bearer authorization) as [tok| |]; cbn [bind] in H; try discriminate.
  destruct (_project_from_token T tok) as [proj| |]; cbn [bind] in H; try discriminate.
  destruct (negb (exists_ _ _ _)); [discriminate|].
  apply scan_record_ok in H. rewrite Forall_forall in H.
  destruct (H a Hin) as [Ht [Hv Hth]].
  assert (Hexts : In (type a) ["bgeo"; "abc"; "vdb"; "cpio"; "jpg"; "png"]).
  { unfold mem, exts in Ht. apply existsb_exists in Ht as [x [Hx E]].
    apply String.eqb_eq in E. now subst. }
  split; [exact Hexts|]. split; [exact Hv|]. split.
  - intros [E|E]; rewrite E in Hth; exact Hth.
  - intros N1 N2. rewrite Hth. unfold mem. cbn [existsb].
    apply String.eqb_neq in N1, N2. now rewrite N1, N2.
Qed.

Lemma manifest_records_ok_witness :
  In "jpg" ["bgeo"; "abc"; "vdb"; "cpio"; "jpg"; "png"] /\
  1 = 1 /\
  ("jpg" = "jpg" \/ "jpg" = "png" -> Some "thumbs/shot.jpg" = Some "thumbs/shot.jpg") /\
  ("jpg" <> "jpg" -> "jpg" <> "png" -> Some "thumbs/shot.jpg" = None).
Proof.
  refine (manifest_records_ok Demo.env Demo.fs Demo.T Demo.auth _
            {| id := "shot"; type := "jpg"; version := 1; path := "thumbs/shot.jpg";
               thumb := Some "thumbs/shot.jpg"; bytes_total := 4 |} eq_refl _).
  vm_compute. tauto.
Defined.

(** ** Well-formed stores *)

(** Induction on the tree of a store. *)
Lemma node_induction (P : node -> Prop) :
  (forall d, P (File d)) ->
  (forall es, Forall (fun e => P (snd e)) es -> P (Dir es)) ->
  forall n, P n.
Proof.
  intros HF HD. fix IH 1. intros [d|es]; [apply HF|].
  apply HD. induction es as [|[k m] es IHes]; constructor; [apply IH | exact IHes].
Qed.

Lemma wf_dir (es : list (str * node)) :
  wf (Dir es) = true ->
  distinct (map fst es) = true /\
  forall k m, In (k, m) es -> valid_name k = true /\ wf m = true.
Proof.
  cbn [wf]. intros H. apply andb_true_iff in H as [Hd Ha]. split; [exact Hd|].
  clear Hd. induction es as [|[k' m'] es IH]; intros k m Hin; [contradiction|].
  apply andb_true_iff in Ha as [Ha Hall]. apply andb_true_iff in Ha as [Hv Hw].
  destruct Hin as [[= <- <-]|Hin]; [now split | now apply IH].
Qed.

Lemma mem_in (x : str) (l : list str) : mem x l = true <-> In x l.
Proof.
  unfold mem. rewrite existsb_exists. split.
  - intros [y [Hy E]]. apply String.eqb_eq in E. now subst.
  - intros H. exists x. split; [exact H | apply String.eqb_refl].
Qed.

Lemma assoc_distinct (k : str) (m : node) es :
  distinct (map fst es) = true -> In (k, m) es -> assoc k es = Some m.
Proof.
  induction es as [|[k' m'] es IH]; cbn [distinct map fst assoc]; intros Hd Hin;
    [contradiction|].
  apply andb_true_iff in Hd as [Hn Hd].
  destruct Hin as [[= -> ->]|Hin]; [now rewrite String.eqb_refl|].
  destruct (String.eqb_spec k' k) as [->|_]; [|now apply IH].
  apply negb_true_iff in Hn. exfalso.
  assert (mem k (map fst es) = true)
    by (apply mem_in, in_map_iff; now exists (k, m)).
  congruence.
Qed.

Lemma valid_name_parts (k : str) :
  valid_name k = true ->
  kept k = true /\ k <> ".." /\ Py.contains "/" k = false.
Proof.
  unfold valid_name, kept. intros H.
  apply andb_true_iff in H as [H H4]. apply andb_true_iff in H as [H H3].
  apply andb_true_iff in H as [H1 H2].
  apply negb_true_iff in H3, H4. rewrite H1, H2.
  split; [reflexivity|]. split; [now apply String.eqb_neq | exact H4].
Qed.

Lemma joinpath_valid (p : Path) (k : str) :
  valid_name k = true -> joinpath p k = extend p [k].
Proof.
  intros H. apply valid_name_parts in H as [Hk [_ Hs]].
  unfold joinpath. rewrite (parse_plain k Hs), Hk. reflexivity.
Qed.

Lemma extend_extend (p : Path) (a b : list str) :
  extend (extend p a) b = extend p (a ++ b).
Proof. unfold extend. cbn [root tail]. now rewrite app_assoc. Qed.

Lemma valid_names_no_dotdot (l : list str) :
  Forall (fun k => valid_name k = true) l -> ~ In ".." l.
Proof.
  intros H Hin. rewrite Forall_forall in H. now specialize (H _ Hin).
Qed.

(** Where the operating system arrives along a path is where the
    lexical normalisation says. *)
Lemma namei_normalize (fs : node) (ps : list str) :
  forall cur q, namei fs cur ps = Some q -> q = normalize cur ps.
Proof.
  induction ps as [|c ps IH]; intros cur q H; cbn [namei normalize] in *.
  - now injection H.
  - destruct (lookup fs cur) as [[d|es]|]; try discriminate.
    destruct (String.eqb c ".."); now apply IH.
Qed.

Lemma filenames_in (f : str) es :
  In f (filenames es) -> exists d, In (f, File d) es.
Proof.
  unfold filenames. intros H. apply in_map_iff in H as [[k m] [<- H]].
  apply filter_In in H as [H Hd]. destruct m as [d|sub]; [|discriminate].
  now exists d.
Qed.

Lemma walk_node_dir (top : Path) es :
  walk_node top (Dir es) = (top, dirnames es, filenames es) :: walk_below top es.
Proof.
  cbn [walk_node]. f_equal. unfold walk_below.
  induction es as [|[k m] es IH]; [reflexivity|].
  cbn [flat_map fst snd]. now rewrite <- IH.
Qed.

Lemma to_str_relative_concat (l : list str) :
  l <> [] -> to_str {| root := Relative; tail := l |} = String.concat "/" l.
Proof. destruct l; [congruence | reflexivity]. Qed.

Section ManifestDownload.

Variable env : Env.
Variable fs : node.
Variable pd : Path.

Lemma scan_file_here (sub : list str) es (fname : str) (d : bytes) :
  stat (cwd env) fs (extend pd sub) = Some (Dir es) ->
  wf (Dir es) = true ->
  In (fname, File d) es ->
  exists l, scan_file env fs pd (extend pd sub) fname = Ok l /\
            Forall (describes sub (Dir es)) l.
Proof.
  intros Hst Hwf Hin. destruct (wf_dir es Hwf) as [Hd Hall].
  destruct (Hall _ _ Hin) as [Hv _].
  pose proof (assoc_distinct fname (File d) es Hd Hin) as Ha.
  destruct (valid_name_parts _ Hv) as [_ [Hdd _]].
  unfold scan_file. cbv zeta.
  destruct (negb (mem _ exts)); [exists []; split; [reflexivity | constructor]|].
  rewrite (joinpath_valid _ _ Hv), extend_extend.
  unfold extend at 1. rewrite relative_to_child.
  change {| root := root pd; tail := tail pd ++ sub ++ [fname] |}
    with (extend pd (sub ++ [fname])).
  rewrite <- extend_extend.
  change (extend (extend pd sub) [fname])
    with {| root := root (extend pd sub); tail := tail (extend pd sub) ++ [fname] |}.
  rewrite (stat_child (cwd env) fs (extend pd sub) fname es Hst Hdd), Ha.
  eexists. split; [reflexivity|]. constructor; [|constructor].
  exists [fname], d. cbn [path bytes_total st_size id type last].
  repeat split.
  - discriminate.
  - constructor; [exact Hv | constructor].
  - apply to_str_relative_concat. now destruct sub.
  - cbn [lookup]. now rewrite Ha.
Qed.

Lemma scan_files_here (sub : list str) es :
  stat (cwd env) fs (extend pd sub) = Some (Dir es) ->
  wf (Dir es) = true ->
  forall files, (forall f, In f files -> exists d, In (f, File d) es) ->
  exists l, scan_files env fs pd (extend pd sub) files = Ok l /\
            Forall (describes sub (Dir es)) l.
Proof.
  intros Hst Hwf. induction files as [|f files IH]; intros Hf; cbn [scan_files].
  - exists []. split; [reflexivity | constructor].
  - destruct (Hf f (or_introl eq_refl)) as [d Hin].
    destruct (scan_file_here sub es f d Hst Hwf Hin) as [a [Ea Da]].
    destruct (IH (fun g Hg => Hf g (or_intror Hg))) as [r [Er Dr]].
    rewrite Ea, Er. cbn [bind]. eexists. split; [reflexivity|].
    apply Forall_app. now split.
Qed.

Lemma describes_below (sub : list str) es (k : str) (m : node) (a : Asset) :
  assoc k es = Some m -> valid_name k = true ->
  describes (sub ++ [k]) m a -> describes sub (Dir es) a.
Proof.
  intros Ha Hv [rest [d [Hne [Hval [Hp [Hl [Hb [Hi Hty]]]]]]]].
  assert (Hlast : last (k :: rest) "" = last rest "") by (now destruct rest).
  exists (k :: rest), d. rewrite Hlast. repeat split.
  - discriminate.
  - now constructor.
  - now rewrite Hp, <- app_assoc.
  - cbn [lookup]. now rewrite Ha.
  - exact Hb.
  - exact Hi.
  - exact Hty.
Qed.

(** The scan of a well-formed tree does not fail, and each of its
    records describes a regular file of the tree. *)
Lemma scan_walk (n : node) :
  wf n = true ->
  forall sub, Forall (fun k => valid_name k = true) sub ->
  stat (cwd env) fs (extend pd sub) = Some n ->
  exists l, scan env fs pd (walk_node (extend pd sub) n) = Ok l /\
            Forall (describes sub n) l.
Proof.
  induction n as [d|es IHes] using node_induction; intros Hwf sub Hsub Hst.
  - exists []. split; [reflexivity | constructor].
  - rewrite walk_node_dir. cbn [scan].
    destruct (scan_files_here sub es Hst Hwf (filenames es) (fun f => filenames_in f es))
      as [a [Ea Da]].
    rewrite Ea. cbn [bind].
    destruct (wf_dir es Hwf) as [Hd Hall].
    assert (Hbelow : forall l, incl l es ->
              exists r, scan env fs pd (walk_below (extend pd sub) l) = Ok r /\
                        Forall (describes sub (Dir es)) r).
    { induction l as [|[k m] l IHl]; intros Hincl.
      - exists []. split; [reflexivity | constructor].
      - assert (Hin : In (k, m) es) by (apply Hincl; now left).
        destruct (Hall _ _ Hin) as [Hv Hwm].
        pose proof (assoc_distinct k m es Hd Hin) as Ha.
        destruct (valid_name_parts _ Hv) as [_ [Hdd _]].
        rewrite Forall_forall in IHes.
        assert (Hstm : stat (cwd env) fs (extend pd (sub ++ [k])) = Some m).
        { rewrite <- extend_extend.
          change (extend (extend pd sub) [k])
            with {| root := root (extend pd sub); tail := tail (extend pd sub) ++ [k] |}.
          now rewrite (stat_child (cwd env) fs (extend pd sub) k es Hst Hdd). }
        pose proof (IHes (k, m) Hin) as IHm. cbn [snd] in IHm.
        destruct (IHm Hwm (sub ++ [k])
                    (proj2 (Forall_app _ _ _) (conj Hsub (Forall_cons _ Hv (Forall_nil _))))
                    Hstm) as [x [Ex Dx]].
        destruct (IHl (fun e He => Hincl e (or_intror He))) as [r [Er Dr]].
        unfold walk_below. cbn [flat_map fst snd]. fold (walk_below (extend pd sub) l).
        rewrite scan_app, (joinpath_valid _ _ Hv), extend_extend, Ex, Er. cbn [bind].
        eexists. split; [reflexivity|]. apply Forall_app. split; [|exact Dr].
        apply Forall_forall. intros b Hb. rewrite Forall_forall in Dx.
        exact (describes_below sub es k m b Ha Hv (Dx b Hb)). }
    destruct (Hbelow es (incl_refl es)) as [r [Er Dr]].
    rewrite Er. cbn [bind]. eexists. split; [reflexivity|].
    apply Forall_app. now split.
Qed.

End ManifestDownload.

Lemma valid_names_kept (l : list str) :
  Forall (fun k => valid_name k = true) l ->
  Forall (fun x => kept x = true) l /\ Forall (fun x => Py.contains "/" x = false) l.
Proof.
  intros H. split; eapply Forall_impl; try exact H; intros k Hk;
    apply valid_name_parts in Hk; tauto.
Qed.

(** The download of a path made of valid names that lead to a regular
    file below the project directory. *)
Lemma download_below_project (env : Env) (fs : node) (T : Tokens)
    (authorization : option str) (tok proj : str) (pn : node)
    (rest : list str) (d : bytes) :
  _require_bearer authorization = Ok tok ->
  _project_from_token T tok = Ok proj ->
  stat (cwd env) fs (joinpath (PROJECTS_DIR env) proj) = Some pn ->
  rest <> [] ->
  Forall (fun k => valid_name k = true) rest ->
  lookup pn rest = Some (File d) ->
  exists resp,
    download env fs T (String.concat "/" rest) authorization = Ok resp /\
    send_file env fs resp = Ok d.
Proof.
  intros Hb Ht Hst Hne Hval Hl.
  destruct (valid_names_kept rest Hval) as [Hk Hs].
  pose proof (project_dir_root env proj) as Hroot.
  set (pd := joinpath (PROJECTS_DIR env) proj) in *.
  assert (Hparse : parse (String.concat "/" rest) = {| root := Relative; tail := rest |}).
  { rewrite <- (to_str_relative_concat rest Hne). now apply parse_to_str_relative. }
  assert (Htarget : download_target env proj (String.concat "/" rest) =
                    {| root := root (project_root env proj);
                       tail := tail (project_root env proj) ++ rest |}).
  { unfold download_target, project_root. fold pd.
    unfold joinpath at 1. rewrite Hparse. cbn [root tail].
    rewrite !resolve_absolute by (cbn [root]; exact Hroot).
    cbn [root tail]. rewrite normalize_app.
    now rewrite (normalize_plain _ rest (valid_names_no_dotdot rest Hval)). }
  assert (Hq : lookup fs (tail (project_root env proj)) = Some pn).
  { unfold project_root. fold pd. rewrite resolve_absolute by exact Hroot. cbn [tail].
    unfold stat, start in Hst.
    destruct (root pd); [congruence | ..];
      destruct (namei fs [] (tail pd)) as [q|] eqn:Hn; try discriminate;
      now rewrite <- (namei_normalize fs (tail pd) [] q Hn). }
  assert (Hfile : stat (cwd env) fs (download_target env proj (String.concat "/" rest))
                  = Some (File d)).
  { destruct (download_target_resolved env proj (String.concat "/" rest)) as [Hr Hd].
    apply stat_resolved; [exact Hr | exact Hd|].
    rewrite Htarget. cbn [tail]. now rewrite lookup_app, Hq. }
  exists (FileResponse_ (download_target env proj (String.concat "/" rest))).
  rewrite (download_unfold env fs T _ authorization tok proj Hb Ht).
  unfold download_accepts. rewrite Htarget at 1.
  rewrite (to_str_below (project_root env proj) rest) by apply resolve_root.
  unfold exists_, send_file. now rewrite Hfile.
Qed.

(** X11. On a project directory whose tree is well formed (valid names,
    no name twice in a directory), the manifest scan does not fail, and
    every path it lists can be downloaded with the same token: the
    download yields a regular file whose length is the [bytes_total] of
    the record. *)
Theorem manifest_entries_download (env : Env) (fs : node) (T : Tokens)
    (authorization : option str) (tok proj : str) (pn : node) :
  _require_bearer authorization = Ok tok ->
  _project_from_token T tok = Ok proj ->
  stat (cwd env) fs (joinpath (PROJECTS_DIR env) proj) = Some pn ->
  wf pn = true ->
  exists assets,
    manifest env fs T authorization = Ok assets /\
    forall a, In a assets ->
      exists resp d,
        download env fs T (path a) authorization = Ok resp /\
        send_file env fs resp = Ok d /\
        length d = bytes_total a.
Proof.
  intros Hb Ht Hst Hwf.
  destruct (scan_walk env fs (joinpath (PROJECTS_DIR env) proj) pn Hwf [] (Forall_nil _))
    as [assets [Es Ds]].
  { unfold extend. rewrite app_nil_r.
    now destruct (joinpath (PROJECTS_DIR env) proj). }
  exists assets. split.
  - unfold manifest. rewrite Hb. cbn [bind]. rewrite Ht. cbn [bind].
    unfold exists_, walk. rewrite Hst. cbn [negb].
    replace (joinpath (PROJECTS_DIR env) proj)
      with (extend (joinpath (PROJECTS_DIR env) proj) []) at 2; [exact Es|].
    unfold extend. rewrite app_nil_r. now destruct (joinpath (PROJECTS_DIR env) proj).
  - intros a Hin. rewrite Forall_forall in Ds.
    destruct (Ds a Hin) as [rest [d [Hne [Hval [Hp [Hl [Hbt _]]]]]]].
    cbn [app] in Hp.
    destruct (download_below_project env fs T authorization tok proj pn rest d
                Hb Ht Hst Hne Hval Hl) as [resp [Hd Hs]].
    exists resp, d. rewrite Hp. repeat split; [exact Hd | exact Hs | now symmetry].
Qed.

Lemma manifest_entries_download_witness :
  exists assets,
    manifest Demo.env Demo.fs Demo.T Demo.auth = Ok assets /\
    forall a, In a assets ->
      exists resp d,
        download Demo.env Demo.fs Demo.T (path a) Demo.auth = Ok resp /\
        send_file Demo.env Demo.fs resp = Ok d /\
        length d = bytes_total a.
Proof.
  apply (manifest_entries_download Demo.env Demo.fs Demo.T Demo.auth
           "token-DEMO" "DEMO" Demo.demo_dir); reflexivity.
Defined.

(** ** More on uploads *)

(** Occurrences of one character. *)
Lemma contains_char_cons (c d : ascii) (s : str) :
  Py.contains (String c "") (String d s) =
  Ascii.eqb c d || Py.contains (String c "") s.
Proof.
  cbn [Py.contains]. f_equal.
  destruct (Ascii.eqb_spec c d) as [->|Hne].
  - now rewrite prefix_cons, prefix_nil.
  - now apply prefix_cons_ne.
Qed.

Lemma contains_char_append (c : ascii) (a b : str) :
  Py.contains (String c "") (a ++ b)%string =
  Py.contains (String c "") a || Py.contains (String c "") b.
Proof.
  induction a as [|d a IH]; [reflexivity|].
  cbn [String.append]. rewrite !contains_char_cons, IH. apply orb_assoc.
Qed.

Lemma contains_char_replace (a b : ascii) (s : str) :
  a <> b -> Py.contains (String a "") (Py.replace a b s) = false.
Proof.
  intros Hne. induction s as [|c s IH]; [reflexivity|].
  cbn [Py.replace]. rewrite contains_char_cons, IH, orb_false_r.
  destruct (Ascii.eqb_spec c a) as [->|Hc]; apply Ascii.eqb_neq; congruence.
Qed.

Lemma contains_char_split (c sep : ascii) (s x : str) :
  Py.contains (String c "") s = false -> In x (Py.split sep s) ->
  Py.contains (String c "") x = false.
Proof.
  revert x; induction s as [|d s IH]; cbn [Py.split]; intros x H Hin.
  - destruct Hin as [<-|[]]. reflexivity.
  - rewrite contains_char_cons in H. apply orb_false_iff in H as [Hd Hs].
    destruct (Ascii.eqb d sep).
    + destruct Hin as [<-|Hin]; [reflexivity | now apply IH].
    + destruct (Py.split sep s) as [|y ys] eqn:E; [now apply split_not_nil in E|].
      destruct Hin as [<-|Hin]; [|apply IH; [exact Hs | now right]].
      rewrite contains_char_cons, Hd. apply IH; [exact Hs | now left].
Qed.

Lemma contains_char_concat (c : ascii) (sep : str) (l : list str) :
  Py.contains (String c "") sep = false ->
  Forall (fun x => Py.contains (String c "") x = false) l ->
  Py.contains (String c "") (String.concat sep l) = false.
Proof.
  intros Hsep H. induction H as [|x l Hx Hl IH]; [reflexivity|].
  destruct l as [|y l]; [exact Hx|].
  change (String.concat sep (x :: y :: l))
    with (x ++ sep ++ String.concat sep (y :: l))%string.
  now rewrite !contains_char_append, Hx, Hsep, IH.
Qed.

Lemma contains_char_lstrip (c a : ascii) (s : str) :
  Py.contains (String c "") s = false ->
  Py.contains (String c "") (Py.lstrip a s) = false.
Proof.
  induction s as [|d s IH]; [reflexivity|]. intros H.
  cbn [Py.lstrip]. destruct (Ascii.eqb d a); [|exact H].
  rewrite contains_char_cons in H. apply orb_false_iff in H as [_ H]. now apply IH.
Qed.

Lemma contains_char_to_str (c : ascii) (p : Path) :
  c <> "/"%char -> c <> "."%char ->
  Forall (fun x => Py.contains (String c "") x = false) (tail p) ->
  Py.contains (String c "") (to_str p) = false.
Proof.
  intros H1 H2 H.
  assert (Hsep : Py.contains (String c "") "/" = false).
  { rewrite contains_char_cons. cbn [Py.contains]. rewrite orb_false_r.
    now apply Ascii.eqb_neq. }
  assert (Hcat := contains_char_concat c "/" (tail p) Hsep H).
  assert (Hdot : Py.contains (String c "") "." = false).
  { rewrite contains_char_cons. cbn [Py.contains]. rewrite orb_false_r.
    now apply Ascii.eqb_neq. }
  unfold to_str. destruct (root p); cbn [anchor_str].
  - destruct (tail p); [exact Hdot|]. cbn [String.append]. exact Hcat.
  - change ("/" ++ String.concat "/" (tail p))%string
      with (String "/" (String.concat "/" (tail p))).
    rewrite contains_char_cons, Hcat, orb_false_r. now apply Ascii.eqb_neq.
  - change ("//" ++ String.concat "/" (tail p))%string
      with (String "/" (String "/" (String.concat "/" (tail p)))).
    rewrite !contains_char_cons, Hcat, orb_false_r.
    assert (E : Ascii.eqb c "/" = false) by now apply Ascii.eqb_neq.
    now rewrite E.
Qed.

Lemma parse_tail_free (c : ascii) (s : str) :
  Py.contains (String c "") s = false ->
  Forall (fun x => Py.contains (String c "") x = false) (tail (parse s)).
Proof.
  intros H. apply Forall_forall. intros x Hin. cbn [parse tail] in Hin.
  apply filter_In in Hin as [Hin _]. exact (contains_char_split c "/" s x H Hin).
Qed.

(** The relative path of [upload], and the path it names, hold no
    backslash. *)
Lemma upload_rel_no_backslash (path : str) :
  Py.contains "\" (upload_rel path) = false.
Proof.
  unfold upload_rel. apply contains_char_lstrip.
  apply contains_char_to_str; [discriminate | discriminate|].
  apply parse_tail_free. apply contains_char_replace. discriminate.
Qed.

(** What a successful [store_file] went through. *)
Lemma store_file_ok_inv (fs fs' : node) (dest root : Path) (file : stream)
    (ack : UploadAck) :
  store_file fs dest root file = (Ok ack, fs') ->
  exists fsa fsb r,
    mkdir_p fs (tail (parent dest)) = Ok fsa /\
    open_wb fsa (tail dest) = Ok fsb /\
    relative_to dest root = Some r /\
    ack = {| ok := true; saved := Py.replace "\" "/" (to_str r) |}.
Proof.
  intros H.
  destruct (mkdir_p fs (tail (parent dest))) as [fsa| |] eqn:Hm;
    [|unfold store_file in H; rewrite Hm in H; discriminate ..].
  destruct (open_wb fsa (tail dest)) as [fsb| |] eqn:Ho;
    [|unfold store_file in H; rewrite Hm, Ho in H; discriminate ..].
  destruct (store_file_opened fs fsa fsb dest root file Hm Ho) as [fs3 [_ E]].
  rewrite E in H. destruct (complete file); [|discriminate].
  destruct (relative_to dest root) as [r|]; [|discriminate].
  injection H as <- _. now exists fsa, fsb, r.
Qed.

(** What a successful [upload] went through. *)
Lemma upload_ok_inv (env : Env) (fs fs' : node) (T : Tokens) (path : str)
    (file : stream) (authorization : option str) (ack : UploadAck) :
  upload env fs T path file authorization = (Ok ack, fs') ->
  exists tok proj,
    _require_bearer authorization = Ok tok /\
    _project_from_token T tok = Ok proj /\
    upload_accepts env proj path = true /\
    store_file fs (upload_dest env proj path) (project_root env proj) file = (Ok ack, fs').
Proof.
  intros H.
  destruct (_require_bearer authorization) as [tok| |] eqn:Hb;
    [|unfold upload in H; rewrite Hb in H; discriminate ..].
  destruct (_project_from_token T tok) as [proj| |] eqn:Ht;
    [|unfold upload in H; rewrite Hb, Ht in H; discriminate ..].
  rewrite (upload_unfold env fs T path file authorization tok proj Hb Ht) in H.
  destruct (upload_accepts env proj path) eqn:Ha; [|discriminate].
  now exists tok, proj.
Qed.

(** The path that [upload] reports, read as a path by [download], is
    the relative path that [upload] wrote to. *)
Lemma saved_parses_back (path : str) :
  let names := tail (parse (upload_rel path)) in
  parse (Py.replace "\" "/" (to_str {| root := Relative; tail := names |})) =
  {| root := Relative; tail := names |}.
Proof.
  cbv zeta.
  rewrite replace_id.
  - apply parse_to_str_relative; [apply parse_tail_kept | apply parse_tail_no_sep].
  - apply contains_char_to_str; [discriminate | discriminate|].
    apply parse_tail_free, upload_rel_no_backslash.
Qed.

(** A download of the path that [upload] reports for [path], in a store
    that holds a regular file at the destination of that upload. *)
Lemma download_saved (env : Env) (fs' : node) (T : Tokens) (path : str)
    (authorization : option str) (tok proj : str) (d : bytes) :
  _require_bearer authorization = Ok tok ->
  _project_from_token T tok = Ok proj ->
  upload_accepts env proj path = true ->
  lookup fs' (tail (upload_dest env proj path)) = Some (File d) ->
  exists resp,
    download env fs' T
      (Py.replace "\" "/"
         (to_str {| root := Relative; tail := tail (parse (upload_rel path)) |}))
      authorization = Ok resp /\
    send_file env fs' resp = Ok d.
Proof.
  intros Hb Ht Ha L.
  assert (Ht' : download_target env proj
                  (Py.replace "\" "/"
                     (to_str {| root := Relative; tail := tail (parse (upload_rel path)) |}))
                = upload_dest env proj path).
  { unfold download_target, upload_dest. f_equal.
    rewrite (joinpath_relative _ (upload_rel path)) by apply lstrip_startswith.
    unfold joinpath. now rewrite saved_parses_back. }
  exists (FileResponse_ (upload_dest env proj path)).
  rewrite (download_unfold env fs' T _ authorization tok proj Hb Ht).
  unfold download_accepts. rewrite Ht'.
  unfold upload_accepts in Ha. apply andb_true_iff in Ha as [_ Ha]. rewrite Ha.
  assert (Hst : stat (cwd env) fs' (upload_dest env proj path) = Some (File d)).
  { rewrite <- Ht'.
    destruct (download_target_resolved env proj
                (Py.replace "\" "/"
                   (to_str {| root := Relative; tail := tail (parse (upload_rel path)) |})))
      as [R D].
    apply stat_resolved; [exact R | exact D|]. now rewrite Ht'. }
  unfold exists_, send_file. now rewrite Hst.
Qed.

(** The answer of a successful upload names the relative path written
    to. *)
Lemma upload_ok_saved (env : Env) (fs fs' : node) (path : str) (proj : str)
    (file : stream) (ack : UploadAck) :
  upload_accepts env proj path = true ->
  store_file fs (upload_dest env proj path) (project_root env proj) file = (Ok ack, fs') ->
  saved ack =
    Py.replace "\" "/"
      (to_str {| root := Relative; tail := tail (parse (upload_rel path)) |}).
Proof.
  intros Ha Hs.
  destruct (store_file_ok_inv fs fs' _ _ file ack Hs) as [_ [_ [r [_ [_ [Hr ->]]]]]].
  pose proof (upload_accepts_no_dotdot env proj path Ha) as Hn.
  rewrite (upload_dest_below env proj path Hn), relative_to_child in Hr.
  now injection Hr as <-.
Qed.

(** X12. After any upload that succeeds, whatever the form of its path
    (backslashes, leading slashes, dots), a download of the path that
    the answer reports as [saved], with the same token, yields exactly
    the bytes uploaded. *)
Theorem upload_saved_download (env : Env) (fs fs' : node) (T : Tokens)
    (path : str) (file : stream) (authorization : option str) (ack : UploadAck) :
  upload env fs T path file authorization = (Ok ack, fs') ->
  exists resp,
    download env fs' T (saved ack) authorization = Ok resp /\
    send_file env fs' resp = Ok (received file).
Proof.
  intros H.
  destruct (upload_ok_inv env fs fs' T path file authorization ack H)
    as [tok [proj [Hb [Ht [Ha Hs]]]]].
  destruct (store_file_ok fs fs' _ _ file ack Hs) as [_ L].
  rewrite (upload_ok_saved env fs fs' path proj file ack Ha Hs).
  exact (download_saved env fs' T path authorization tok proj _ Hb Ht Ha L).
Qed.

Lemma upload_saved_download_witness :
  exists resp,
    download Demo.env
      (snd (upload Demo.env Demo.fs Demo.T "/sub\x.bgeo" (Chunk (Demo.b "hi") EOF) Demo.auth))
      Demo.T "sub/x.bgeo" Demo.auth = Ok resp /\
    send_file Demo.env
      (snd (upload Demo.env Demo.fs Demo.T "/sub\x.bgeo" (Chunk (Demo.b "hi") EOF) Demo.auth))
      resp = Ok (received (Chunk (Demo.b "hi") EOF)).
Proof.
  refine (upload_saved_download Demo.env Demo.fs _ Demo.T "/sub\x.bgeo"
            (Chunk (Demo.b "hi") EOF) Demo.auth
            {| ok := true; saved := "sub/x.bgeo" |} _).
  vm_compute. reflexivity.
Defined.

Lemma put_assoc_id (c : str) (m : node) es : assoc c es = Some m -> put c m es = es.
Proof.
  induction es as [|[k n] es IH]; cbn [assoc put]; [discriminate|].
  destruct (String.eqb_spec k c) as [->|_].
  - now intros [= ->].
  - intros H. now rewrite IH.
Qed.

(** Creating directories that are there changes nothing. *)
Lemma mkdir_p_existing (p : list str) :
  forall n es, lookup n p = Some (Dir es) -> mkdir_p n p = Ok n.
Proof.
  induction p as [|c p IH]; intros n es L.
  - injection L as ->. reflexivity.
  - cbn [lookup] in L. destruct n as [d|es0]; [discriminate|].
    cbn [mkdir_p]. destruct (assoc c es0) as [m|] eqn:E; [|discriminate].
    rewrite (IH m es L). cbn [bind]. now rewrite (put_assoc_id c m es0 E).
Qed.

Lemma lookup_removelast (n : node) (p : list str) (m : node) :
  p <> [] -> lookup n p = Some m -> exists es, lookup n (removelast p) = Some (Dir es).
Proof.
  intros Hne L. destruct (exists_last Hne) as [q [c ->]].
  rewrite removelast_last. rewrite lookup_app in L.
  destruct (lookup n q) as [[d|es]|]; try discriminate. now exists es.
Qed.

(** X13. A second upload to a path overwrites the first: after an
    upload that succeeded, a further complete upload to the same path
    succeeds with the same answer, and a download of the path reported
    then yields the bytes of the second upload. *)
Theorem upload_overwrites (env : Env) (fs fs1 : node) (T : Tokens)
    (path : str) (file1 file2 : stream) (authorization : option str)
    (ack : UploadAck) :
  upload env fs T path file1 authorization = (Ok ack, fs1) ->
  complete file2 = true ->
  exists fs2 resp,
    upload env fs1 T path file2 authorization = (Ok ack, fs2) /\
    download env fs2 T (saved ack) authorization = Ok resp /\
    send_file env fs2 resp = Ok (received file2).
Proof.
  intros H1 Hc.
  destruct (upload_ok_inv env fs fs1 T path file1 authorization ack H1)
    as [tok [proj [Hb [Ht [Ha Hs]]]]].
  destruct (store_file_ok fs fs1 _ _ file1 ack Hs) as [_ L].
  destruct (store_file_ok_inv fs fs1 _ _ file1 ack Hs)
    as [fsa [fsb [r [Hm [Ho [Hr Hack]]]]]].
  set (dest := upload_dest env proj path) in *.
  assert (Hne : tail dest <> []).
  { intros E. unfold parent in Hm. cbn [tail] in Hm. rewrite E in Hm, Ho.
    cbn [removelast mkdir_p] in Hm. unfold open_wb in Ho. cbn [update] in Ho.
    destruct fs as [d|es]; [discriminate|].
    injection Hm as <-. discriminate. }
  destruct (lookup_removelast fs1 (tail dest) _ Hne L) as [es Hp].
  assert (Hm2 : mkdir_p fs1 (tail (parent dest)) = Ok fs1)
    by exact (mkdir_p_existing _ fs1 es Hp).
  destruct (update_present
              (fun o => match o with
                        | Some (Dir _) => Raise IsADirectoryError
                        | _ => Ok (File [])
                        end)
              (tail dest) fs1 (File (received file1)) (File []) L eq_refl)
    as [fsb2 [Ho2 _]].
  destruct (store_file_opened fs1 fs1 fsb2 dest (project_root env proj) file2 Hm2 Ho2)
    as [fs2 [L2 E2]].
  rewrite Hc, Hr, <- Hack in E2.
  assert (H2 : upload env fs1 T path file2 authorization = (Ok ack, fs2)).
  { now rewrite (upload_unfold env fs1 T path file2 authorization tok proj Hb Ht), Ha. }
  exists fs2.
  destruct (download_saved env fs2 T path authorization tok proj _ Hb Ht Ha L2)
    as [resp [Hd Hsend]].
  exists resp. rewrite (upload_ok_saved env fs fs1 path proj file1 ack Ha Hs).
  now split; [|split].
Qed.

Lemma upload_overwrites_witness :
  exists fs2 resp,
    upload Demo.env
      (snd (upload Demo.env Demo.fs Demo.T "a.bgeo" (Chunk (Demo.b "one") EOF) Demo.auth))
      Demo.T "a.bgeo" (Chunk (Demo.b "two!") EOF) Demo.auth
      = (Ok {| ok := true; saved := "a.bgeo" |}, fs2) /\
    download Demo.env fs2 Demo.T "a.bgeo" Demo.auth = Ok resp /\
    send_file Demo.env fs2 resp = Ok (received (Chunk (Demo.b "two!") EOF)).
Proof.
  refine (upload_overwrites Demo.env Demo.fs _ Demo.T "a.bgeo"
            (Chunk (Demo.b "one") EOF) (Chunk (Demo.b "two!") EOF) Demo.auth
            {| ok := true; saved := "a.bgeo" |} _ eq_refl).
  vm_compute. reflexivity.
Defined.

Lemma apart_app (a b x y : list str) :
  apart a b = true -> apart (a ++ x) (b ++ y) = true.
Proof.
  revert b; induction a as [|c a IH]; intros b H; [discriminate|].
  destruct b as [|d b]; [discriminate|].
  cbn [apart app] in *. destruct (String.eqb c d); [now apply IH | reflexivity].
Qed.

(** X14. An upload made with the token of one project changes nothing
    below the root of another: at every path that begins with the
    resolved root of a project which parts from the resolved root of the
    uploading project, the store holds after the upload what it held
    before, whether the upload succeeds or fails. *)
Theorem upload_leaves_other_projects (env : Env) (fs : node) (T : Tokens)
    (path : str) (file : stream) (authorization : option str)
    (tok proj other : str) (rest : list str) :
  _require_bearer authorization = Ok tok ->
  _project_from_token T tok = Ok proj ->
  apart (tail (project_root env other)) (tail (project_root env proj)) = true ->
  lookup (snd (upload env fs T path file authorization))
         (tail (project_root env other) ++ rest)
  = lookup fs (tail (project_root env other) ++ rest).
Proof.
  intros Hb Ht Hap.
  rewrite (upload_unfold env fs T path file authorization tok proj Hb Ht).
  destruct (upload_accepts env proj path) eqn:Ha; [|reflexivity].
  apply store_file_frame.
  rewrite (upload_dest_below env proj path (upload_accepts_no_dotdot env _ _ Ha)).
  cbn [tail]. now apply apart_app.
Qed.

Lemma upload_leaves_other_projects_witness :
  lookup (snd (upload Demo.env Demo.fs Demo.T "secret.bgeo" (Chunk (Demo.b "x") EOF) Demo.auth))
         (tail (project_root Demo.env "DEMO2") ++ ["secret.bgeo"])
  = lookup Demo.fs (tail (project_root Demo.env "DEMO2") ++ ["secret.bgeo"]).
Proof.
  apply (upload_leaves_other_projects Demo.env Demo.fs Demo.T "secret.bgeo"
           (Chunk (Demo.b "x") EOF) Demo.auth "token-DEMO" "DEMO" "DEMO2" ["secret.bgeo"]);
    reflexivity.
Defined.

(** X15. The credential record is served like any other file: with the
    token of a project whose record is a regular file, a download of
    [.passwd] yields the bytes of the record. *)
Theorem download_serves_credential (env : Env) (fs : node) (T : Tokens)
    (authorization : option str) (tok proj : str) (content : bytes) :
  _require_bearer authorization = Ok tok ->
  _project_from_token T tok = Ok proj ->
  stat (cwd env) fs (_passwd_path env proj) = Some (File content) ->
  exists resp,
    download env fs T ".passwd" authorization = Ok resp /\
    send_file env fs resp = Ok content.
Proof.
  intros Hb Ht Hst.
  rewrite passwd_path_eq in Hst.
  destruct (stat_child_dir (cwd env) fs (joinpath (PROJECTS_DIR env) proj)
              ".passwd" _ Hst) as [es Hpd].
  assert (Hne : ".passwd" <> "..") by discriminate.
  pose proof (stat_child (cwd env) fs (joinpath (PROJECTS_DIR env) proj)
                ".passwd" es Hpd Hne) as E.
  assert (Ha : assoc ".passwd" es = Some (File content))
    by (rewrite <- Hst; symmetry; exact E).
  apply (download_below_project env fs T authorization tok proj (Dir es) [".passwd"]
           content Hb Ht Hpd).
  - discriminate.
  - repeat constructor.
  - cbn [lookup]. now rewrite Ha.
Qed.

Lemma download_serves_credential_witness :
  exists resp,
    download Demo.env Demo.fs Demo.T ".passwd" Demo.auth = Ok resp /\
    send_file Demo.env Demo.fs resp = Ok (Demo.b "secret123" ++ [x0a]).
Proof.
  apply (download_serves_credential Demo.env Demo.fs Demo.T Demo.auth "token-DEMO" "DEMO");
    reflexivity.
Defined.

(** X16. The credential record can be replaced by an upload: when the
    path of the project directory has no [..] in it, an upload to
    [.passwd] that succeeds makes the bytes uploaded the record, so that
    a login then succeeds with the password whose bytes are the
    uploaded bytes stripped, if these do not begin with [$2]. *)
Theorem upload_replaces_credential (env : Env) (fs fs' : node) (T T' : Tokens)
    (file : stream) (authorization : option str) (tok proj pw : str)
    (ack : UploadAck) :
  _require_bearer authorization = Ok tok ->
  _project_from_token T tok = Ok proj ->
  ~ In ".." (tail (joinpath (PROJECTS_DIR env) proj)) ->
  upload env fs T ".passwd" file authorization = (Ok ack, fs') ->
  Py.bytes_startswith (Py.strip (received file)) (Py.encode "$2") = false ->
  Py.encode pw = Py.strip (received file) ->
  stat (cwd env) fs' (_passwd_path env proj) = Some (File (received file)) /\
  fst (login env fs' T' {| project := proj; password := pw |})
    = Ok {| token := ("token-" ++ proj)%string |}.
Proof.
  intros Hb Ht Hdd H Hraw Hpw.
  rewrite (upload_unfold env fs T ".passwd" file authorization tok proj Hb Ht) in H.
  destruct (upload_accepts env proj ".passwd") eqn:Ha; [|discriminate].
  destruct (store_file_ok fs fs' _ _ file ack H) as [_ L].
  rewrite (upload_dest_below env proj ".passwd" eq_refl) in L.
  change (tail (parse (upload_rel ".passwd"))) with [".passwd"] in L.
  unfold project_root in L.
  rewrite resolve_absolute in L by apply project_dir_root.
  cbn [root tail] in L. rewrite (normalize_plain [] _ Hdd) in L. cbn [app] in L.
  assert (Hst : stat (cwd env) fs' (_passwd_path env proj) = Some (File (received file))).
  { rewrite passwd_path_eq. apply stat_resolved.
    - cbn [root]. apply project_dir_root.
    - cbn [tail]. intros Hin. apply in_app_or in Hin as [Hin|[Hin|[]]];
        [now apply Hdd | discriminate].
    - exact L. }
  split; [exact Hst|].
  assert (Hc : correct_password env fs' proj pw).
  { exists (received file). split; [exact Hst|]. cbv zeta. now rewrite Hraw. }
  destruct (correct_password_verifies env fs' proj pw Hc) as [Hhas Hver].
  unfold login. cbn [project password].
  now rewrite (has_passwd_project_exists env fs' proj Hhas), Hhas, Hver.
Qed.

Lemma upload_replaces_credential_witness :
  stat (cwd Demo.env)
    (snd (upload Demo.env Demo.fs Demo.T ".passwd" (Chunk (Demo.b "mine") EOF) Demo.auth))
    (_passwd_path Demo.env "DEMO") = Some (File (received (Chunk (Demo.b "mine") EOF))) /\
  fst (login Demo.env
         (snd (upload Demo.env Demo.fs Demo.T ".passwd" (Chunk (Demo.b "mine") EOF) Demo.auth))
         [] {| project := "DEMO"; password := "mine" |})
    = Ok {| token := "token-DEMO" |}.
Proof.
  refine (upload_replaces_credential Demo.env Demo.fs _ Demo.T []
            (Chunk (Demo.b "mine") EOF) Demo.auth "token-DEMO" "DEMO" "mine"
            {| ok := true; saved := ".passwd" |} eq_refl eq_refl _ _ eq_refl eq_refl).
  - vm_compute. intros [H|[H|[H|[]]]]; discriminate.
  - vm_compute. reflexivity.
Defined.

(** X17. An upload whose path names nothing (the empty path, a dot, a
    slash) is aimed at the root of the project itself: when that root
    is a directory, the upload fails with [IsADirectoryError] and the
    store is left as it was. *)
Theorem upload_to_project_root_fails (env : Env) (fs : node) (T : Tokens)
    (path : str) (file : stream) (authorization : option str)
    (tok proj : str) es :
  _require_bearer authorization = Ok tok ->
  _project_from_token T tok = Ok proj ->
  tail (parse (Py.replace "\" "/" path)) = [] ->
  lookup fs (tail (project_root env proj)) = Some (Dir es) ->
  upload env fs T path file authorization = (Raise IsADirectoryError, fs).
Proof.
  intros Hb Ht Hnil Hroot.
  assert (Hrel : upload_rel path = "." \/ upload_rel path = "").
  { unfold upload_rel, to_str. rewrite Hnil.
    destruct (root (parse (Py.replace "\" "/" path))); cbn; tauto. }
  assert (Hdest : upload_dest env proj path = project_root env proj).
  { unfold upload_dest, project_root. f_equal.
    generalize (joinpath (PROJECTS_DIR env) proj). intros [r t].
    destruct Hrel as [-> | ->]; unfold joinpath;
      [change (parse ".") with {| root := Relative; tail := [] |}
      |change (parse "") with {| root := Relative; tail := [] |}];
      cbn [root tail]; now rewrite app_nil_r. }
  assert (Ha : upload_accepts env proj path = true).
  { unfold upload_accepts. rewrite Hdest. unfold Py.startswith at 2.
    rewrite prefix_refl, andb_true_r. destruct Hrel as [-> | ->]; reflexivity. }
  rewrite (upload_unfold env fs T path file authorization tok proj Hb Ht), Ha, Hdest.
  unfold store_file.
  assert (Hm : mkdir_p fs (tail (parent (project_root env proj))) = Ok fs).
  { unfold parent. cbn [tail].
    destruct (tail (project_root env proj)) as [|c l] eqn:E.
    - cbn [removelast]. exact (mkdir_p_existing [] fs es Hroot).
    - assert (Hne : c :: l <> []) by discriminate.
      destruct (lookup_removelast fs (c :: l) _ Hne Hroot) as [es' Hp].
      exact (mkdir_p_existing _ fs es' Hp). }
  rewrite Hm.
  assert (Ho : open_wb fs (tail (project_root env proj)) = Raise IsADirectoryError).
  { unfold open_wb. generalize (tail (project_root env proj)) fs Hroot. clear.
    induction l as [|c l IH]; intros fs Hroot.
    - injection Hroot as ->. reflexivity.
    - cbn [lookup] in Hroot. destruct fs as [d|es0]; [discriminate|].
      cbn [update]. destruct (assoc c es0) as [m|]; [|discriminate].
      now rewrite (IH m Hroot). }
  now rewrite Ho.
Qed.

Lemma upload_to_project_root_fails_witness :
  upload Demo.env Demo.fs Demo.T "" (Chunk (Demo.b "x") EOF) Demo.auth
    = (Raise IsADirectoryError, Demo.fs).
Proof.
  apply (upload_to_project_root_fails Demo.env Demo.fs Demo.T ""
           (Chunk (Demo.b "x") EOF) Demo.auth "token-DEMO" "DEMO"
           [ (".passwd", File (Demo.b "secret123" ++ [x0a]));
             ("a.bgeo", File (Demo.b "AAAA"));
             ("b.vdb", File (Demo.b "BB"));
             ("readme.txt", File (Demo.b "r"));
             ("thumbs", Dir [("shot.jpg", File (Demo.b "jpeg"))]) ]);
    reflexivity.
Defined.

(** ** How far a download can reach *)









Lemma Forall_removelast {A : Type} (P : A -> Prop) (l : list A) :
  Forall P l -> Forall P (removelast l).
Proof.
  intros H. apply Forall_forall. intros x Hin. rewrite Forall_forall in H.
  now apply H, in_removelast.
Qed.







(** ** The clients *)

Lemma replace_append (a b : ascii) (s t : str) :
  Py.replace a b (s ++ t)%string = (Py.replace a b s ++ Py.replace a b t)%string.
Proof. induction s as [|c s IH]; [reflexivity|]. cbn [String.append Py.replace]. now rewrite IH. Qed.

Lemma span_segment_plain (g r : str) :
  Py.contains "/" g = false ->
  Client.span_segment (g ++ String "/" r)%string = (g, String "/" r).
Proof.
  induction g as [|c g IH]; intros H; [reflexivity|].
  rewrite contains_char_cons in H. apply orb_false_iff in H as [Hc Hg].
  cbn [String.append Client.span_segment].
  rewrite Ascii.eqb_sym, Hc. now rewrite (IH Hg).
Qed.

Lemma lower_ascii_spec (c : ascii) :
  (65 <= nat_of_ascii c <= 90 /\
   nat_of_ascii (Py.lower_ascii c) = nat_of_ascii c + 32) \/
  ((nat_of_ascii c < 65 \/ 90 < nat_of_ascii c) /\ Py.lower_ascii c = c).
Proof.
  unfold Py.lower_ascii. cbv zeta.
  destruct (Nat.leb_spec 65 (nat_of_ascii c)) as [H1|H1]; cbn [andb].
  - destruct (Nat.leb_spec (nat_of_ascii c) 90) as [H2|H2].
    + left. split; [lia|]. apply nat_ascii_embedding. lia.
    + right. split; [lia | reflexivity].
  - right. split; [lia | reflexivity].
Qed.

Lemma lower_length (s : str) : String.length (Py.lower s) = String.length s.
Proof. induction s as [|c s IH]; [reflexivity|]. cbn [Py.lower String.length]. now rewrite IH. Qed.

Lemma lower_get (s : str) :
  forall i c, String.get i s = Some c ->
              String.get i (Py.lower s) = Some (Py.lower_ascii c).
Proof.
  induction s as [|a s IH]; intros i c H; [discriminate|].
  destruct i as [|i]; cbn [Py.lower String.get] in *.
  - now injection H as <-.
  - now apply IH.
Qed.

(** X19. The browser recovers the context that the exporter put into a
    path, in lower case.  [str.lower] is a parameter, of which only its
    effect on ASCII text is assumed, and the context is ASCII text that
    is not empty and holds no slash and no backslash.  Then, for any
    base name, [infer_context_from_path] applied to the cpio path of
    [_paths_for] gives a text as long as the context, in which each of
    the letters A to Z of the context is replaced by the character 32
    code points above it and every other character is kept. *)
Theorem infer_context_of_export_path (str_lower : str -> str) (ctx base_name : str) :
  (forall s, Py.is_ascii s = true -> str_lower s = Py.lower s) ->
  Py.is_ascii ctx = true ->
  ctx <> "" ->
  Py.contains "/" ctx = false ->
  Py.contains "\" ctx = false ->
  Client.infer_context_from_path str_lower (fst (Client._paths_for ctx base_name))
    = Py.lower ctx /\
  String.length
    (Client.infer_context_from_path str_lower (fst (Client._paths_for ctx base_name)))
    = String.length ctx /\
  forall i c, String.get i ctx = Some c ->
    exists c',
      String.get i
        (Client.infer_context_from_path str_lower (fst (Client._paths_for ctx base_name)))
        = Some c' /\
      ((65 <= nat_of_ascii c <= 90 /\ nat_of_ascii c' = nat_of_ascii c + 32) \/
       ((nat_of_ascii c < 65 \/ 90 < nat_of_ascii c) /\ c' = c)).
Proof.
  intros Hlow Hascii Hne Hs Hb.
  assert (E : Client.infer_context_from_path str_lower
                (fst (Client._paths_for ctx base_name)) = Py.lower ctx).
  { unfold Client.infer_context_from_path, Client._paths_for. cbn [fst].
    rewrite !replace_append, (replace_id _ _ ctx Hb).
    change (Py.replace "\" "/" "cpio/") with "cpio/".
    change (Py.replace "\" "/" "/") with "/".
    unfold Client.search_cpio, Client.match_cpio.
    change (Client.after_literal "cpio/" ("cpio/" ++ ?s)%string) with (Some s).
    change ("/" ++ ?s)%string with (String "/" s).
    cbv iota beta. rewrite (span_segment_plain ctx _ Hs).
    destruct ctx as [|c g]; [congruence|]. now apply Hlow. }
  rewrite E. split; [reflexivity|]. split; [apply lower_length|].
  intros i c H. exists (Py.lower_ascii c). split; [now apply lower_get|].
  apply lower_ascii_spec.
Qed.

Lemma infer_context_of_export_path_witness :
  Client.infer_context_from_path Py.lower "cpio/Sop_2/sop_fire.cpio" = "sop_2".
Proof.
  apply (infer_context_of_export_path Py.lower "Sop_2" "sop_fire");
    [reflexivity | reflexivity | discriminate | reflexivity | reflexivity].
Defined.

Lemma string_app_assoc (a b c : str) : ((a ++ b) ++ c = a ++ b ++ c)%string.
Proof. induction a as [|x a IH]; [reflexivity|]. cbn [String.append]. now rewrite IH. Qed.

Lemma string_app_length (a b : str) :
  String.length (a ++ b)%string = String.length a + String.length b.
Proof. induction a as [|x a IH]; [reflexivity|]. cbn [String.append String.length]. now rewrite IH. Qed.

Lemma append_inj_r (a b t : str) : (a ++ t = b ++ t)%string -> a = b.
Proof.
  revert b; induction a as [|x a IH]; intros [|y b] H; cbn [String.append] in H.
  - reflexivity.
  - apply (f_equal String.length) in H. cbn [String.length] in H.
    rewrite string_app_length in H. lia.
  - apply (f_equal String.length) in H. cbn [String.length] in H.
    rewrite string_app_length in H. lia.
  - injection H as -> H. now rewrite (IH b H).
Qed.

Lemma decode_zeros (k : nat) (s : str) (d : Decimal.uint) :
  NilEmpty.uint_of_string s = Some d ->
  exists d', NilEmpty.uint_of_string (Client.zeros k ++ s)%string = Some d' /\
             Nat.of_uint d' = Nat.of_uint d.
Proof.
  intros H. induction k as [|k [d' [E N]]]; [now exists d|].
  exists (Decimal.D0 d'). cbn [Client.zeros String.append NilEmpty.uint_of_string].
  rewrite E. split; [reflexivity | exact N].
Qed.

Lemma fmt03_inj (i j : nat) : Client.fmt03 i = Client.fmt03 j -> i = j.
Proof.
  unfold Client.fmt03. cbv zeta. intros H.
  destruct (decode_zeros (3 - String.length (NilEmpty.string_of_uint (Nat.to_uint i)))
              _ _ (NilEmpty.usu (Nat.to_uint i))) as [di [Ei Ni]].
  destruct (decode_zeros (3 - String.length (NilEmpty.string_of_uint (Nat.to_uint j)))
              _ _ (NilEmpty.usu (Nat.to_uint j))) as [dj [Ej Nj]].
  rewrite H, Ej in Ei. injection Ei as <-.
  rewrite Unsigned.of_to in Ni, Nj. congruence.
Qed.

Lemma paths_for_inj (ctx base_name : str) (i j : nat) :
  fst (Client._paths_for ctx (Client.candidate base_name i)) =
  fst (Client._paths_for ctx (Client.candidate base_name j)) \/
  snd (Client._paths_for ctx (Client.candidate base_name i)) =
  snd (Client._paths_for ctx (Client.candidate base_name j)) ->
  i = j.
Proof.
  unfold Client._paths_for, Client.candidate. cbn [fst snd].
  intros [H|H].
  - apply (append_inj_l "cpio/"), (append_inj_l ctx), (append_inj_l "/") in H.
    apply append_inj_r, (append_inj_l base_name), (append_inj_l "_") in H.
    now apply fmt03_inj.
  - apply (append_inj_l "thumbs/") in H.
    apply append_inj_r, (append_inj_l base_name), (append_inj_l "_") in H.
    now apply fmt03_inj.
Qed.

Lemma paths_for_disjoint (ctx b1 b2 : str) :
  fst (Client._paths_for ctx b1) <> snd (Client._paths_for ctx b2).
Proof. unfold Client._paths_for. cbn [fst snd]. discriminate. Qed.

(** The existing path that stands in the way of a candidate that is not
    free. *)
Lemma not_free_blocked (ctx base_name : str) (existing : list str) (i : nat) :
  Client.free ctx base_name existing i = false ->
  exists p, In p existing /\
    (p = fst (Client._paths_for ctx (Client.candidate base_name i)) \/
     p = snd (Client._paths_for ctx (Client.candidate base_name i))).
Proof.
  unfold Client.free.
  destruct (Client._paths_for ctx (Client.candidate base_name i)) as [r1 r2]. cbn [fst snd].
  intros H. apply andb_false_iff in H as [H|H]; apply negb_false_iff, mem_in in H; eauto.
Qed.

(** Among any [length existing + 1] counters in a row, one is free. *)
Lemma some_candidate_free (ctx base_name : str) (existing : list str) (start : nat) :
  exists k, k <= length existing /\
            Client.free ctx base_name existing (start + k) = true.
Proof.
  destruct (existsb (fun k => Client.free ctx base_name existing (start + k))
              (seq 0 (S (length existing)))) eqn:E.
  - apply existsb_exists in E as [k [Hk Hf]]. apply in_seq in Hk.
    exists k. split; [lia | exact Hf].
  - exfalso.
    assert (Hall : forall k, k <= length existing ->
              Client.free ctx base_name existing (start + k) = false).
    { intros k Hk. apply not_true_iff_false. intros Hf.
      apply not_true_iff_false in E. apply E, existsb_exists.
      exists k. split; [apply in_seq; lia | exact Hf]. }
    assert (Hinj : forall n, n <= S (length existing) ->
              exists l, length l = n /\ NoDup l /\ incl l existing /\
                forall p, In p l -> exists k, k < n /\
                  (p = fst (Client._paths_for ctx (Client.candidate base_name (start + k))) \/
                   p = snd (Client._paths_for ctx (Client.candidate base_name (start + k))))).
    { induction n as [|n IHn]; intros Hn.
      - exists []. repeat split; [constructor | intros ? [] | intros ? []].
      - destruct (IHn ltac:(lia)) as [l [Hlen [Hnd [Hincl Hl]]]].
        destruct (not_free_blocked ctx base_name existing (start + n) (Hall n ltac:(lia)))
          as [p [Hp Hpn]].
        exists (p :: l). split; [cbn; lia|]. split; [|split].
        + constructor; [|exact Hnd]. intros Hin.
          destruct (Hl p Hin) as [k [Hk Hpk]].
          assert (start + n = start + k); [|lia].
          destruct Hpn as [-> | ->], Hpk as [Hpk|Hpk].
          * apply (paths_for_inj ctx base_name). now left.
          * now apply paths_for_disjoint in Hpk.
          * symmetry in Hpk. now apply paths_for_disjoint in Hpk.
          * apply (paths_for_inj ctx base_name). now right.
        + intros q [<-|Hq]; [exact Hp | now apply Hincl].
        + intros q [<-|Hq]; [exists n; split; [lia | exact Hpn]|].
          destruct (Hl q Hq) as [k [Hk Hqk]]. exists k. split; [lia | exact Hqk]. }
    destruct (Hinj (S (length existing)) (le_n _)) as [l [Hlen [Hnd [Hincl _]]]].
    pose proof (NoDup_incl_length Hnd Hincl). lia.
Qed.

Lemma uniquify_from_first (ctx base_name : str) (existing : list str) :
  forall fuel i k,
    k < fuel ->
    Client.free ctx base_name existing (i + k) = true ->
    (forall j, j < k -> Client.free ctx base_name existing (i + j) = false) ->
    Client.uniquify_from fuel ctx base_name existing i
      = Some (Client.candidate base_name (i + k)).
Proof.
  induction fuel as [|fuel IH]; intros i k Hk Hf Hb; [lia|].
  cbn [Client.uniquify_from]. destruct k as [|k].
  - rewrite Nat.add_0_r in Hf |- *. now rewrite Hf.
  - pose proof (Hb 0 ltac:(lia)) as H0. rewrite Nat.add_0_r in H0. rewrite H0.
    replace (i + S k) with (S i + k) in * by lia.
    apply IH; [lia | exact Hf|].
    intros j Hj. replace (S i + j) with (i + S j) by lia. apply Hb. lia.
Qed.

Lemma first_true (P : nat -> bool) (n : nat) :
  P n = true -> exists k, k <= n /\ P k = true /\ forall j, j < k -> P j = false.
Proof.
  induction n as [n IH] using lt_wf_ind. intros Hn.
  destruct (existsb P (seq 0 n)) eqn:E.
  - apply existsb_exists in E as [m [Hm Pm]]. apply in_seq in Hm.
    destruct (IH m ltac:(lia) Pm) as [k [Hk [Pk Hb]]].
    exists k. split; [lia | now split].
  - exists n. split; [lia|]. split; [exact Hn|].
    intros j Hj. apply not_true_iff_false. intros Pj.
    apply not_true_iff_false in E. apply E, existsb_exists.
    exists j. split; [apply in_seq; lia | exact Pj].
Qed.

(** X20. [_uniquify_base] ends: after at most as many rounds as there
    are existing paths, plus one, it returns a name [base_NNN] whose
    cpio path and whose thumbnail path are both absent from the existing
    paths, and it is the name with the smallest counter, from 1 on, for
    which that holds. *)
Theorem uniquify_base_fresh (ctx base_name : str) (existing : list str) (fuel : nat) :
  length existing < fuel ->
  exists i,
    1 <= i <= S (length existing) /\
    Client._uniquify_base fuel ctx base_name existing
      = Some (Client.candidate base_name i) /\
    ~ In (fst (Client._paths_for ctx (Client.candidate base_name i))) existing /\
    ~ In (snd (Client._paths_for ctx (Client.candidate base_name i))) existing /\
    forall j, 1 <= j < i ->
      In (fst (Client._paths_for ctx (Client.candidate base_name j))) existing \/
      In (snd (Client._paths_for ctx (Client.candidate base_name j))) existing.
Proof.
  intros Hfuel.
  destruct (some_candidate_free ctx base_name existing 1) as [k0 [Hk0 Hf0]].
  destruct (first_true (fun k => Client.free ctx base_name existing (1 + k)) k0 Hf0)
    as [k [Hk [Hf Hb]]].
  exists (1 + k). split; [lia|]. split; [|split; [|split]].
  - unfold Client._uniquify_base. apply uniquify_from_first; [lia | exact Hf | exact Hb].
  - unfold Client.free in Hf.
    destruct (Client._paths_for ctx (Client.candidate base_name (1 + k))) as [r1 r2].
    cbn [fst]. apply andb_true_iff in Hf as [Hf _].
    apply negb_true_iff in Hf. intros Hin. apply mem_in in Hin. congruence.
  - unfold Client.free in Hf.
    destruct (Client._paths_for ctx (Client.candidate base_name (1 + k))) as [r1 r2].
    cbn [snd]. apply andb_true_iff in Hf as [_ Hf].
    apply negb_true_iff in Hf. intros Hin. apply mem_in in Hin. congruence.
  - intros j Hj. specialize (Hb (j - 1) ltac:(lia)).
    replace (1 + (j - 1)) with j in Hb by lia.
    destruct (not_free_blocked ctx base_name existing j Hb) as [p [Hp [-> | ->]]]; tauto.
Qed.

Lemma uniquify_base_fresh_witness :
  exists i,
    1 <= i <= 3 /\
    Client._uniquify_base 3 "sop" "sop_fire"
      ["cpio/sop/sop_fire_001.cpio"; "thumbs/sop_fire_002.jpg"]
      = Some (Client.candidate "sop_fire" i) /\
    ~ In (fst (Client._paths_for "sop" (Client.candidate "sop_fire" i)))
         ["cpio/sop/sop_fire_001.cpio"; "thumbs/sop_fire_002.jpg"] /\
    ~ In (snd (Client._paths_for "sop" (Client.candidate "sop_fire" i)))
         ["cpio/sop/sop_fire_001.cpio"; "thumbs/sop_fire_002.jpg"] /\
    forall j, 1 <= j < i ->
      In (fst (Client._paths_for "sop" (Client.candidate "sop_fire" j)))
         ["cpio/sop/sop_fire_001.cpio"; "thumbs/sop_fire_002.jpg"] \/
      In (snd (Client._paths_for "sop" (Client.candidate "sop_fire" j)))
         ["cpio/sop/sop_fire_001.cpio"; "thumbs/sop_fire_002.jpg"].
Proof.
  apply (uniquify_base_fresh "sop" "sop_fire"
           ["cpio/sop/sop_fire_001.cpio"; "thumbs/sop_fire_002.jpg"] 3).
  cbn. lia.
Defined.

(** X21. On a well-formed project tree every record of the manifest
    comes from a regular file whose name has a recognised extension:
    the path of the record ends in that name, the identifier is the stem
    of the name and the type its extension in lower case.  The
    credential record [.passwd], whose name has no extension, is never
    listed. *)
Theorem manifest_record_names (env : Env) (fs : node) (T : Tokens)
    (authorization : option str) (tok proj : str) (pn : node)
    (assets : list Asset) (a : Asset) :
  _require_bearer authorization = Ok tok ->
  _project_from_token T tok = Ok proj ->
  stat (cwd env) fs (joinpath (PROJECTS_DIR env) proj) = Some pn ->
  wf pn = true ->
  manifest env fs T authorization = Ok assets ->
  In a assets ->
  exists dirs f d,
    path a = String.concat "/" (dirs ++ [f]) /\
    lookup pn (dirs ++ [f]) = Some (File d) /\
    id a = stem f /\
    type a = Py.lstrip "." (Py.lower (suffix f)) /\
    mem (type a) exts = true /\
    f <> ".passwd".
Proof.
  intros Hb Ht Hst Hwf Hm Hin.
  destruct (scan_walk env fs (joinpath (PROJECTS_DIR env) proj) pn Hwf [] (Forall_nil _))
    as [assets' [Es Ds]].
  { unfold extend. rewrite app_nil_r.
    now destruct (joinpath (PROJECTS_DIR env) proj). }
  assert (Hrec : Forall record_ok assets').
  { exact (scan_record_ok env fs _ _ _ Es). }
  assert (E : assets = assets').
  { unfold manifest in Hm. rewrite Hb in Hm. cbn [bind] in Hm. rewrite Ht in Hm.
    cbn [bind] in Hm. unfold exists_, walk in Hm. rewrite Hst in Hm. cbn [negb] in Hm.
    replace (joinpath (PROJECTS_DIR env) proj)
      with (extend (joinpath (PROJECTS_DIR env) proj) []) in Hm at 2;
      [congruence|].
    unfold extend. rewrite app_nil_r. now destruct (joinpath (PROJECTS_DIR env) proj). }
  subst assets'. rewrite Forall_forall in Ds, Hrec.
  destruct (Ds a Hin) as [rest [d [Hne [_ [Hp [Hl [_ [Hi Hty]]]]]]]].
  destruct (Hrec a Hin) as [Hmem _].
  destruct (exists_last Hne) as [dirs [f ->]]. rewrite last_last in Hi, Hty.
  exists dirs, f, d. cbn [app] in Hp. repeat split; try assumption.
  intros ->. rewrite Hty in Hmem. discriminate.
Qed.

Lemma manifest_record_names_witness :
  exists dirs f d,
    "thumbs/shot.jpg" = String.concat "/" (dirs ++ [f]) /\
    lookup Demo.demo_dir (dirs ++ [f]) = Some (File d) /\
    "shot" = stem f /\
    "jpg" = Py.lstrip "." (Py.lower (suffix f)) /\
    mem "jpg" exts = true /\
    f <> ".passwd".
Proof.
  refine (manifest_record_names Demo.env Demo.fs Demo.T Demo.auth "token-DEMO" "DEMO"
            Demo.demo_dir _
            {| id := "shot"; type := "jpg"; version := 1; path := "thumbs/shot.jpg";
               thumb := Some "thumbs/shot.jpg"; bytes_total := 4 |}
            eq_refl eq_refl eq_refl eq_refl eq_refl _).
  vm_compute. tauto.
Defined.

(** X22. A login succeeds only with the right password: whenever
    [login] returns a token, the project has a credential record that
    is a regular file, and the record, stripped, either is a hash
    against which [bcrypt.checkpw] accepts the password, or does not
    begin with [$2] and is byte for byte the password. *)
Theorem login_only_with_correct_password (env : Env) (fs : node) (T : Tokens)
    (req : LoginRequest) (r : LoginResponse) :
  fst (login env fs T req) = Ok r ->
  correct_password env fs (project req) (password req).
Proof.
  unfold login.
  destruct (negb (exists_ _ fs (joinpath _ _))); [discriminate|].
  destruct (negb (_has_passwd _ _ _)); [discriminate|].
  destruct (_verify_password env fs (project req) (password req)) as [[|]| |] eqn:V;
    try discriminate.
  intros _. unfold correct_password.
  destruct (stat (cwd env) fs (_passwd_path env (project req))) as [[content|es]|] eqn:S.
  - exists content. split; [reflexivity|].
    rewrite (verify_password_record env fs _ _ content S) in V. cbv zeta in *.
    injection V as V.
    destruct (Py.bytes_startswith _ _).
    + destruct (checkpw env _ _) as [[|]|]; congruence.
    + now apply bytes_eqb_eq.
  - unfold _verify_password, exists_, read_bytes in V. rewrite S in V. discriminate.
  - unfold _verify_password, exists_ in V. rewrite S in V. discriminate.
Qed.

Lemma login_only_with_correct_password_witness :
  correct_password Demo.env Demo.fs "DEMO" "secret123".
Proof.
  apply (login_only_with_correct_password Demo.env Demo.fs []
           {| project := "DEMO"; password := "secret123" |}
           {| token := "token-DEMO" |}).
  reflexivity.
Defined.

(** ** Uploads and well-formed stores *)

Lemma wf_dir_intro (es : list (str * node)) :
  distinct (map fst es) = true ->
  (forall k m, In (k, m) es -> valid_name k = true /\ wf m = true) ->
  wf (Dir es) = true.
Proof.
  intros Hd Hall. cbn [wf]. rewrite Hd. cbn [andb].
  induction es as [|[k m] es IH]; [reflexivity|].
  cbn [distinct map fst] in Hd. apply andb_true_iff in Hd as [_ Hd].
  destruct (Hall k m (or_introl eq_refl)) as [-> ->]. cbn [andb].
  apply IH; [exact Hd|]. intros k' m' Hin. apply Hall. now right.
Qed.

Lemma put_names (c : str) (m : node) es :
  map fst (put c m es) =
  if mem c (map fst es) then map fst es else map fst es ++ [c].
Proof.
  induction es as [|[k n] es IH]; [reflexivity|].
  cbn [put map fst]. unfold mem in *. cbn [existsb].
  destruct (String.eqb_spec k c) as [->|Hne].
  - now rewrite String.eqb_refl.
  - cbn [map fst]. rewrite IH.
    assert (E : String.eqb c k = false) by (apply String.eqb_neq; congruence).
    rewrite E. cbn [orb]. now destruct (existsb (String.eqb c) (map fst es)).
Qed.

Lemma distinct_snoc (l : list str) (c : str) :
  distinct l = true -> mem c l = false -> distinct (l ++ [c]) = true.
Proof.
  induction l as [|x l IH]; intros Hd Hm; [reflexivity|].
  cbn [distinct app] in *. apply andb_true_iff in Hd as [Hx Hd].
  unfold mem in Hm. cbn [existsb] in Hm. apply orb_false_iff in Hm as [Hcx Hm].
  rewrite (IH Hd Hm), andb_true_r.
  apply negb_true_iff in Hx. apply negb_true_iff.
  apply not_true_iff_false. intros H. apply mem_in, in_app_or in H as [H|[H|[]]].
  - apply mem_in in H. congruence.
  - subst. now rewrite String.eqb_refl in Hcx.
Qed.

Lemma put_in (c : str) (m : node) es (k : str) (n : node) :
  In (k, n) (put c m es) -> (k, n) = (c, m) \/ In (k, n) es.
Proof.
  induction es as [|[k' n'] es IH]; cbn [put].
  - intros [H|[]]. now left.
  - destruct (String.eqb k' c).
    + intros [H|H]; [now left | right; now right].
    + intros [H|H]; [right; now left|].
      destruct (IH H) as [E|E]; [now left | right; now right].
Qed.

Lemma put_wf (c : str) (m : node) es :
  wf (Dir es) = true -> valid_name c = true -> wf m = true ->
  wf (Dir (put c m es)) = true.
Proof.
  intros Hwf Hc Hm. destruct (wf_dir es Hwf) as [Hd Hall].
  apply wf_dir_intro.
  - rewrite put_names. destruct (mem c (map fst es)) eqn:E; [exact Hd|].
    now apply distinct_snoc.
  - intros k n Hin. apply put_in in Hin as [[= -> ->]|Hin]; [now split | now apply Hall].
Qed.

Lemma assoc_in_pair (k : str) (m : node) es : assoc k es = Some m -> In (k, m) es.
Proof.
  induction es as [|[k' n'] es IH]; cbn [assoc]; [discriminate|].
  destruct (String.eqb_spec k' k) as [->|_].
  - intros [= ->]. now left.
  - intros H. right. now apply IH.
Qed.

Lemma update_wf (f : option node -> result node) (p : list str) :
  (forall o m, f o = Ok m -> wf m = true) ->
  Forall (fun k => valid_name k = true) p ->
  forall n n', wf n = true -> update n p f = Ok n' -> wf n' = true.
Proof.
  intros Hf. induction p as [|c p IH]; intros Hp n n' Hwf U.
  - exact (Hf _ _ U).
  - inversion Hp as [|? ? Hc Hp']; subst.
    cbn [update] in U. destruct n as [d|es]; [discriminate|].
    destruct (wf_dir es Hwf) as [_ Hall].
    destruct (assoc c es) as [m0|] eqn:E.
    + destruct (update m0 p f) as [m1| |] eqn:U1; cbn [bind] in U; try discriminate.
      injection U as <-. apply put_wf; [exact Hwf | exact Hc|].
      apply (IH Hp' m0 m1); [|exact U1].
      exact (proj2 (Hall _ _ (assoc_in_pair _ _ _ E))).
    + destruct p as [|c' p]; [|discriminate].
      destruct (f None) as [m1| |] eqn:F; cbn [bind] in U; try discriminate.
      injection U as <-. apply put_wf; [exact Hwf | exact Hc | exact (Hf _ _ F)].
Qed.

Lemma mkdir_p_wf (p : list str) :
  Forall (fun k => valid_name k = true) p ->
  forall n n', wf n = true -> mkdir_p n p = Ok n' -> wf n' = true.
Proof.
  induction p as [|c p IH]; intros Hp n n' Hwf M.
  - cbn [mkdir_p] in M. destruct n; [discriminate|]. now injection M as <-.
  - inversion Hp as [|? ? Hc Hp']; subst.
    cbn [mkdir_p] in M. destruct n as [d|es]; [discriminate|].
    destruct (wf_dir es Hwf) as [_ Hall].
    destruct (mkdir_p _ p) as [m1| |] eqn:M1; cbn [bind] in M; try discriminate.
    injection M as <-. apply put_wf; [exact Hwf | exact Hc|].
    refine (IH Hp' _ m1 _ M1).
    destruct (assoc c es) as [m0|] eqn:E; [|reflexivity].
    exact (proj2 (Hall _ _ (assoc_in_pair _ _ _ E))).
Qed.

(** A rewrite below a prefix of its path is a rewrite of what lies at
    the prefix. *)
Lemma update_below (f : option node -> result node) (a b : list str) :
  forall n n' m, update n (a ++ b) f = Ok n' -> lookup n a = Some m ->
  exists m', lookup n' a = Some m' /\ update m b f = Ok m'.
Proof.
  induction a as [|c a IH]; intros n n' m U L.
  - injection L as <-. now exists n'.
  - cbn [lookup] in L. destruct n as [d|es]; [discriminate|].
    destruct (assoc c es) as [m0|] eqn:E; [|discriminate].
    cbn [app update] in U. rewrite E in U.
    destruct (update m0 (a ++ b) f) as [m1| |] eqn:U1; cbn [bind] in U; try discriminate.
    injection U as <-. cbn [lookup]. rewrite assoc_put_same.
    exact (IH m0 m1 m U1 L).
Qed.

Lemma mkdir_p_below (a b : list str) :
  forall n n' m, mkdir_p n (a ++ b) = Ok n' -> lookup n a = Some m ->
  exists m', lookup n' a = Some m' /\ mkdir_p m b = Ok m'.
Proof.
  induction a as [|c a IH]; intros n n' m M L.
  - injection L as <-. now exists n'.
  - cbn [lookup] in L. destruct n as [d|es]; [discriminate|].
    destruct (assoc c es) as [m0|] eqn:E; [|discriminate].
    cbn [app mkdir_p] in M. rewrite E in M.
    destruct (mkdir_p m0 (a ++ b)) as [m1| |] eqn:M1; cbn [bind] in M; try discriminate.
    injection M as <-. cbn [lookup]. rewrite assoc_put_same.
    exact (IH m0 m1 m M1 L).
Qed.

Lemma copyfileobj_below (src : stream) (a b : list str) :
  Forall (fun k => valid_name k = true) b ->
  forall fs m, lookup fs a = Some m -> wf m = true ->
  exists m', lookup (snd (copyfileobj src fs (a ++ b))) a = Some m' /\ wf m' = true.
Proof.
  intros Hb. induction src as [| |buf rest IH]; intros fs m L Hwf; cbn [copyfileobj snd];
    try (now exists m).
  destruct buf as [|x buf]; [now exists m|].
  destruct (write fs (a ++ b) (x :: buf)) as [fs1| |] eqn:W; try (now exists m).
  unfold write in W. destruct (update_below _ a b fs fs1 m W L) as [m1 [L1 U1]].
  apply (IH fs1 m1 L1).
  apply (update_wf _ b) with (n := m) (3 := Hwf) (4 := U1); [|exact Hb].
  intros [[d|es]|] r; try discriminate. now intros [= <-].
Qed.

(** The writing part of [upload], seen from a directory above the
    destination: what lies there stays well formed when the names that
    lead on to the destination are valid. *)
Lemma store_file_below (fs : node) (root : Path) (file : stream)
    (r : anchor) (a b : list str) (m : node) :
  Forall (fun k => valid_name k = true) b ->
  lookup fs a = Some m -> wf m = true ->
  exists m',
    lookup (snd (store_file fs {| Pathlib.root := r; tail := a ++ b |} root file)) a = Some m' /\
    wf m' = true.
Proof.
  intros Hb L Hwf. unfold store_file, parent. cbn [tail].
  destruct b as [|c b].
  - (* the destination is the directory itself *)
    rewrite app_nil_r.
    destruct (mkdir_p fs (removelast a)) as [fs1| |] eqn:M; cbn [snd]; try (now exists m).
    assert (L1 : lookup fs1 a = Some m).
    { destruct a as [|x a] using rev_ind.
      - cbn [removelast mkdir_p] in M. destruct fs; [discriminate|].
        now injection M as <-.
      - clear IHa. rewrite removelast_last in M. rewrite lookup_app in L.
        destruct (lookup fs a) as [[d|es]|] eqn:La; try discriminate.
        rewrite (mkdir_p_existing a fs es La) in M. injection M as <-.
        now rewrite lookup_app, La. }
    destruct (open_wb fs1 a) as [fs2| |] eqn:O; cbn [snd]; try (now exists m).
    unfold open_wb in O.
    rewrite <- (app_nil_r a) in O.
    destruct (update_below _ a [] fs1 fs2 m O L1) as [m2 [L2 U2]]. cbn [update] in U2.
    assert (W2 : wf m2 = true) by (destruct m; [injection U2 as <- | discriminate]; reflexivity).
    pose proof (copyfileobj_below file a [] (Forall_nil _) fs2 m2 L2 W2) as [m3 [L3 W3]].
    rewrite app_nil_r in L3.
    destruct (copyfileobj file fs2 a) as [[u| |] fs3]; cbn [snd] in *; try (now exists m3).
    destruct (relative_to _ root); cbn [snd]; now exists m3.
  - assert (Hrl : removelast (a ++ c :: b) = a ++ removelast (c :: b))
      by (apply removelast_app; discriminate).
    rewrite Hrl.
    assert (Hb' : Forall (fun k => valid_name k = true) (removelast (c :: b)))
      by now apply Forall_removelast.
    destruct (mkdir_p fs (a ++ removelast (c :: b))) as [fs1| |] eqn:M; cbn [snd];
      try (now exists m).
    destruct (mkdir_p_below a _ fs fs1 m M L) as [m1 [L1 M1]].
    pose proof (mkdir_p_wf _ Hb' m m1 Hwf M1) as W1.
    destruct (open_wb fs1 (a ++ c :: b)) as [fs2| |] eqn:O; cbn [snd]; try (now exists m1).
    unfold open_wb in O.
    destruct (update_below _ a (c :: b) fs1 fs2 m1 O L1) as [m2 [L2 U2]].
    assert (W2 : wf m2 = true).
    { apply (update_wf _ (c :: b)) with (n := m1) (3 := W1) (4 := U2); [|exact Hb].
      intros [[d|es]|] x; try discriminate; now intros [= <-]. }
    pose proof (copyfileobj_below file a (c :: b) Hb fs2 m2 L2 W2) as [m3 [L3 W3]].
    destruct (copyfileobj file fs2 (a ++ c :: b)) as [[u| |] fs3]; cbn [snd] in *;
      try (now exists m3).
    destruct (relative_to _ root); cbn [snd]; now exists m3.
Qed.

(** ** What a manifest holds *)

Section ManifestComplete.

Variable env : Env.
Variable fs : node.
Variable pd : Path.

(** The record of a regular file whose extension is recognised. *)
Lemma scan_file_hit (sub : list str) es (fname : str) (d : bytes) :
  stat (cwd env) fs (extend pd sub) = Some (Dir es) ->
  wf (Dir es) = true ->
  In (fname, File d) es ->
  mem (Py.lstrip "." (Py.lower (suffix fname))) exts = true ->
  exists a, scan_file env fs pd (extend pd sub) fname = Ok [a] /\
            path a = String.concat "/" (sub ++ [fname]) /\
            bytes_total a = length d /\
            id a = stem fname /\
            type a = Py.lstrip "." (Py.lower (suffix fname)).
Proof.
  intros Hst Hwf Hin Hext. destruct (wf_dir es Hwf) as [Hd Hall].
  destruct (Hall _ _ Hin) as [Hv _].
  pose proof (assoc_distinct fname (File d) es Hd Hin) as Ha.
  destruct (valid_name_parts _ Hv) as [_ [Hdd _]].
  unfold scan_file. cbv zeta. rewrite Hext. cbn [negb].
  rewrite (joinpath_valid _ _ Hv), extend_extend.
  unfold extend at 1. rewrite relative_to_child.
  change {| root := root pd; tail := tail pd ++ sub ++ [fname] |}
    with (extend pd (sub ++ [fname])).
  rewrite <- extend_extend.
  change (extend (extend pd sub) [fname])
    with {| root := root (extend pd sub); tail := tail (extend pd sub) ++ [fname] |}.
  rewrite (stat_child (cwd env) fs (extend pd sub) fname es Hst Hdd), Ha.
  eexists. split; [reflexivity|]. cbn [path bytes_total st_size id type].
  repeat split. apply to_str_relative_concat. now destruct sub.
Qed.

Lemma scan_files_incl (root : Path) (files : list str) (f : str) (l : list Asset) :
  scan_files env fs pd root files = Ok l -> In f files ->
  exists lf, scan_file env fs pd root f = Ok lf /\ incl lf l.
Proof.
  revert l. induction files as [|g files IH]; intros l H Hin; [contradiction|].
  cbn [scan_files] in H.
  destruct (scan_file env fs pd root g) as [a| |] eqn:A; cbn [bind] in H; try discriminate.
  destruct (scan_files env fs pd root files) as [r| |] eqn:R; cbn [bind] in H;
    try discriminate.
  injection H as <-. destruct Hin as [->|Hin].
  - exists a. split; [exact A | now apply incl_appl].
  - destruct (IH r eq_refl Hin) as [lf [E I]]. exists lf. split; [exact E|].
    now apply incl_appr.
Qed.

Lemma scan_below_incl (top : Path) (es : list (str * node)) (k : str) (m : node)
    (r : list Asset) :
  scan env fs pd (walk_below top es) = Ok r -> In (k, m) es ->
  exists x, scan env fs pd (walk_node (joinpath top k) m) = Ok x /\ incl x r.
Proof.
  revert r. induction es as [|[k' m'] es IH]; intros r H Hin; [contradiction|].
  unfold walk_below in H. cbn [flat_map fst snd] in H. fold (walk_below top es) in H.
  rewrite scan_app in H.
  destruct (scan env fs pd (walk_node (joinpath top k') m')) as [x| |] eqn:X;
    cbn [bind] in H; try discriminate.
  destruct (scan env fs pd (walk_below top es)) as [y| |] eqn:Y; cbn [bind] in H;
    try discriminate.
  injection H as <-. destruct Hin as [[= -> ->]|Hin].
  - exists x. split; [exact X | now apply incl_appl].
  - destruct (IH y eq_refl Hin) as [z [E I]]. exists z. split; [exact E|].
    now apply incl_appr.
Qed.

Lemma filenames_of (f : str) (d : bytes) es : In (f, File d) es -> In f (filenames es).
Proof.
  intros H. unfold filenames. apply in_map_iff. exists (f, File d).
  split; [reflexivity|]. apply filter_In. now split.
Qed.

(** The scan of a well-formed tree misses no regular file whose
    extension is recognised. *)
Lemma scan_complete (n : node) :
  wf n = true ->
  forall sub l, stat (cwd env) fs (extend pd sub) = Some n ->
  scan env fs pd (walk_node (extend pd sub) n) = Ok l ->
  forall rest d, rest <> [] -> lookup n rest = Some (File d) ->
  mem (Py.lstrip "." (Py.lower (suffix (last rest "")))) exts = true ->
  exists a, In a l /\
            path a = String.concat "/" (sub ++ rest) /\
            bytes_total a = length d /\
            id a = stem (last rest "") /\
            type a = Py.lstrip "." (Py.lower (suffix (last rest ""))).
Proof.
  induction n as [d0|es IHes] using node_induction;
    intros Hwf sub l Hst Hs rest d Hne Hl Hext.
  - destruct rest; [congruence | discriminate].
  - destruct rest as [|k rest]; [congruence|]. clear Hne.
    cbn [lookup] in Hl. destruct (assoc k es) as [m|] eqn:Ha; [|discriminate].
    pose proof (assoc_in_pair _ _ _ Ha) as Hin.
    destruct (wf_dir es Hwf) as [Hd Hall]. destruct (Hall _ _ Hin) as [Hv Hwm].
    rewrite walk_node_dir in Hs. cbn [scan] in Hs.
    destruct (scan_files env fs pd (extend pd sub) (filenames es)) as [a| |] eqn:A;
      cbn [bind] in Hs; try discriminate.
    destruct (scan env fs pd (walk_below (extend pd sub) es)) as [r| |] eqn:R;
      cbn [bind] in Hs; try discriminate.
    injection Hs as <-.
    destruct rest as [|k' rest].
    + cbn [lookup] in Hl. injection Hl as ->. cbn [last] in *.
      destruct (scan_file_hit sub es k d Hst Hwf Hin Hext) as [rec [E P]].
      destruct (scan_files_incl _ _ k a A (filenames_of k d es Hin)) as [lf [E' I]].
      rewrite E in E'. injection E' as <-.
      exists rec. split; [|exact P]. apply in_or_app. left. apply I. now left.
    + destruct (scan_below_incl _ es k m r R Hin) as [x [X I]].
      rewrite (joinpath_valid _ _ Hv), extend_extend in X.
      destruct (valid_name_parts _ Hv) as [_ [Hdd _]].
      assert (Hstm : stat (cwd env) fs (extend pd (sub ++ [k])) = Some m).
      { rewrite <- extend_extend.
        change (extend (extend pd sub) [k])
          with {| root := root (extend pd sub); tail := tail (extend pd sub) ++ [k] |}.
        now rewrite (stat_child (cwd env) fs (extend pd sub) k es Hst Hdd). }
      rewrite Forall_forall in IHes.
      pose proof (IHes (k, m) Hin) as IHm. cbn [snd] in IHm.
      change (last (k :: k' :: rest) "") with (last (k' :: rest) "") in *.
      destruct (IHm Hwm (sub ++ [k]) x Hstm X (k' :: rest) d ltac:(discriminate) Hl Hext)
        as [rec [Hrec P]].
      exists rec. split; [apply in_or_app; right; now apply I|].
      now rewrite <- app_assoc in P.
Qed.

End ManifestComplete.

Lemma manifest_scan (env : Env) (fs : node) (T : Tokens) (authorization : option str)
    (tok proj : str) (pn : node) :
  _require_bearer authorization = Ok tok ->
  _project_from_token T tok = Ok proj ->
  stat (cwd env) fs (joinpath (PROJECTS_DIR env) proj) = Some pn ->
  manifest env fs T authorization =
    scan env fs (joinpath (PROJECTS_DIR env) proj)
      (walk_node (extend (joinpath (PROJECTS_DIR env) proj) []) pn) /\
  stat (cwd env) fs (extend (joinpath (PROJECTS_DIR env) proj) []) = Some pn.
Proof.
  intros Hb Ht Hst.
  assert (E : extend (joinpath (PROJECTS_DIR env) proj) [] = joinpath (PROJECTS_DIR env) proj).
  { unfold extend. rewrite app_nil_r. now destruct (joinpath (PROJECTS_DIR env) proj). }
  rewrite E. split; [|exact Hst].
  unfold manifest. rewrite Hb. cbn [bind]. rewrite Ht. cbn [bind].
  unfold exists_, walk. now rewrite Hst.
Qed.

(** X23. The manifest of a well-formed project tree misses nothing: for
    every regular file below the project directory whose name has one of
    the six recognised extensions, in any case of letters, it holds a
    record with the file's relative path, its size, the stem of its name
    as identifier and the extension in lower case as type. *)
Theorem manifest_lists_files (env : Env) (fs : node) (T : Tokens)
    (authorization : option str) (tok proj : str) (pn : node)
    (names : list str) (d : bytes) :
  _require_bearer authorization = Ok tok ->
  _project_from_token T tok = Ok proj ->
  stat (cwd env) fs (joinpath (PROJECTS_DIR env) proj) = Some pn ->
  wf pn = true ->
  names <> [] ->
  lookup pn names = Some (File d) ->
  mem (Py.lstrip "." (Py.lower (suffix (last names "")))) exts = true ->
  exists assets a,
    manifest env fs T authorization = Ok assets /\
    In a assets /\
    path a = String.concat "/" names /\
    bytes_total a = length d /\
    id a = stem (last names "") /\
    type a = Py.lstrip "." (Py.lower (suffix (last names ""))).
Proof.
  intros Hb Ht Hst Hwf Hne Hl Hext.
  destruct (manifest_scan env fs T authorization tok proj pn Hb Ht Hst) as [Em Hst'].
  destruct (scan_walk env fs _ pn Hwf [] (Forall_nil _) Hst') as [assets [Es _]].
  destruct (scan_complete env fs _ pn Hwf [] assets Hst' Es names d Hne Hl Hext)
    as [a Ha].
  exists assets, a. split; [congruence | exact Ha].
Qed.

Lemma manifest_lists_files_witness :
  exists assets a,
    manifest Demo.env Demo.fs Demo.T Demo.auth = Ok assets /\
    In a assets /\
    path a = "thumbs/shot.jpg" /\
    bytes_total a = 4 /\
    id a = "shot" /\
    type a = "jpg".
Proof.
  exact (manifest_lists_files Demo.env Demo.fs Demo.T Demo.auth "token-DEMO" "DEMO"
           Demo.demo_dir ["thumbs"; "shot.jpg"] (Demo.b "jpeg")
           eq_refl eq_refl eq_refl eq_refl ltac:(discriminate) eq_refl eq_refl).
Defined.

Lemma valid_names_of_upload (env : Env) (proj path : str) :
  upload_accepts env proj path = true ->
  Forall (fun k => valid_name k = true) (tail (parse (upload_rel path))).
Proof.
  intros Ha. pose proof (upload_accepts_no_dotdot env proj path Ha) as Hn.
  apply no_dotdot_names in Hn.
  pose proof (parse_tail_kept (upload_rel path)) as Hk.
  pose proof (parse_tail_no_sep (upload_rel path)) as Hs.
  rewrite Forall_forall in *. intros k Hin.
  specialize (Hk k Hin). specialize (Hs k Hin). unfold kept in Hk. unfold valid_name.
  rewrite Hk, Hs. cbn [andb negb]. rewrite andb_true_r.
  apply negb_true_iff, String.eqb_neq. intros ->. contradiction.
Qed.

Lemma name_valid (k : str) : valid_name k = true -> name k = k.
Proof.
  intros H. apply valid_name_parts in H as [Hk [_ Hs]].
  unfold name. rewrite (parse_plain k Hs), Hk. reflexivity.
Qed.

(** The suffix and the stem of a path are those of its last name. *)
Lemma suffix_stem_last (s : str) :
  Forall (fun k => valid_name k = true) (tail (parse s)) ->
  suffix (last (tail (parse s)) "") = suffix s /\
  stem (last (tail (parse s)) "") = stem s.
Proof.
  intros H.
  assert (E : name (last (tail (parse s)) "") = name s).
  { unfold name at 2. destruct (tail (parse s)) as [|x l] using rev_ind; [reflexivity|].
    rewrite last_last. apply name_valid. apply Forall_app in H as [_ H].
    now inversion H. }
  unfold suffix, stem. cbv zeta. now rewrite E.
Qed.

(** X24. An upload that succeeds shows in the next manifest: when the
    path of the project directory has no [..] in it, the tree of that
    directory was well formed and the name written to has a recognised
    extension, the manifest of the store left by the upload holds a
    record whose path is the one the upload reported as [saved], whose
    size is the number of bytes uploaded, and whose identifier and type
    are the stem and the extension, in lower case, of that path. *)
Theorem uploaded_file_in_manifest (env : Env) (fs fs' : node) (T : Tokens)
    (rel : str) (file : stream) (authorization : option str)
    (tok proj : str) (pn : node) (ack : UploadAck) :
  _require_bearer authorization = Ok tok ->
  _project_from_token T tok = Ok proj ->
  ~ In ".." (tail (joinpath (PROJECTS_DIR env) proj)) ->
  stat (cwd env) fs (joinpath (PROJECTS_DIR env) proj) = Some pn ->
  wf pn = true ->
  upload env fs T rel file authorization = (Ok ack, fs') ->
  mem (Py.lstrip "." (Py.lower (suffix (saved ack)))) exts = true ->
  exists assets a,
    manifest env fs' T authorization = Ok assets /\
    In a assets /\
    path a = saved ack /\
    bytes_total a = length (received file) /\
    id a = stem (saved ack) /\
    type a = Py.lstrip "." (Py.lower (suffix (saved ack))).
Proof.
  intros Hb Ht Hpd Hst Hwf Hu Hext.
  rewrite (upload_unfold env fs T rel file authorization tok proj Hb Ht) in Hu.
  destruct (upload_accepts env proj rel) eqn:Ha; [|discriminate].
  pose proof (valid_names_of_upload env proj rel Ha) as Hval.
  pose proof (upload_ok_saved env fs fs' rel proj file ack Ha Hu) as Hsaved.
  set (names := tail (parse (upload_rel rel))) in *.
  set (pd := joinpath (PROJECTS_DIR env) proj) in *.
  (* the project directory is where its path says *)
  assert (Hroot : project_root env proj = {| root := Root; tail := tail pd |}).
  { unfold project_root. fold pd.
    rewrite resolve_absolute by apply project_dir_root.
    now rewrite (normalize_plain [] _ Hpd). }
  assert (Hl : lookup fs (tail pd) = Some pn).
  { unfold stat in Hst. destruct (namei fs (start (cwd env) pd) (tail pd)) as [q|] eqn:N;
      [|discriminate].
    apply namei_normalize in N. unfold start in N.
    pose proof (project_dir_root env proj) as Hr. fold pd in Hr.
    destruct (root pd); [congruence | ..];
      rewrite (normalize_plain [] _ Hpd) in N; now subst q. }
  (* what the upload left there *)
  rewrite (upload_dest_below env proj rel (upload_accepts_no_dotdot env proj rel Ha)) in Hu.
  fold names in Hu. rewrite Hroot in Hu. cbn [root tail] in Hu.
  destruct (store_file_ok fs fs' _ _ file ack Hu) as [_ Lf]. cbn [tail] in Lf.
  destruct (store_file_below fs {| root := Root; tail := tail pd |} file
              Root (tail pd) names pn Hval Hl Hwf) as [pn' [L' W']].
  rewrite Hu in L'. cbn [snd] in L'.
  rewrite lookup_app, L' in Lf.
  assert (Hst' : stat (cwd env) fs' pd = Some pn').
  { apply stat_resolved; [apply project_dir_root | exact Hpd | exact L']. }
  (* the path reported *)
  assert (Hrep : Py.replace "\" "/" (to_str {| root := Relative; tail := names |}) =
                 to_str {| root := Relative; tail := names |}).
  { apply replace_id. apply contains_char_to_str; [discriminate | discriminate|].
    apply parse_tail_free, upload_rel_no_backslash. }
  assert (Hparse : tail (parse (saved ack)) = names).
  { rewrite Hsaved. unfold names. now rewrite saved_parses_back. }
  assert (Hvs : Forall (fun k => valid_name k = true) (tail (parse (saved ack))))
    by now rewrite Hparse.
  destruct (suffix_stem_last (saved ack) Hvs) as [Esuf Estem].
  rewrite Hparse in Esuf, Estem. rewrite <- Esuf in Hext |- *. rewrite <- Estem.
  assert (Hne : names <> []).
  { intros E. rewrite E in Hext. discriminate. }
  destruct (manifest_scan env fs' T authorization tok proj pn' Hb Ht Hst') as [Em Hs'].
  fold pd in Em, Hs'.
  destruct (scan_walk env fs' pd pn' W' [] (Forall_nil _) Hs') as [assets [Es _]].
  destruct (scan_complete env fs' pd pn' W' [] assets Hs' Es names (received file)
              Hne Lf Hext) as [a [Hin [Hp Hrest]]].
  exists assets, a. split; [congruence|]. split; [exact Hin|]. split; [|exact Hrest].
  cbn [app] in Hp. rewrite Hp, Hsaved, Hrep. symmetry.
  now apply to_str_relative_concat.
Qed.

Lemma uploaded_file_in_manifest_witness :
  exists assets a,
    manifest Demo.env
      (snd (upload Demo.env Demo.fs Demo.T "/sub\x.BGEO" (Chunk (Demo.b "hi") EOF) Demo.auth))
      Demo.T Demo.auth = Ok assets /\
    In a assets /\
    path a = "sub/x.BGEO" /\
    bytes_total a = 2 /\
    id a = "x" /\
    type a = "bgeo".
Proof.
  refine (uploaded_file_in_manifest Demo.env Demo.fs _ Demo.T "/sub\x.BGEO"
            (Chunk (Demo.b "hi") EOF) Demo.auth "token-DEMO" "DEMO" Demo.demo_dir
            {| ok := true; saved := "sub/x.BGEO" |}
            eq_refl eq_refl _ eq_refl eq_refl eq_refl eq_refl).
  cbv. intuition discriminate.
Defined.

(** ** [setup_dirs.py] and the server *)

Lemma put_put (c : str) (m1 m2 : node) es : put c m2 (put c m1 es) = put c m2 es.
Proof.
  induction es as [|[k n] es IH]; cbn [put].
  - now rewrite String.eqb_refl.
  - destruct (String.eqb k c) eqn:E; cbn [put].
    + now rewrite String.eqb_refl.
    + now rewrite E, IH.
Qed.

(** Two rewrites of the same place, the second of which puts back what
    was there, leave the store as it was. *)
Lemma update_twice_id (f g : option node -> result node) (p : list str) :
  forall n m m1, lookup n p = Some m -> f (Some m) = Ok m1 -> g (Some m1) = Ok m ->
  exists n1, update n p f = Ok n1 /\ update n1 p g = Ok n.
Proof.
  induction p as [|c p IH]; intros n m m1 L F G.
  - injection L as <-. exists m1. now split.
  - cbn [lookup] in L. destruct n as [d|es]; [discriminate|].
    destruct (assoc c es) as [m0|] eqn:E; [|discriminate].
    destruct (IH m0 m m1 L F G) as [n1 [U1 U2]].
    exists (Dir (put c n1 es)). cbn [update]. rewrite E, U1. cbn [bind].
    split; [reflexivity|].
    rewrite assoc_put_same, U2. cbn [bind].
    now rewrite put_put, (put_assoc_id c m0 es E).
Qed.

Lemma mkdir_p_lookup (p : list str) :
  forall n n', mkdir_p n p = Ok n' -> exists es, lookup n' p = Some (Dir es).
Proof.
  induction p as [|c p IH]; intros n n' M.
  - cbn [mkdir_p] in M. destruct n as [d|es]; [discriminate|]. injection M as <-.
    now exists es.
  - cbn [mkdir_p] in M. destruct n as [d|es]; [discriminate|].
    destruct (mkdir_p _ p) as [m1| |] eqn:M1; cbn [bind] in M; try discriminate.
    injection M as <-. cbn [lookup]. rewrite assoc_put_same. exact (IH _ _ M1).
Qed.

Lemma apart_common (a x y : list str) : apart (a ++ x) (a ++ y) = apart x y.
Proof. induction a as [|c a IH]; [reflexivity|]. cbn [app apart]. now rewrite String.eqb_refl. Qed.

Lemma leads_to_common (a x y : list str) : leads_to (a ++ x) (a ++ y) = leads_to x y.
Proof.
  induction a as [|c a IH]; [reflexivity|]. cbn [app leads_to].
  now rewrite String.eqb_refl.
Qed.

Section SetupFacts.

Variable env : Env.

Lemma write_text_ok (fs fs' : node) (p : Path) (data : str) :
  Setup.write_text fs p data = (Ok tt, fs') ->
  lookup fs' (tail p) = Some (File (Py.encode data)) /\
  (forall q, apart q (tail p) = true -> lookup fs' q = lookup fs q) /\
  (forall a b m, tail p = a ++ b -> lookup fs a = Some m ->
     exists m', lookup fs' a = Some m').
Proof.
  unfold Setup.write_text, Setup.seq, Setup.lift. intros H.
  destruct (open_wb fs (tail p)) as [fs1| |] eqn:O; try discriminate.
  destruct (write fs1 (tail p) (Py.encode data)) as [fs2| |] eqn:W; try discriminate.
  injection H as <-.
  pose proof (open_wb_lookup fs fs1 (tail p) O) as L1.
  destruct (write_lookup fs1 (tail p) [] (Py.encode data) L1) as [fs2' [W' L2]].
  rewrite W in W'. injection W' as <-. split; [exact L2|]. split.
  - intros q A. unfold write in W. unfold open_wb in O.
    rewrite (update_frame _ _ fs1 fs2 q W A). exact (update_frame _ _ fs fs1 q O A).
  - intros a b m E La. unfold write in W. unfold open_wb in O. rewrite E in O, W.
    destruct (update_below _ a b fs fs1 m O La) as [m1 [L1' _]].
    destruct (update_below _ a b fs1 fs2 m1 W L1') as [m2 [L2' _]].
    now exists m2.
Qed.

(** Writing to a file the text it holds leaves the store as it was. *)
Lemma write_text_same (fs : node) (p : Path) (data : str) :
  lookup fs (tail p) = Some (File (Py.encode data)) ->
  Setup.write_text fs p data = (Ok tt, fs).
Proof.
  intros L. unfold Setup.write_text, Setup.seq, Setup.lift, open_wb, write.
  destruct (update_twice_id
              (fun o => match o with
                        | Some (Dir _) => Raise IsADirectoryError
                        | _ => Ok (File [])
                        end)
              (fun o => match o with
                        | Some (File d) => Ok (File (d ++ Py.encode data))
                        | _ => Raise OSError
                        end)
              (tail p) fs (File (Py.encode data)) (File []) L eq_refl eq_refl)
    as [n1 [U1 U2]].
  now rewrite U1, U2.
Qed.

Lemma demo_paths :
  tail (PROJECTS_DIR env) = base_dir env ++ ["projects"] /\
  tail (Setup.THUMB_DIR env) = base_dir env ++ ["thumbs"] /\
  Setup.demo_proj env =
    {| root := Root; tail := base_dir env ++ ["projects"; "DemoProject"] |} /\
  forall f, valid_name f = true ->
    joinpath (Setup.demo_proj env) f =
    {| root := Root; tail := (base_dir env ++ ["projects"; "DemoProject"]) ++ [f] |}.
Proof.
  assert (E : Setup.demo_proj env =
              {| root := Root; tail := base_dir env ++ ["projects"; "DemoProject"] |}).
  { unfold Setup.demo_proj. rewrite projects_dir_eq. unfold joinpath. cbn.
    now rewrite <- app_assoc. }
  repeat split; try reflexivity; [exact E|].
  intros f Hf. now rewrite E, (joinpath_valid _ f Hf).
Qed.

End SetupFacts.

Lemma lookup_above (n : node) (a b : list str) (m : node) :
  lookup n (a ++ b) = Some m -> b <> [] -> exists es, lookup n a = Some (Dir es).
Proof.
  intros L Hb. rewrite lookup_app in L.
  destruct (lookup n a) as [[d|es]|]; [|now exists es | discriminate].
  destruct b; [congruence | discriminate].
Qed.

Section SetupRun.

Variable env : Env.

(** What a run of [main] that succeeds leaves: the three directories,
    the three files with their text, and everything else below the
    demo project as it was. *)
Lemma main_ok (fs fs' : node) :
  Setup.main env fs = (Ok tt, fs') ->
  (exists es, lookup fs' (base_dir env ++ ["projects"]) = Some (Dir es)) /\
  (exists es, lookup fs' (base_dir env ++ ["thumbs"]) = Some (Dir es)) /\
  (exists es, lookup fs' (base_dir env ++ ["projects"; "DemoProject"]) = Some (Dir es)) /\
  lookup fs' ((base_dir env ++ ["projects"; "DemoProject"]) ++ ["cache.abc"]) =
    Some (File (Py.encode "dummy alembic file")) /\
  lookup fs' ((base_dir env ++ ["projects"; "DemoProject"]) ++ ["smoke.vdb"]) =
    Some (File (Py.encode "dummy vdb file")) /\
  lookup fs' ((base_dir env ++ ["projects"; "DemoProject"]) ++ ["geo.bgeo"]) =
    Some (File (Py.encode "dummy bgeo file")) /\
  forall f, mem f ["cache.abc"; "smoke.vdb"; "geo.bgeo"] = false ->
    lookup fs' ((base_dir env ++ ["projects"; "DemoProject"]) ++ [f]) =
    lookup fs ((base_dir env ++ ["projects"; "DemoProject"]) ++ [f]).
Proof.
  destruct (demo_paths env) as [EP [ET [ED EF]]].
  unfold Setup.main, Setup.mkdir. rewrite EP, ET.
  rewrite (EF "cache.abc" eq_refl), (EF "smoke.vdb" eq_refl), (EF "geo.bgeo" eq_refl), ED.
  cbn [tail].
  set (D := base_dir env ++ ["projects"; "DemoProject"]).
  set (P := base_dir env ++ ["projects"]).
  intros H.
  destruct (mkdir_p fs P) as [fs1| |] eqn:M1; try discriminate.
  cbn [Setup.lift Setup.seq] in H.
  destruct (mkdir_p fs1 (base_dir env ++ ["thumbs"])) as [fs2| |] eqn:M2; try discriminate.
  cbn [Setup.lift Setup.seq] in H.
  destruct (mkdir_p fs2 D) as [fs3| |] eqn:M3; try discriminate.
  cbn [Setup.lift Setup.seq] in H.
  destruct (Setup.write_text fs3 _ "dummy alembic file") as [[[]| |] fs4] eqn:W1;
    try discriminate.
  cbn [Setup.seq] in H.
  destruct (Setup.write_text fs4 _ "dummy vdb file") as [[[]| |] fs5] eqn:W2;
    try discriminate.
  cbn [Setup.seq] in H.
  destruct (write_text_ok fs3 fs4 _ _ W1) as [L1 [F1 _]].
  destruct (write_text_ok fs4 fs5 _ _ W2) as [L2 [F2 _]].
  destruct (write_text_ok fs5 fs' _ _ H) as [L3 [F3 _]].
  cbn [tail] in *.
  assert (A12 : apart (D ++ ["cache.abc"]) (D ++ ["smoke.vdb"]) = true)
    by now rewrite apart_common.
  assert (A13 : apart (D ++ ["cache.abc"]) (D ++ ["geo.bgeo"]) = true)
    by now rewrite apart_common.
  assert (A23 : apart (D ++ ["smoke.vdb"]) (D ++ ["geo.bgeo"]) = true)
    by now rewrite apart_common.
  assert (Hc : lookup fs' (D ++ ["cache.abc"]) = Some (File (Py.encode "dummy alembic file")))
    by (rewrite (F3 _ A13), (F2 _ A12); exact L1).
  assert (Hs : lookup fs' (D ++ ["smoke.vdb"]) = Some (File (Py.encode "dummy vdb file")))
    by (rewrite (F3 _ A23); exact L2).
  assert (HD : exists es, lookup fs' D = Some (Dir es))
    by (apply (lookup_above fs' D ["geo.bgeo"] _ L3); discriminate).
  assert (HP : exists es, lookup fs' P = Some (Dir es)).
  { destruct HD as [es HD]. apply (lookup_above fs' P ["DemoProject"] (Dir es)); [|discriminate].
    unfold P. rewrite <- app_assoc. exact HD. }
  assert (HT : exists es, lookup fs' (base_dir env ++ ["thumbs"]) = Some (Dir es)).
  { destruct (mkdir_p_lookup _ _ _ M2) as [es L].
    exists es. rewrite <- L.
    assert (A : forall f, apart (base_dir env ++ ["thumbs"]) (D ++ [f]) = true).
    { intros f. unfold D. rewrite <- app_assoc. now rewrite apart_common. }
    rewrite (F3 _ (A _)), (F2 _ (A _)), (F1 _ (A _)).
    apply (mkdir_p_frame _ _ _ _ M3). unfold D. now rewrite leads_to_common. }
  repeat split; try assumption.
  intros f Hf. unfold mem in Hf. cbn [existsb] in Hf.
  apply orb_false_iff in Hf as [H1 Hf]. apply orb_false_iff in Hf as [H2 Hf].
  apply orb_false_iff in Hf as [H3 _].
  assert (A : forall g, String.eqb f g = false -> apart (D ++ [f]) (D ++ [g]) = true).
  { intros g Hg. rewrite apart_common. cbn [apart]. now rewrite Hg. }
  rewrite (F3 _ (A _ H3)), (F2 _ (A _ H2)), (F1 _ (A _ H1)).
  rewrite (mkdir_p_frame _ _ _ _ M3)
    by (rewrite <- (app_nil_r D) at 2; now rewrite leads_to_common).
  rewrite (mkdir_p_frame _ _ _ _ M2)
    by (unfold D; rewrite <- app_assoc; now rewrite leads_to_common).
  apply (mkdir_p_frame _ _ _ _ M1).
  unfold D, P. rewrite <- app_assoc. now rewrite leads_to_common.
Qed.

End SetupRun.

(** X25. [setup_dirs.main] can be run again: a run that succeeds leaves
    a store in which a second run succeeds too and changes nothing. *)
Theorem setup_main_idempotent (env : Env) (fs fs' : node) :
  Setup.main env fs = (Ok tt, fs') ->
  Setup.main env fs' = (Ok tt, fs').
Proof.
  intros H.
  destruct (main_ok env fs fs' H) as [[eP HP] [[eT HT] [[eD HD] [Hc [Hs [Hg _]]]]]].
  destruct (demo_paths env) as [EP [ET [ED EF]]].
  unfold Setup.main, Setup.mkdir. rewrite EP, ET, ED. cbn [tail].
  rewrite (mkdir_p_existing _ fs' eP HP). cbn [Setup.lift Setup.seq].
  rewrite (mkdir_p_existing _ fs' eT HT). cbn [Setup.lift Setup.seq].
  rewrite (mkdir_p_existing _ fs' eD HD). cbn [Setup.lift Setup.seq].
  rewrite <- ED.
  rewrite (write_text_same fs' (joinpath (Setup.demo_proj env) "cache.abc") _)
    by (rewrite EF by reflexivity; exact Hc).
  cbn [Setup.seq].
  rewrite (write_text_same fs' (joinpath (Setup.demo_proj env) "smoke.vdb") _)
    by (rewrite EF by reflexivity; exact Hs).
  cbn [Setup.seq].
  apply write_text_same. rewrite EF by reflexivity. exact Hg.
Qed.

Lemma setup_main_idempotent_witness :
  Setup.main Demo.env (snd (Setup.main Demo.env Demo.fs)) =
  (Ok tt, snd (Setup.main Demo.env Demo.fs)).
Proof.
  apply (setup_main_idempotent Demo.env Demo.fs). reflexivity.
Defined.

(** X26. The demo project that [setup_dirs.main] makes is listed by the
    server but is closed: the script writes no credential record, so
    that, unless one was there before, [GET /projects] names
    [DemoProject] and every login to it, with any password, is refused
    with 401 "Password not set for project" and records no token. *)
Theorem setup_project_listed_but_closed (env : Env) (fs fs' : node) :
  ~ In ".." (base_dir env) ->
  Setup.main env fs = (Ok tt, fs') ->
  lookup fs (base_dir env ++ ["projects"; "DemoProject"; ".passwd"]) = None ->
  (exists names, list_projects env fs' = Ok names /\ In "DemoProject" names) /\
  forall T pw,
    login env fs' T {| project := "DemoProject"; password := pw |} =
    (HTTPException 401 "Password not set for project", T).
Proof.
  intros Hb H Hno.
  destruct (main_ok env fs fs' H) as [[eP HP] [_ [[eD HD] [_ [_ [_ Hrest]]]]]].
  assert (HstP : stat (cwd env) fs' (PROJECTS_DIR env) = Some (Dir eP)).
  { apply stat_resolved; [rewrite projects_dir_eq; discriminate| | exact HP].
    rewrite projects_dir_eq. cbn [tail]. intros Hin.
    apply in_app_or in Hin as [Hin|[Hin|[]]]; [now apply Hb | discriminate]. }
  assert (Ha : assoc "DemoProject" eP = Some (Dir eD)).
  { replace (base_dir env ++ ["projects"; "DemoProject"])
      with ((base_dir env ++ ["projects"]) ++ ["DemoProject"]) in HD
      by now rewrite <- app_assoc.
    rewrite lookup_app, HP in HD. cbn [lookup] in HD.
    now destruct (assoc "DemoProject" eP). }
  assert (Hpw : assoc ".passwd" eD = None).
  { assert (Hno' : lookup fs ((base_dir env ++ ["projects"; "DemoProject"]) ++ [".passwd"])
                    = None) by (rewrite <- app_assoc; exact Hno).
    pose proof (eq_trans (Hrest ".passwd" eq_refl) Hno') as Hr.
    rewrite lookup_app, HD in Hr. cbn [lookup] in Hr.
    now destruct (assoc ".passwd" eD). }
  assert (Hjoin : joinpath (PROJECTS_DIR env) "DemoProject" = child (PROJECTS_DIR env) "DemoProject")
    by reflexivity.
  assert (HstD : stat (cwd env) fs' (joinpath (PROJECTS_DIR env) "DemoProject") = Some (Dir eD)).
  { rewrite Hjoin, (stat_child_path env fs' _ "DemoProject" eP HstP) by discriminate.
    exact Ha. }
  split.
  - rewrite (list_projects_dir env fs' eP HstP). eexists. split; [reflexivity|].
    apply in_map_iff. exists (child (PROJECTS_DIR env) "DemoProject").
    split; [apply path_name_child|]. apply filter_In. split.
    + apply in_map_iff. exists ("DemoProject", Dir eD). split; [reflexivity|].
      now apply assoc_in_pair.
    + apply (listed_child env fs' "DemoProject" eP HstP).
      split; [now exists eD | split; reflexivity].
  - intros T pw. unfold login. cbn [project]. unfold exists_ at 1. rewrite HstD.
    cbn [negb]. unfold _has_passwd, exists_.
    pose proof (stat_child (cwd env) fs' _ ".passwd" eD HstD ltac:(discriminate)) as E.
    rewrite Hpw in E.
    assert (E' : stat (cwd env) fs' (_passwd_path env "DemoProject") = None) by exact E.
    now rewrite E'.
Qed.

Lemma setup_project_listed_but_closed_witness :
  (exists names,
     list_projects Demo.env (snd (Setup.main Demo.env Demo.fs)) = Ok names /\
     In "DemoProject" names) /\
  forall T pw,
    login Demo.env (snd (Setup.main Demo.env Demo.fs)) T
      {| project := "DemoProject"; password := pw |} =
    (HTTPException 401 "Password not set for project", T).
Proof.
  apply (setup_project_listed_but_closed Demo.env Demo.fs).
  - cbv. intuition discriminate.
  - reflexivity.
  - reflexivity.
Defined.
